(** * ffmpeg_progress: the progress-observing supervisor of [ffmpeg_progress.py]

    A shallow embedding of [FFMPEGError] and [ffmpegThread] and the
    properties of its progress decoding, duration resolution and
    terminal state.

    Conventions.
    - Python [bytes] and ASCII-decoded [str] values are Rocq [string]s
      (sequences of 8-bit characters).
    - Python [float] is IEEE 754 binary64, given by the Standard Library's
      executable specification [SpecFloat] at precision 53, [emax] 1024.
    - The object [self] is a record threaded through every method; a
      method returns normally, raises, or runs out of loop fuel. *)

From Stdlib Require Import ZArith NArith Lia Bool List Ascii String.
From Stdlib Require Import SpecFloat.
From stdpp Require Import base option strings gmap.
From Stdlib Require Import DecimalString.

Local Open Scope string_scope.
Local Open Scope Z_scope.

#[local] Arguments String.append !s1 s2 : simpl nomatch.

(** ** Python's [float] *)

Module PyFloat.

Abbreviation float := spec_float.

Definition prec : Z := 53.
Definition emax : Z := 1024.

Definition fadd : float -> float -> float := SFadd prec emax.
Definition fmul : float -> float -> float := SFmul prec emax.
Definition fltb : float -> float -> bool := SFltb.

(** [x / y] on floats raises [ZeroDivisionError] when [y] is a zero of
    either sign; [fdiv] is the quotient otherwise. *)
Definition is_zero (x : float) : bool :=
  match x with S754_zero _ => true | _ => false end.
Definition fdiv : float -> float -> float := SFdiv prec emax.

(** An [int] operand of a float operation, converted with rounding to
    nearest even (exact below 2^53). *)
Definition of_Z (n : Z) : float := binary_normalize prec emax n 0 false.

(** The correctly rounded quotient of two positive integers. *)
Definition of_ratio (neg : bool) (p q : positive) : float :=
  let '(mz, ez, lz) := SFdiv_core_binary prec emax (Zpos p) 0 (Zpos q) 0 in
  binary_round_aux prec emax neg mz ez lz.

(** The correctly rounded value of the decimal [(-1)^neg * m * 10^e10]:
    what [float()] yields for a decimal literal with digits [m]. *)
Definition of_decimal (neg : bool) (m : N) (e10 : Z) : float :=
  match m with
  | N0 => S754_zero neg
  | Npos p =>
      if 0 <=? e10
      then binary_round prec emax neg (p * Z.to_pos (10 ^ e10)) 0
      else of_ratio neg p (Z.to_pos (10 ^ (- e10)))
  end.

Definition zero : float := S754_zero false.
Definition nan : float := S754_nan.
Definition inf (neg : bool) : float := S754_infinity neg.

End PyFloat.

Import PyFloat.

(** ** Python's [bytes] and [str] operations used by the module *)

Module Py.

Definition code (c : ascii) : N := N_of_ascii c.

Definition is_digit (c : ascii) : bool :=
  ((48 <=? code c) && (code c <=? 57))%N.

Definition digit_val (c : ascii) : N := (code c - 48)%N.

(** The bytes removed by [bytes.strip()]: space, TAB, LF, VT, FF, CR. *)
Definition is_space (c : ascii) : bool :=
  (((9 <=? code c) && (code c <=? 13)) || (code c =? 32))%N.

(** The characters [float()] strips from both ends of an ASCII [str]:
    the same six, space, TAB, LF, VT, FF, CR. The separators FS, GS, RS
    and US (codes 28 to 31) are kept, and make [float()] raise
    [ValueError]. *)
Definition is_str_space (c : ascii) : bool := is_space c.

Fixpoint lstrip (p : ascii -> bool) (s : string) : string :=
  match s with
  | String c r => if p c then lstrip p r else s
  | EmptyString => EmptyString
  end.

Fixpoint rstrip (p : ascii -> bool) (s : string) : string :=
  match s with
  | EmptyString => EmptyString
  | String c r =>
      match rstrip p r with
      | EmptyString => if p c then EmptyString else String c EmptyString
      | r' => String c r'
      end
  end.

(** [b.strip()] *)
Definition strip (s : string) : string := lstrip is_space (rstrip is_space s).

(** [b.decode("ascii", "ignore")]: bytes above 127 are dropped. *)
Fixpoint decode_ascii_ignore (s : string) : string :=
  match s with
  | EmptyString => EmptyString
  | String c r =>
      if (code c <? 128)%N then String c (decode_ascii_ignore r)
      else decode_ascii_ignore r
  end.

(** [s.split(sep)] for a one-character separator. *)
Fixpoint split (sep : ascii) (s : string) : list string :=
  match s with
  | EmptyString => [EmptyString]
  | String c r =>
      if Ascii.eqb c sep then EmptyString :: split sep r
      else match split sep r with
           | h :: t => String c h :: t
           | [] => [String c EmptyString]
           end
  end.

(** [s.split(sep, 1)]: at most one split, at the first separator. *)
Fixpoint split1 (sep : ascii) (s : string) : list string :=
  match s with
  | EmptyString => [EmptyString]
  | String c r =>
      if Ascii.eqb c sep then [EmptyString; r]
      else match split1 sep r with
           | h :: t => String c h :: t
           | [] => [String c EmptyString]
           end
  end.

(** [f.readline()] on the unread content of a pipe whose writer has
    finished: the bytes up to and including the first LF, or everything
    left when there is none; the empty string at end of file. The second
    component is what stays unread. *)
Fixpoint readline (s : string) : string * string :=
  match s with
  | EmptyString => (EmptyString, EmptyString)
  | String c r =>
      if Ascii.eqb c "010" then (String c EmptyString, r)
      else let (l, r') := readline r in (String c l, r')
  end.

(** [f.read()]: everything left. *)
Definition read (s : string) : string * string := (s, EmptyString).

(** [f.readable()] of the buffered reader of a pipe opened by
    [subprocess.Popen] is [True]. *)
Definition readable (s : string) : bool := true.

(** *** The regular expression [Duration: ([0-9:\.]+),] *)

Definition is_duration_char (c : ascii) : bool :=
  is_digit c || Ascii.eqb c ":" || Ascii.eqb c ".".

(** The longest prefix of characters satisfying [p], and the rest. *)
Fixpoint span (p : ascii -> bool) (s : string) : string * string :=
  match s with
  | String c r =>
      if p c then let (a, b) := span p r in (String c a, b)
      else (EmptyString, s)
  | EmptyString => (EmptyString, EmptyString)
  end.

Fixpoint strip_prefix (pre s : string) : option string :=
  match pre, s with
  | EmptyString, _ => Some s
  | String a pre', String b s' =>
      if Ascii.eqb a b then strip_prefix pre' s' else None
  | String _ _, EmptyString => None
  end.

(** A match anchored at the start of [s]. The comma is outside the
    character class, so the greedy group can only be the whole run of
    class characters: backtracking to a shorter run leaves a class
    character where the comma is required. *)
Definition duration_re_match (s : string) : option string :=
  match strip_prefix "Duration: " s with
  | Some r =>
      match span is_duration_char r with
      | (EmptyString, _) => None
      | (g, String c _) => if Ascii.eqb c "," then Some g else None
      | (_, EmptyString) => None
      end
  | None => None
  end.

(** [duration_re.search(s)]: the group of the leftmost match. *)
Fixpoint duration_re_search (s : string) : option string :=
  match duration_re_match s with
  | Some g => Some g
  | None =>
      match s with
      | EmptyString => None
      | String _ r => duration_re_search r
      end
  end.

(** *** [float(s)] for an ASCII [str] *)

(** Underscores of a numeric literal may only stand between two digits;
    they are removed before the number is read. [prev] is the preceding
    character. *)
Fixpoint remove_underscores (prev : ascii) (s : string) : option string :=
  match s with
  | EmptyString => if Ascii.eqb prev "_" then None else Some EmptyString
  | String c r =>
      if Ascii.eqb c "_" then
        if is_digit prev then remove_underscores c r else None
      else if Ascii.eqb prev "_" && negb (is_digit c) then None
      else option_map (String c) (remove_underscores c r)
  end.

Definition sign (s : string) : bool * string :=
  match s with
  | String c r =>
      if Ascii.eqb c "-" then (true, r)
      else if Ascii.eqb c "+" then (false, r)
      else (false, s)
  | EmptyString => (false, s)
  end.

(** Reads a run of digits: their value on top of [acc], how many there
    were on top of [cnt], and the rest. *)
Fixpoint digits (acc : N) (cnt : nat) (s : string) : N * nat * string :=
  match s with
  | String c r =>
      if is_digit c then digits (10 * acc + digit_val c)%N (S cnt) r
      else (acc, cnt, s)
  | EmptyString => (acc, cnt, s)
  end.

Definition lower (c : ascii) : ascii :=
  if ((65 <=? code c) && (code c <=? 90))%N
  then ascii_of_N (code c + 32) else c.

Fixpoint lowercase (s : string) : string :=
  match s with
  | EmptyString => EmptyString
  | String c r => String (lower c) (lowercase r)
  end.

(** A decimal literal: an optional sign, digits with an optional point
    among them (at least one digit in all), and an optional exponent of
    [e] or [E], an optional sign and at least one digit; it has to cover
    the whole string. *)
Definition parse_decimal (s : string) : option float :=
  let '(neg, s1) := sign s in
  let '(ip, ni, s2) := digits 0 0 s1 in
  let '(m, nf, s3) :=
    match s2 with
    | String c r => if Ascii.eqb c "." then digits ip 0 r else (ip, 0%nat, s2)
    | EmptyString => (ip, 0%nat, s2)
    end in
  match (ni + nf)%nat with
  | O => None
  | S _ =>
      let '(e, s4) :=
        match s3 with
        | String c r =>
            if Ascii.eqb (lower c) "e" then
              let '(eneg, r1) := sign r in
              let '(ev, ne, r2) := digits 0 0 r1 in
              match ne with
              | O => (0, s3)
              | S _ => (if eneg then - Z.of_N ev else Z.of_N ev, r2)
              end
            else (0, s3)
        | EmptyString => (0, s3)
        end in
      match s4 with
      | EmptyString => Some (of_decimal neg m (e - Z.of_nat nf))
      | String _ _ => None
      end
  end.

Definition parse_inf_or_nan (s : string) : option float :=
  let '(neg, r) := sign s in
  let w := lowercase r in
  if String.eqb w "inf" || String.eqb w "infinity" then Some (inf neg)
  else if String.eqb w "nan" then Some nan
  else None.

(** [float(s)]; [None] stands for [ValueError]. *)
Definition float_of_str (s : string) : option float :=
  match remove_underscores "000" s with
  | None => None
  | Some s' =>
      let t := lstrip is_str_space (rstrip is_str_space s') in
      match parse_decimal t with
      | Some x => Some x
      | None => parse_inf_or_nan t
      end
  end.

End Py.

(** ** The subprocess handle *)

Module subprocess.

(** What [run] can observe of the child once it has been spawned with
    [stdin=DEVNULL, stdout=PIPE, stderr=PIPE]: the bytes its two pipes
    still hold for the reader, and what [poll()] answers when [run]
    asks: the exit status, or [None] while the child has not
    terminated. *)
Record Popen := {
  stdout : string;
  stderr : string;
  returncode : option Z
}.

Definition poll (p : Popen) : option Z := returncode p.

Definition with_stdout (s : string) (p : Popen) : Popen :=
  {| stdout := s; stderr := stderr p; returncode := returncode p |}.

Definition with_stderr (s : string) (p : Popen) : Popen :=
  {| stdout := stdout p; stderr := s; returncode := returncode p |}.

End subprocess.

(** ** [class FFMPEGError(Exception)] *)

Module FFMPEGError.

Record t := __init__ {
  exitcode : option Z;
  stderr : string
}.

Definition __str__ (self : t) : string := Py.decode_ascii_ignore (stderr self).

End FFMPEGError.

(** ** [class ffmpegThread(threading.Thread)] *)

Module ffmpegThread.

Import Py subprocess.

(** The values of the [info] dictionary: the strings read from the
    progress channel and the float stored under ["done"]. *)
Inductive value :=
  | VStr (s : string)
  | VFloat (x : float).

(** [float(v)] *)
Definition float_of (v : value) : option float :=
  match v with
  | VStr s => float_of_str s
  | VFloat x => Some x
  end.

(** A call of one of the two callbacks, with its argument. *)
Inductive event :=
  | Progress (done : float)
  | Info (info : gmap string value).

Inductive exn :=
  | ValueError
  | KeyError (key : string)
  | IOError (msg : string)
  | ZeroDivisionError
  | UnboundLocalError (name : string)
  | AttributeError (name : string).

(** The attributes of [self]. [progress_f] and [info_f] tell whether a
    callback was supplied; the calls made are appended to [calls]. An
    attribute that is assigned only by [run] is [None] until then; for
    [ffmpeg] and [exitcode], [Some None] is Python's [None]. *)
Record t := {
  progress_f : bool;
  info_f : bool;
  _input_duration : option float;
  ffmpeg : option (option Popen);
  exitcode : option (option Z);
  stderr : option string;
  calls : list event
}.

(** [ffmpegThread(parameters, progress_f, info_f)] *)
Definition __init__ (progress_f info_f : bool) : t :=
  {| progress_f := progress_f; info_f := info_f; _input_duration := None;
     ffmpeg := None; exitcode := None; stderr := None; calls := [] |}.

Definition set__input_duration (d : option float) (self : t) : t :=
  {| progress_f := progress_f self; info_f := info_f self;
     _input_duration := d; ffmpeg := ffmpeg self;
     exitcode := exitcode self; stderr := stderr self;
     calls := calls self |}.

Definition set_ffmpeg (p : option (option Popen)) (self : t) : t :=
  {| progress_f := progress_f self; info_f := info_f self;
     _input_duration := _input_duration self; ffmpeg := p;
     exitcode := exitcode self; stderr := stderr self;
     calls := calls self |}.

Definition set_exitcode (c : option (option Z)) (self : t) : t :=
  {| progress_f := progress_f self; info_f := info_f self;
     _input_duration := _input_duration self; ffmpeg := ffmpeg self;
     exitcode := c; stderr := stderr self; calls := calls self |}.

Definition set_stderr (b : option string) (self : t) : t :=
  {| progress_f := progress_f self; info_f := info_f self;
     _input_duration := _input_duration self; ffmpeg := ffmpeg self;
     exitcode := exitcode self; stderr := b; calls := calls self |}.

Definition add_call (e : event) (self : t) : t :=
  {| progress_f := progress_f self; info_f := info_f self;
     _input_duration := _input_duration self; ffmpeg := ffmpeg self;
     exitcode := exitcode self; stderr := stderr self;
     calls := calls self ++ [e] |}.

(** *** Methods as state transformers *)

Inductive outcome (A : Type) :=
  | Ret (a : A) (self : t)
  | Raise (e : exn) (self : t)
  | OutOfFuel.
Arguments Ret {A} a self.
Arguments Raise {A} e self.
Arguments OutOfFuel {A}.

Definition M (A : Type) : Type := t -> outcome A.

#[export] Instance M_ret : MRet M := fun A a self => Ret a self.
#[export] Instance M_bind : MBind M := fun A B f m self =>
  match m self with
  | Ret a self' => f a self'
  | Raise e self' => Raise e self'
  | OutOfFuel => OutOfFuel
  end.

Definition raise {A} (e : exn) : M A := fun self => Raise e self.
Definition out_of_fuel {A} : M A := fun _ => OutOfFuel.
Definition get : M t := fun self => Ret self self.
Definition modify (f : t -> t) : M unit := fun self => Ret tt (f self).

(** [float(x)], raising [ValueError]. *)
Definition float_ (v : value) : M float :=
  match float_of v with
  | Some x => mret x
  | None => raise ValueError
  end.

(** [x / y], raising [ZeroDivisionError]. *)
Definition truediv (x y : float) : M float :=
  if is_zero y then raise ZeroDivisionError else mret (fdiv x y).

Definition indicate_progress (done : float) (info : gmap string value)
  : M unit :=
  self ← get;
  (if progress_f self then modify (add_call (Progress done)) else mret tt) ;;
  (if info_f self then modify (add_call (Info info)) else mret tt).

(** The [while True] loop of the [input_duration] property. The name
    [time] is assigned in the body, so it is local to the function and
    unbound where [time.sleep] is reached. *)
Fixpoint input_duration_loop (fuel : nat) : M float :=
  match fuel with
  | O => out_of_fuel
  | S fuel =>
      self ← get;
      match ffmpeg self with
      | Some (Some p) =>
          if negb (readable (subprocess.stderr p)) then
            raise (UnboundLocalError "time")
          else
            let '(line, rest) := readline (subprocess.stderr p) in
            modify (set_ffmpeg (Some (Some (with_stderr rest p)))) ;;
            let line := decode_ascii_ignore line in
            match duration_re_search line with
            | Some duration_s =>
                match split "." duration_s with
                | [time; partial] =>
                    partial ← float_ (VStr ("0." ++ partial));
                    match split ":" time with
                    | [hours; minutes; seconds] =>
                        hours ← float_ (VStr hours);
                        minutes ← float_ (VStr minutes);
                        seconds ← float_ (VStr seconds);
                        let d := fadd (fadd (fadd (fmul hours (of_Z 3600))
                                                  (fmul minutes (of_Z 60)))
                                            seconds)
                                      partial in
                        modify (set__input_duration (Some d)) ;;
                        mret d
                    | _ => raise ValueError
                    end
                | _ => raise ValueError
                end
            | None => input_duration_loop fuel
            end
      | Some None => raise (AttributeError "stderr")
      | None => raise (AttributeError "ffmpeg")
      end
  end.

Definition input_duration (fuel : nat) : M float :=
  self ← get;
  match _input_duration self with
  | None =>
      match ffmpeg self with
      | None => raise (AttributeError "ffmpeg")
      | Some None =>
          raise (IOError "ffmpeg never got as far as reading the duration.")
      | Some (Some _) => input_duration_loop fuel
      end
  | Some d => mret d
  end.

(** [process_info] stores into the dictionary it is given; the result is
    that dictionary as the call leaves it. *)
Definition process_info (fuel : nat) (info : gmap string value)
  : M (gmap string value) :=
  match info !! "out_time_ms" with
  | None => raise (KeyError "out_time_ms")
  | Some v =>
      out_time_ms ← float_ v;
      if fltb zero out_time_ms then
        let out_time := fdiv out_time_ms (of_Z 1000000) in
        d ← input_duration fuel;
        done ← truediv out_time d;
        let info := <["done" := VFloat done]> info in
        indicate_progress done info ;;
        mret info
      else mret info
  end.

(** The [while] loop of [run], with the dictionary being accumulated. *)
Fixpoint run_loop (fuel : nat) (info : gmap string value) : M unit :=
  match fuel with
  | O => out_of_fuel
  | S fuel =>
      self ← get;
      match ffmpeg self with
      | Some (Some p) =>
          if readable (subprocess.stdout p) then
            let '(line, rest) := readline (subprocess.stdout p) in
            modify (set_ffmpeg (Some (Some (with_stdout rest p)))) ;;
            let line := strip line in
            match line with
            | String _ _ =>
                let line := decode_ascii_ignore line in
                match split1 "=" line with
                | [key; value] =>
                    let info := <[key := VStr value]> info in
                    if String.eqb key "progress" then
                      process_info fuel info ;;
                      run_loop fuel ∅
                    else run_loop fuel info
                | _ => raise ValueError
                end
            | EmptyString => mret tt
            end
          else mret tt
      | Some None => raise (AttributeError "stdout")
      | None => raise (AttributeError "ffmpeg")
      end
  end.

(** [run], with [proc] the handle that [subprocess.Popen] returns for
    [[ffmpeg_executable, "-progress", "-"] + parameters]. *)
Definition run (proc : Popen) (fuel : nat) : M unit :=
  modify (set_ffmpeg (Some (Some proc))) ;;
  run_loop fuel ∅ ;;
  self ← get;
  match ffmpeg self with
  | Some (Some p) =>
      modify (set_exitcode (Some (poll p))) ;;
      let '(data, rest) := read (subprocess.stderr p) in
      modify (set_ffmpeg (Some (Some (with_stderr rest p)))) ;;
      modify (set_stderr (Some data)) ;;
      modify (set_ffmpeg (Some None))
  | Some None => raise (AttributeError "poll")
  | None => raise (AttributeError "ffmpeg")
  end.

(** The truth value of [self.exitcode]. *)
Definition truthy (c : option Z) : bool :=
  match c with
  | Some z => negb (z =? 0)
  | None => false
  end.

(** The [exception] property. *)
Definition exception : M (option FFMPEGError.t) :=
  self ← get;
  match exitcode self with
  | None => raise (IOError "ffmpeg didn’t finish(, yet).")
  | Some c =>
      if truthy c then
        match stderr self with
        | Some b => mret (Some (FFMPEGError.__init__ c b))
        | None => raise (AttributeError "stderr")
        end
      else mret None
  end.

End ffmpegThread.

(** ** The demonstration front end ([if __name__ == "__main__"]) *)

Module main.

Import ffmpegThread.

Inductive exn :=
  | KeyError (key : string)
  | TypeError
  | OverflowError
  | ValueError.

(** [int(x)] of a float: the value cut off towards zero. *)
Definition int_of_float (x : float) : exn + Z :=
  match x with
  | S754_zero _ => inr 0
  | S754_infinity _ => inl OverflowError
  | S754_nan => inl ValueError
  | S754_finite s m e =>
      let a := if 0 <=? e then Z.pos m * 2 ^ e else Z.pos m / 2 ^ (- e) in
      inr (if s then - a else a)
  end.

(** [amount * 100.0]; a [str] cannot be multiplied by a float. *)
Definition times_100 (amount : value) : exn + float :=
  match amount with
  | VFloat x => inr (fmul x (of_Z 100))
  | VStr _ => inl TypeError
  end.

(** ["              \r%i" % n] *)
Definition percent_text (n : Z) : string :=
  "              " ++ String "013" (NilZero.string_of_int (Z.to_int n)).

(** [v == "end"] *)
Definition is_end (v : value) : bool :=
  match v with
  | VStr s => String.eqb s "end"
  | VFloat _ => false
  end.

(** The items that [queue_info], given to the thread as [info_f], puts
    into the queue: the arguments of the [info_f] calls, in order. *)
Definition queued (calls : list event) : list (gmap string value) :=
  flat_map (fun e => match e with Info info => [info] | Progress _ => [] end)
    calls.

(** How [print_info] ends: it returns, it raises, or it waits in
    [q.get()] for an item that never comes. *)
Inductive status :=
  | Returned
  | Raised (e : exn)
  | Blocked.

(** [print_info] on the items the queue delivers: the texts printed
    and how the function ends. *)
Fixpoint print_info (q : list (gmap string value)) : list string * status :=
  match q with
  | [] => ([], Blocked)
  | info :: q =>
      match info !! "done" with
      | None => ([], Raised (KeyError "done"))
      | Some amount =>
          match info !! "progress" with
          | None => ([], Raised (KeyError "progress"))
          | Some v =>
              if is_end v then ([], Returned)
              else
                match times_100 amount with
                | inl e => ([], Raised e)
                | inr y =>
                    match int_of_float y with
                    | inl e => ([], Raised e)
                    | inr n =>
                        let '(out, st) := print_info q in
                        (percent_text n :: out, st)
                    end
                end
          end
      end
  end.

End main.

(** * Vocabulary of the statements *)

Import PyFloat Py subprocess ffmpegThread.

(** The magnitude [e + digits m] of a positive mantissa [m] at exponent
    [e]. *)
Definition mag (m e : Z) : Z := e + Z.log2 m + 1.

(** Every character of [s] satisfies [p]. *)
Fixpoint all (p : ascii -> bool) (s : string) : bool :=
  match s with
  | EmptyString => true
  | String c r => p c && all p r
  end.

(** [s] begins with a character satisfying [p]. *)
Definition starts (p : ascii -> bool) (s : string) : bool :=
  match s with
  | String c _ => p c
  | EmptyString => false
  end.

(** The number written by the decimal digits [s], on top of [acc]. *)
Fixpoint decimal (acc : N) (s : string) : N :=
  match s with
  | EmptyString => acc
  | String c r => decimal (10 * acc + digit_val c)%N r
  end.

(** [c] is not the character [sep]. *)
Definition is_not (sep : ascii) (c : ascii) : bool := negb (Ascii.eqb c sep).

(** A plain decimal integer literal: an optional sign and at least one
    digit; its value. *)
Definition int_literal (s : string) : option Z :=
  let '(neg, ds) := sign s in
  match ds with
  | EmptyString => None
  | String _ _ =>
      if all is_digit ds
      then Some (if neg then - Z.of_N (decimal 0 ds) else Z.of_N (decimal 0 ds))
      else None
  end.

(** The seconds written by the fields of [H:MM:SS.cc], as the
    specification words it: [hours*3600 + minutes*60 + seconds +
    fractional], in float arithmetic. *)
Definition spec_duration_seconds (hours minutes seconds : N) (fractional : float)
  : float :=
  fadd (fadd (fadd (fmul (of_Z (Z.of_N hours)) (of_Z 3600))
                   (fmul (of_Z (Z.of_N minutes)) (of_Z 60)))
             (of_Z (Z.of_N seconds)))
       fractional.

(** The number of hundredths nearest to a float that is not negative,
    halves upwards: [floor (100 * x + 1/2)], computed exactly on the
    mantissa and the exponent. *)
Definition hundredths (x : float) : option Z :=
  match x with
  | S754_zero _ => Some 0
  | S754_finite false m e =>
      Some (if 0 <=? e then 100 * Zpos m * 2 ^ e
            else (200 * Zpos m + 2 ^ (- e)) / 2 ^ (1 - e))
  | _ => None
  end.

(** The float of the fraction [0.cc] with [cc] the two digits of [c]:
    zero for [c = 0], and otherwise [mp * 2^ep] with [ep] between -64
    and -53 and within [2^ep] of [c / 100]. *)
Definition fraction_ok (c : N) : bool :=
  match of_decimal false c (-2) with
  | S754_zero false => (c =? 0)%N
  | S754_finite false mp ep =>
      (0 <? c)%N && (ep <=? -53) && (-64 <=? ep)
      && (Z.abs (100 * Z.pos mp - Z.of_N c * 2 ^ (- ep)) <=? 100)
  | _ => false
  end.

(** [r] is what is left of [s] after reading a prefix. *)
Definition suffix_of (r s : string) : Prop := exists c, s = c ++ r.

(** A diagnostic stream without a marker: at end of file, or a line
    on which the pattern does not match followed by such a stream. *)
Inductive no_marker : string -> Prop :=
  | no_marker_eof : no_marker ""
  | no_marker_line (s line rest : string) :
      readline s = (line, rest) ->
      duration_re_search (decode_ascii_ignore line) = None ->
      no_marker rest ->
      no_marker s.

(** [self'] is a later state of [self] within one run: the callbacks,
    the recorded exit status and the recorded diagnostic buffer are the
    same, calls have only been added, a resolved duration stays, and the
    handle has only been read from. *)
Record evolves (self self' : t) : Prop := {
  ev_progress_f : progress_f self' = progress_f self;
  ev_info_f : info_f self' = info_f self;
  ev_exitcode : exitcode self' = exitcode self;
  ev_stderr : stderr self' = stderr self;
  ev_calls : exists new, calls self' = (calls self ++ new)%list;
  ev_duration : forall d,
    _input_duration self = Some d -> _input_duration self' = Some d;
  ev_handle : forall p,
    ffmpeg self = Some (Some p) ->
    exists p', ffmpeg self' = Some (Some p') /\
      returncode p' = returncode p /\
      suffix_of (stdout p') (stdout p) /\
      suffix_of (subprocess.stderr p') (subprocess.stderr p)
}.

(** As long as no duration is resolved, the diagnostic pipe is unread. *)
Definition unread (self self' : t) : Prop :=
  _input_duration self' = None ->
  forall p p', ffmpeg self = Some (Some p) -> ffmpeg self' = Some (Some p') ->
    subprocess.stderr p' = subprocess.stderr p.

(** The progress pipe of a live handle is where it was. *)
Definition same_stdout (self self' : t) : Prop :=
  forall p, ffmpeg self = Some (Some p) ->
    exists p', ffmpeg self' = Some (Some p') /\ stdout p' = stdout p.

(** [isinstance(e, KeyError)] *)
Definition is_KeyError (e : exn) : bool :=
  match e with KeyError _ => true | _ => false end.

(** *** Sample runs *)

(** The line feed. *)
Definition LF : string := String "010" "".

(** Diagnostic output of an ffmpeg that announces a ten-second input and
    then fails. *)
Definition sample_stderr : string :=
  "Input #0, mov, from 'in.mp4':" ++ LF ++
  "  Duration: 00:00:10.00, start: 0.000000, bitrate: 128 kb/s" ++ LF ++
  "fatal error" ++ LF.

(** A subprocess with that diagnostic output, the progress output [out]
    and the answer [status] to [poll]. *)
Definition sample_handle (out : string) (status : option Z) : Popen :=
  {| stdout := out; subprocess.stderr := sample_stderr; returncode := status |}.

(** A thread with both callbacks, right after [run] has spawned [p]. *)
Definition started (p : Popen) : t :=
  set_ffmpeg (Some (Some p)) (__init__ true true).

(** The dictionary of a completed block with these two fields. *)
Definition block (out_time_ms progress : string) : gmap string value :=
  <["progress" := VStr progress]> (<["out_time_ms" := VStr out_time_ms]> ∅).

(** A byte that [decode("ascii", "ignore")] keeps. *)
Definition is_ascii (c : ascii) : bool := (code c <? 128)%N.

(** A subprocess reading an input without a known duration: ffmpeg
    prints [N/A] where the pattern wants digits. *)
Definition live_input_handle : Popen :=
  {| stdout := "out_time_ms=500000" ++ LF ++ "progress=continue" ++ LF;
     subprocess.stderr :=
       "  Duration: N/A, start: 0.000000, bitrate: N/A" ++ LF;
     returncode := None |}.

(** The lines [readline] will return, one after the other. *)
Fixpoint lines (s : string) : list string :=
  match s with
  | EmptyString => []
  | String c r =>
      if Ascii.eqb c "010" then String c EmptyString :: lines r
      else match lines r with
           | [] => [String c EmptyString]
           | l :: ls => String c l :: ls
           end
  end.

(** The lines put together again. *)
Fixpoint join (ls : list string) : string :=
  match ls with
  | [] => EmptyString
  | l :: r => l ++ join r
  end.

(** What a stream, given by its lines, holds behind the first line on
    which the duration pattern matches; [None] when no line matches. *)
Fixpoint after_first_marker (ls : list string) : option string :=
  match ls with
  | [] => None
  | line :: rest =>
      match duration_re_search (decode_ascii_ignore line) with
      | Some _ => Some (join rest)
      | None => after_first_marker rest
      end
  end.

(** What the diagnostic pipe of [proc] still holds for a reader whose
    cached duration is [dur]: all of the stream while none is cached,
    and what follows the first line matching the pattern once one is. *)
Definition diagnostic_left (proc : Popen) (dur : option float) (s : string)
  : Prop :=
  match dur with
  | None => s = subprocess.stderr proc
  | Some _ => after_first_marker (lines (subprocess.stderr proc)) = Some s
  end.

(** The thread holds a live handle whose diagnostic pipe stands there. *)
Definition diagnostic_at (proc : Popen) (self : t) : Prop :=
  exists p, ffmpeg self = Some (Some p) /\
    diagnostic_left proc (_input_duration self) (subprocess.stderr p).

(** Every block that the decoder completes on these lines holds the key
    [out_time_ms] when its [progress] line arrives; [has] tells whether
    the block under construction holds it already. The scan ends where
    the decoder ends: at a blank line or at a line without [=]. *)
Fixpoint carries (has : bool) (ls : list string) : bool :=
  match ls with
  | [] => true
  | line :: rest =>
      match strip line with
      | EmptyString => true
      | String _ _ as l =>
          match split1 "=" (decode_ascii_ignore l) with
          | [key; _] =>
              if String.eqb key "progress" then has && carries false rest
              else carries (has || String.eqb key "out_time_ms") rest
          | _ => true
          end
      end
  end.

(** The precondition on the progress output [out] of a subprocess. *)
Definition every_block_carries_out_time_ms (out : string) : bool :=
  carries false (lines out).

(** ["out_time_ms" in info] *)
Definition has_out_time_ms (info : gmap string value) : bool :=
  match info !! "out_time_ms" with Some _ => true | None => false end.

(** ** Vocabulary of the further properties *)

(** What is left of a diagnostic stream after [n] lines on which the
    duration pattern does not match; [None] when one of them matches. *)
Fixpoint skip_lines (n : nat) (s : string) : option string :=
  match n with
  | O => Some s
  | S n =>
      let '(line, rest) := readline s in
      match duration_re_search (decode_ascii_ignore line) with
      | None => skip_lines n rest
      | Some _ => None
      end
  end.

(** How often [c] occurs in [s]. *)
Fixpoint count_char (c : ascii) (s : string) : nat :=
  match s with
  | EmptyString => O
  | String x r => (if Ascii.eqb x c then 1 else 0) + count_char c r
  end.

(** Some line of the stream matches the duration pattern. *)
Definition has_marker (s : string) : bool :=
  existsb (fun line =>
             match duration_re_search (decode_ascii_ignore line) with
             | Some _ => true
             | None => false
             end) (lines s).

(** The calls made for one block: [progress_f] with the ratio, then
    [info_f] with the dictionary, each when supplied. *)
Definition block_events (pf inf : bool) (done : float)
    (info : gmap string value) : list event :=
  ((if pf then [Progress done] else [])
   ++ (if inf then [Info info] else []))%list.

(** A call log made of such groups, one per block, the dictionary of
    each holding the ratio as a float under ["done"] beside the keys
    ["progress"] and ["out_time_ms"]. *)
Inductive block_calls (pf inf : bool) : list event -> Prop :=
  | block_calls_nil : block_calls pf inf []
  | block_calls_snoc (l : list event) (done : float)
      (info : gmap string value) :
      block_calls pf inf l ->
      info !! "done" = Some (VFloat done) ->
      is_Some (info !! "progress") ->
      is_Some (info !! "out_time_ms") ->
      block_calls pf inf (l ++ block_events pf inf done info).

(** The dictionaries of the blocks that the drain loop completes on
    these lines, in stream order, [info] being the dictionary under
    construction. The scan ends where the loop ends: at a blank line or
    at a line without [=]. *)
Fixpoint decode_blocks (info : gmap string value) (ls : list string)
  : list (gmap string value) :=
  match ls with
  | [] => []
  | line :: rest =>
      match strip line with
      | EmptyString => []
      | String _ _ as l =>
          match split1 "=" (decode_ascii_ignore l) with
          | [key; val] =>
              let info1 := <[key := VStr val]> info in
              if String.eqb key "progress" then info1 :: decode_blocks ∅ rest
              else decode_blocks info1 rest
          | _ => []
          end
      end
  end.

(** The calls due for one completed block when the input duration is
    [dur]: the group with the ratio when [out_time_ms] is a number above
    zero, and nothing otherwise. *)
Definition block_group (pf inf : bool) (dur : option float)
    (info : gmap string value) : list event :=
  match info !! "out_time_ms" with
  | Some v =>
      match float_of v with
      | Some x =>
          if fltb zero x then
            match dur with
            | Some d =>
                let done := fdiv (fdiv x (of_Z 1000000)) d in
                block_events pf inf done (<["done" := VFloat done]> info)
            | None => []
            end
          else []
      | None => []
      end
  | None => []
  end.

(** One line of the progress channel: [key=value] and a line feed. *)
Definition wire_line (key val : string) : string :=
  key ++ "=" ++ val ++ LF.

(** The lines of a list of fields. *)
Fixpoint wire_fields (kvs : list (string * string)) : string :=
  match kvs with
  | [] => EmptyString
  | (k, v) :: r => wire_line k v ++ wire_fields r
  end.

(** A field that the wire format can carry: ASCII text without line
    feed and without white space at either end, the key without [=]. *)
Definition wire_ok (key val : string) : bool :=
  all is_ascii (key ++ "=" ++ val)
  && all (is_not "010") (key ++ "=" ++ val)
  && all (is_not "=") key
  && String.eqb (strip (key ++ "=" ++ val)) (key ++ "=" ++ val).

(** Fields of that kind, none of them the terminator. *)
Definition fields_ok (kvs : list (string * string)) : bool :=
  forallb (fun kv => wire_ok kv.1 kv.2 && negb (String.eqb kv.1 "progress"))
    kvs.

(** [info[k] = v] for each field in turn. *)
Definition store_fields (info : gmap string value)
    (kvs : list (string * string)) : gmap string value :=
  fold_left (fun m kv => <[kv.1 := VStr kv.2]> m) kvs info.

(** A float that is [+0.0], positive and finite, or [+inf]: a number
    that is not negative. *)
Definition nonneg (x : float) : bool :=
  match x with
  | S754_zero false | S754_finite false _ _ | S754_infinity false => true
  | _ => false
  end.

(** The ratio of a call is not below zero: [done < 0] is false for the
    argument of [progress_f] and for the float under ["done"]. *)
Definition ratio_not_negative (e : event) : Prop :=
  match e with
  | Progress done => fltb done zero = false
  | Info info =>
      forall done, info !! "done" = Some (VFloat done) ->
                   fltb done zero = false
  end.

(** The cached duration is a number that is not negative, and so far no
    call had a negative ratio. *)
Definition sign_invariant (self : t) : Prop :=
  (forall d, _input_duration self = Some d -> nonneg d = true) /\
  Forall ratio_not_negative (calls self).

(** A dictionary as [print_info] needs it: a float under ["done"] and
    some value under ["progress"]. *)
Definition printable (info : gmap string value) : Prop :=
  (exists done, info !! "done" = Some (VFloat done)) /\
  is_Some (info !! "progress").

(** [print_info] did not fail on a missing key or on a ratio that is
    not a float. *)
Definition no_lookup_failure (st : main.status) : Prop :=
  match st with
  | main.Raised (main.KeyError _) | main.Raised main.TypeError => False
  | _ => True
  end.

(** * Properties *)

(** ** Facts on float conversion *)

Module PyFloatFacts.

Lemma digits2_pos_log2 (p : positive) :
  Zpos (digits2_pos p) = Z.log2 (Zpos p) + 1.
Proof.
  assert (forall q, digits2_pos q = Pos.size q) as Hsize.
  { induction q as [q IH|q IH|]; simpl; congruence. }
  rewrite Hsize. destruct p; simpl; lia.
Qed.

Lemma shr_1_m (mrs : shr_record) :
  0 <= shr_m mrs -> shr_m (shr_1 mrs) = Z.div2 (shr_m mrs).
Proof.
  destruct mrs as [m r s]. simpl.
  destruct m as [|[p|p|]|p]; simpl; try reflexivity. lia.
Qed.

Lemma iter_shr_1_m (n : positive) (mrs : shr_record) :
  0 <= shr_m mrs ->
  shr_m (SpecFloat.iter_pos shr_1 n mrs) = Z.shiftr (shr_m mrs) (Zpos n).
Proof.
  revert mrs. induction n as [n IH|n IH|]; intros mrs Hm; simpl SpecFloat.iter_pos.
  - assert (0 <= shr_m (shr_1 mrs)) as H1.
    { rewrite shr_1_m by assumption. apply Z.div2_nonneg. assumption. }
    assert (0 <= shr_m (SpecFloat.iter_pos shr_1 n (shr_1 mrs))) as H2.
    { rewrite IH by assumption. apply Z.shiftr_nonneg. assumption. }
    rewrite IH, IH, shr_1_m by assumption.
    rewrite Z.div2_spec, !Z.shiftr_shiftr by lia.
    f_equal. lia.
  - assert (0 <= shr_m (SpecFloat.iter_pos shr_1 n mrs)) as H2.
    { rewrite IH by assumption. apply Z.shiftr_nonneg. assumption. }
    rewrite IH, IH by assumption.
    rewrite Z.shiftr_shiftr by lia. f_equal. lia.
  - rewrite shr_1_m by assumption. apply Z.div2_spec.
Qed.

Lemma shr_fexp_pos (m e : Z) (l : location) :
  0 < m -> emin prec emax < mag m e ->
  let '(mrs, e') := shr_fexp prec emax m e l in
  0 < shr_m mrs /\ mag m e <= mag (shr_m mrs) e'.
Proof.
  intros Hm Htop. unfold shr_fexp, shr.
  assert (shr_m (shr_record_of_loc m l) = m) as Hrec.
  { destruct l as [|[]]; reflexivity. }
  assert (Zdigits2 m = Z.log2 m + 1) as Hd.
  { destruct m as [|p|p]; try lia. apply digits2_pos_log2. }
  rewrite Hd.
  destruct (fexp prec emax (Z.log2 m + 1 + e) - e) as [|n|n] eqn:Hn;
    rewrite ?Hrec; try (split; [assumption|lia]).
  rewrite iter_shr_1_m by (rewrite Hrec; lia). rewrite Hrec.
  unfold fexp, emin, mag, prec, emax in *.
  assert (Z.pos n <= Z.log2 m) as Hle by lia.
  assert (0 < Z.shiftr m (Z.pos n)) as Hpos.
  { destruct (Z.shiftr_eq_0_iff m (Z.pos n)) as [H1 _].
    pose proof (Z.shiftr_nonneg m (Z.pos n)) as [_ H2].
    assert (Z.shiftr m (Z.pos n) <> 0) by (intros H0; apply H1 in H0; lia).
    specialize (H2 ltac:(lia)). lia. }
  split; [assumption|].
  rewrite Z.log2_shiftr by assumption. lia.
Qed.

Lemma round_nearest_even_pos (m : Z) (l : location) :
  0 < m -> m <= round_nearest_even m l.
Proof.
  intros Hm. destruct l as [|[]]; simpl; try lia.
  destruct (Z.even m); lia.
Qed.

(** Rounding a positive mantissa that lies above the underflow range
    gives a positive float. *)
Lemma binary_round_aux_pos (m e : Z) (l : location) :
  0 < m -> emin prec emax < mag m e ->
  fltb zero (binary_round_aux prec emax false m e l) = true.
Proof.
  intros Hm Htop. unfold binary_round_aux.
  pose proof (shr_fexp_pos m e l Hm Htop) as H1.
  destruct (shr_fexp prec emax m e l) as [mrs' e'].
  destruct H1 as [Hm1 Ht1].
  pose proof (round_nearest_even_pos (shr_m mrs') (loc_of_shr_record mrs') Hm1)
    as Hr.
  set (m2 := round_nearest_even (shr_m mrs') (loc_of_shr_record mrs')) in *.
  assert (0 < m2) as Hm2 by lia.
  assert (emin prec emax < mag m2 e') as Ht2.
  { unfold mag in *. pose proof (Z.log2_le_mono _ _ Hr). lia. }
  pose proof (shr_fexp_pos m2 e' loc_Exact Hm2 Ht2) as H2.
  destruct (shr_fexp prec emax m2 e' loc_Exact) as [mrs'' e''].
  destruct H2 as [Hm3 _].
  destruct (shr_m mrs'') as [|q|q]; try lia.
  destruct (e'' <=? emax - prec); reflexivity.
Qed.

Lemma binary_round_pos (p : positive) :
  fltb zero (binary_round prec emax false p 0) = true.
Proof.
  unfold binary_round.
  destruct (shl_align p 0 (fexp prec emax (Z.pos (digits2_pos p) + 0)))
    as [mz ez] eqn:Hs.
  apply binary_round_aux_pos; [lia|].
  unfold shl_align in Hs. rewrite digits2_pos_log2 in Hs.
  pose proof (Z.log2_nonneg (Z.pos p)) as Hp.
  pose proof (Z.log2_nonneg (Z.pos mz)) as Hz.
  unfold fexp, emin, mag, prec, emax in *.
  destruct (Z.max (Z.log2 (Z.pos p) + 1 + 0 - 53) (3 - 1024 - 53) - 0)
    eqn:Hk; injection Hs as <- <-; lia.
Qed.

Lemma binary_round_neg (p : positive) (e : Z) :
  fltb zero (binary_round prec emax true p e) = false.
Proof.
  unfold binary_round.
  destruct (shl_align p e _) as [mz ez].
  unfold binary_round_aux.
  destruct (shr_fexp prec emax (Z.pos mz) ez loc_Exact) as [mrs' e'].
  destruct (shr_fexp prec emax _ e' loc_Exact) as [mrs'' e''].
  destruct (shr_m mrs'') as [|q|q]; try reflexivity.
  destruct (e'' <=? emax - prec); reflexivity.
Qed.

Lemma N_ltb_of_N (m : N) : (0 <? m)%N = (0 <? Z.of_N m).
Proof. by destruct m. Qed.

(** The float of an integer is positive exactly when the integer is. *)
Lemma of_decimal_positive (neg : bool) (m : N) :
  fltb zero (of_decimal neg m 0) = negb neg && (0 <? m)%N.
Proof.
  destruct m as [|p]; simpl.
  - by destruct neg.
  - destruct neg; simpl.
    + apply binary_round_neg.
    + rewrite Pos.mul_1_r. apply binary_round_pos.
Qed.

(** *** Exact operations on integers below 2^53 *)

Lemma shr_1_even (k : Z) :
  0 <= k ->
  shr_1 {| shr_m := k * 2; shr_r := false; shr_s := false |}
  = {| shr_m := k; shr_r := false; shr_s := false |}.
Proof.
  intros Hk. destruct k as [|p|p]; [reflexivity| |lia].
  replace (Z.pos p * 2) with (Z.pos p~0) by lia. reflexivity.
Qed.

Lemma iter_shr_1_exact (n : positive) (k : Z) :
  0 <= k ->
  SpecFloat.iter_pos shr_1 n
    {| shr_m := k * 2 ^ Zpos n; shr_r := false; shr_s := false |}
  = {| shr_m := k; shr_r := false; shr_s := false |}.
Proof.
  revert k. induction n as [n IH|n IH|]; intros k Hk.
  - assert (k * 2 ^ Z.pos n~1 = k * 2 ^ Z.pos n * 2 ^ Z.pos n * 2) as ->.
    { replace (Z.pos n~1) with (Z.pos n + Z.pos n + 1) by lia.
      rewrite !Z.pow_add_r by lia. rewrite Z.pow_1_r. ring. }
    change (SpecFloat.iter_pos shr_1 n~1 ?x)
      with (SpecFloat.iter_pos shr_1 n (SpecFloat.iter_pos shr_1 n (shr_1 x))).
    rewrite shr_1_even by lia. rewrite IH by lia. by apply IH.
  - assert (k * 2 ^ Z.pos n~0 = k * 2 ^ Z.pos n * 2 ^ Z.pos n) as ->.
    { replace (Z.pos n~0) with (Z.pos n + Z.pos n) by lia.
      rewrite !Z.pow_add_r by lia. ring. }
    change (SpecFloat.iter_pos shr_1 n~0 ?x)
      with (SpecFloat.iter_pos shr_1 n (SpecFloat.iter_pos shr_1 n x)).
    rewrite IH by lia. by apply IH.
  - by apply shr_1_even.
Qed.

Lemma Zdigits2_log2 (m : Z) : 0 < m -> Zdigits2 m = Z.log2 m + 1.
Proof. destruct m as [|p|p]; try lia. intros _. apply digits2_pos_log2. Qed.

Lemma log2_below (v : Z) (b : Z) :
  0 < v -> v < 2 ^ b -> 0 <= Z.log2 v < b.
Proof.
  intros Hv Hb. split; [apply Z.log2_nonneg|]. by apply Z.log2_lt_pow2.
Qed.

(** Shifting the integer [v], written with [j] zero bits below it, to a
    mantissa of 53 bits loses nothing. *)
Lemma shr_fexp_exact (v j : Z) :
  0 < v -> v < 2 ^ 53 -> 52 - Z.log2 v <= j ->
  shr_fexp prec emax (v * 2 ^ j) (- j) loc_Exact
  = ({| shr_m := v * 2 ^ (52 - Z.log2 v); shr_r := false; shr_s := false |},
     Z.log2 v - 52).
Proof.
  intros Hv Hb Hj. pose proof (log2_below v 53 Hv Hb) as Hl.
  assert (0 < 2 ^ j) as Hpow by (apply Z.pow_pos_nonneg; lia).
  unfold shr_fexp. rewrite Zdigits2_log2 by lia.
  rewrite Z.log2_mul_pow2 by lia.
  replace (fexp prec emax (j + Z.log2 v + 1 + - j) - - j)
    with (Z.log2 v - 52 + j) by (unfold fexp, emin, prec, emax; lia).
  change (shr_record_of_loc (v * 2 ^ j) loc_Exact)
    with {| shr_m := v * 2 ^ j; shr_r := false; shr_s := false |}.
  unfold shr. destruct (Z.log2 v - 52 + j) as [|p|p] eqn:Hn; [| |lia].
  - replace j with (52 - Z.log2 v) by lia. f_equal. lia.
  - replace (v * 2 ^ j) with (v * 2 ^ (52 - Z.log2 v) * 2 ^ Z.pos p).
    + rewrite iter_shr_1_exact by (apply Z.mul_nonneg_nonneg; lia).
      f_equal. lia.
    + rewrite <- Z.mul_assoc, <- Z.pow_add_r by lia. f_equal. f_equal. lia.
Qed.

(** Rounding such an integer gives the float that is this integer. *)
Lemma binary_round_aux_exact (v j : Z) :
  0 < v -> v < 2 ^ 53 -> 52 - Z.log2 v <= j ->
  binary_round_aux prec emax false (v * 2 ^ j) (- j) loc_Exact
  = S754_finite false (Z.to_pos (v * 2 ^ (52 - Z.log2 v))) (Z.log2 v - 52).
Proof.
  intros Hv Hb Hj. pose proof (log2_below v 53 Hv Hb) as Hl.
  unfold binary_round_aux. rewrite shr_fexp_exact by done.
  cbn [shr_m loc_of_shr_record round_nearest_even].
  replace (Z.log2 v - 52) with (- (52 - Z.log2 v)) at 1 by lia.
  rewrite shr_fexp_exact by (done || lia). cbn [shr_m].
  assert (0 < v * 2 ^ (52 - Z.log2 v)) as Hpos.
  { apply Z.mul_pos_pos; [done|]. apply Z.pow_pos_nonneg; lia. }
  destruct (v * 2 ^ (52 - Z.log2 v)) as [|m|m]; try lia.
  replace (Z.log2 v - 52 <=? emax - prec) with true; [done|].
  symmetry. apply Z.leb_le. unfold emax, prec. lia.
Qed.

Lemma pos_iter_xO (m d : positive) :
  Z.pos (Pos.iter xO m d) = Z.pos m * 2 ^ Z.pos d.
Proof.
  induction d as [|d IH] using Pos.peano_ind.
  - simpl. lia.
  - rewrite Pos.iter_succ, Pos2Z.inj_succ, Z.pow_succ_r by lia.
    rewrite Pos2Z.inj_xO, IH. ring.
Qed.

Lemma shl_align_down (m : positive) (e e' : Z) :
  e' <= e ->
  shl_align m e e' = (Z.to_pos (Z.pos m * 2 ^ (e - e')), e').
Proof.
  intros He. unfold shl_align.
  destruct (e' - e) as [|d|d] eqn:Hd; [|lia|].
  - replace (e - e') with 0 by lia. replace e' with e by lia.
    f_equal. rewrite Z.pow_0_r, Z.mul_1_r. done.
  - f_equal. replace (e - e') with (Z.pos d) by lia.
    by rewrite <- pos_iter_xO.
Qed.

Lemma of_Z_exact (v : Z) :
  0 < v -> v < 2 ^ 53 ->
  of_Z v = S754_finite false (Z.to_pos (v * 2 ^ (52 - Z.log2 v)))
             (Z.log2 v - 52).
Proof.
  intros Hv Hb. pose proof (log2_below v 53 Hv Hb) as Hl.
  rewrite <- (binary_round_aux_exact v (52 - Z.log2 v)) by lia.
  destruct v as [|p|p]; try lia.
  unfold of_Z, binary_normalize, binary_round.
  rewrite digits2_pos_log2.
  replace (fexp prec emax (Z.log2 (Z.pos p) + 1 + 0))
    with (Z.log2 (Z.pos p) - 52) by (unfold fexp, emin, prec, emax; lia).
  rewrite shl_align_down by lia.
  rewrite Z2Pos.id by (apply Z.mul_pos_pos; [done|apply Z.pow_pos_nonneg; lia]).
  f_equal; [f_equal; f_equal|]; lia.
Qed.

(** Products and sums of integers are exact as long as they stay below
    2^53. *)
Lemma fmul_of_Z (a b : Z) :
  0 <= a -> 0 < b -> b < 2 ^ 53 -> a * b < 2 ^ 53 ->
  fmul (of_Z a) (of_Z b) = of_Z (a * b).
Proof.
  intros Ha Hb Hb53 Hab.
  rewrite (of_Z_exact b) by done.
  destruct (Z.eq_dec a 0) as [->|Ha0]; [done|].
  assert (a < 2 ^ 53) as Ha53 by nia.
  pose proof (log2_below a 53 ltac:(lia) Ha53) as Hla.
  pose proof (log2_below b 53 Hb Hb53) as Hlb.
  pose proof (Z.log2_mul_below a b ltac:(lia) Hb) as Hlab.
  rewrite (of_Z_exact a), (of_Z_exact (a * b)) by nia.
  unfold fmul, SFmul. cbn [xorb].
  rewrite <- (binary_round_aux_exact (a * b)
                ((52 - Z.log2 a) + (52 - Z.log2 b))) by nia.
  f_equal; [|lia].
  rewrite Pos2Z.inj_mul, !Z2Pos.id
    by (apply Z.mul_pos_pos; [lia|apply Z.pow_pos_nonneg; lia]).
  rewrite Z.pow_add_r by lia. ring.
Qed.

Lemma fadd_of_Z (a b : Z) :
  0 <= a -> 0 <= b -> a + b < 2 ^ 53 ->
  fadd (of_Z a) (of_Z b) = of_Z (a + b).
Proof.
  intros Ha Hb Hab.
  destruct (Z.eq_dec a 0) as [->|Ha0].
  { destruct (Z.eq_dec b 0) as [->|Hb0]; [done|].
    rewrite Z.add_0_l, (of_Z_exact b) by lia. done. }
  destruct (Z.eq_dec b 0) as [->|Hb0].
  { rewrite Z.add_0_r, (of_Z_exact a) by lia. done. }
  pose proof (log2_below a 53 ltac:(lia) ltac:(lia)) as Hla.
  pose proof (log2_below b 53 ltac:(lia) ltac:(lia)) as Hlb.
  pose proof (log2_below (a + b) 53 ltac:(lia) ltac:(lia)) as Hlab.
  assert (Z.log2 a <= Z.log2 (a + b)) as Hma by (apply Z.log2_le_mono; lia).
  assert (Z.log2 b <= Z.log2 (a + b)) as Hmb by (apply Z.log2_le_mono; lia).
  rewrite (of_Z_exact a), (of_Z_exact b), (of_Z_exact (a + b)) by lia.
  unfold fadd, SFadd. cbn [cond_Zopp].
  set (ez := IntDef.Z.min (Z.log2 a - 52) (Z.log2 b - 52)).
  assert (ez = Z.min (Z.log2 a - 52) (Z.log2 b - 52)) as Hez by done.
  rewrite !shl_align_down by lia. cbn [fst].
  assert (forall x l, 0 < x -> 0 <= l ->
            0 < x * 2 ^ l) as Hpos.
  { intros x l Hx Hl. apply Z.mul_pos_pos; [done|]. by apply Z.pow_pos_nonneg. }
  rewrite !Z2Pos.id by (apply Hpos; [|lia]; rewrite Z2Pos.id; apply Hpos; lia).
  rewrite !Z2Pos.id by (apply Hpos; lia).
  rewrite <- !Z.mul_assoc, <- !Z.pow_add_r by lia.
  replace (52 - Z.log2 a + (Z.log2 a - 52 - ez)) with (- ez) by lia.
  replace (52 - Z.log2 b + (Z.log2 b - 52 - ez)) with (- ez) by lia.
  rewrite <- Z.mul_add_distr_r.
  assert (0 < (a + b) * 2 ^ (- ez)) as HM by (apply Hpos; lia).
  destruct ((a + b) * 2 ^ (- ez)) as [|M|M] eqn:HMeq; try lia.
  unfold binary_normalize, binary_round.
  rewrite digits2_pos_log2, <- HMeq, Z.log2_mul_pow2 by lia.
  replace (fexp prec emax (- ez + Z.log2 (a + b) + 1 + ez))
    with (Z.log2 (a + b) - 52) by (unfold fexp, emin, prec, emax; lia).
  unfold shl_align.
  destruct (Z.log2 (a + b) - 52 - ez) as [|d|d] eqn:Hd; [| |lia].
  - cbv beta iota. rewrite <- HMeq.
    replace ez with (- - ez) at 2 by lia.
    apply binary_round_aux_exact; lia.
  - cbv beta iota. rewrite <- HMeq.
    replace ez with (- - ez) at 2 by lia.
    apply binary_round_aux_exact; lia.
Qed.

(** *** Rounding in general: within one unit of the last place *)

Lemma round_nearest_even_near (m : Z) (l : location) :
  m <= round_nearest_even m l <= m + 1.
Proof.
  destruct l as [|[]]; simpl; try lia. destruct (Z.even m); lia.
Qed.

Lemma shiftr_bounds (m n : Z) :
  0 <= m -> 0 <= n ->
  Z.shiftr m n * 2 ^ n <= m < (Z.shiftr m n + 1) * 2 ^ n.
Proof.
  intros Hm Hn. rewrite Z.shiftr_div_pow2 by done.
  assert (0 < 2 ^ n) as Hp by (by apply Z.pow_pos_nonneg).
  pose proof (Z.div_mod m (2 ^ n) ltac:(lia)) as Hdiv.
  pose proof (Z.mod_pos_bound m (2 ^ n) Hp) as Hmod.
  nia.
Qed.

Lemma shiftr_pos (m n : Z) :
  0 < m -> 0 <= n -> n <= Z.log2 m -> 0 < Z.shiftr m n.
Proof.
  intros Hm Hn Hle.
  pose proof (Z.shiftr_nonneg m n) as [_ Hnn].
  destruct (Z.shiftr_eq_0_iff m n) as [H0 _].
  assert (Z.shiftr m n <> 0) by (intros H; apply H0 in H; lia).
  specialize (Hnn ltac:(lia)). lia.
Qed.

(** The shift that brings a mantissa down to 53 bits. *)
Lemma shr_fexp_shift (m e : Z) (l : location) :
  0 < m -> emin prec emax <= e ->
  let n := Z.max 0 (Z.log2 m - 52) in
  shr_m (fst (shr_fexp prec emax m e l)) = Z.shiftr m n /\
  snd (shr_fexp prec emax m e l) = e + n.
Proof.
  intros Hm He n. unfold shr_fexp, shr.
  assert (shr_m (shr_record_of_loc m l) = m) as Hrec.
  { destruct l as [|[]]; reflexivity. }
  rewrite Zdigits2_log2 by done.
  pose proof (Z.log2_nonneg m) as Hl.
  destruct (fexp prec emax (Z.log2 m + 1 + e) - e) as [|p|p] eqn:Hn;
    unfold fexp, emin, prec, emax in *; cbn [fst snd].
  - replace n with 0 by lia. rewrite Hrec, Z.shiftr_0_r. lia.
  - replace n with (Z.pos p) by lia.
    rewrite iter_shr_1_m by (rewrite Hrec; lia). rewrite Hrec. lia.
  - replace n with 0 by lia. rewrite Hrec, Z.shiftr_0_r. lia.
Qed.

(** Rounding a positive mantissa at an exponent above the underflow
    range, with no overflow: the result is finite, its exponent at most
    one above that of a 53-bit mantissa, and it is less than one unit of
    its last place away from the mantissa rounded. *)
Lemma binary_round_aux_near (m e : Z) (l : location) :
  0 < m -> emin prec emax <= e ->
  Z.max e (Z.log2 m + e - 52) + 1 <= emax - prec ->
  exists m3 e3,
    binary_round_aux prec emax false m e l = S754_finite false m3 e3 /\
    e <= e3 <= Z.max e (Z.log2 m + e - 52) + 1 /\
    (Z.pos m3 - 1) * 2 ^ (e3 - e) <= m < (Z.pos m3 + 1) * 2 ^ (e3 - e).
Proof.
  intros Hm He Hmax. unfold binary_round_aux.
  pose proof (Z.log2_nonneg m) as Hl.
  destruct (shr_fexp_shift m e l Hm He) as [Hm1 He1].
  destruct (shr_fexp prec emax m e l) as [mrs' e']. cbn [fst snd] in Hm1, He1.
  set (n0 := Z.max 0 (Z.log2 m - 52)) in *.
  set (m1 := shr_m mrs') in *.
  pose proof (shiftr_bounds m n0 ltac:(lia) ltac:(lia)) as Hb1.
  pose proof (shiftr_pos m n0 Hm ltac:(lia) ltac:(lia)) as Hp1.
  pose proof (Z.log2_shiftr m n0 Hm) as Hl1.
  rewrite <- Hm1 in Hb1, Hp1, Hl1.
  pose proof (round_nearest_even_near m1 (loc_of_shr_record mrs')) as Hr.
  set (m2 := round_nearest_even m1 (loc_of_shr_record mrs')) in *.
  assert (Z.log2 m2 <= 53) as Hl2.
  { pose proof (Z.log2_le_mono m2 (Z.succ m1) ltac:(lia)).
    pose proof (Z.log2_succ_le m1). lia. }
  assert (Z.log2 m1 <= Z.log2 m2) as Hl12 by (apply Z.log2_le_mono; lia).
  assert (emin prec emax <= e') as He' by lia.
  destruct (shr_fexp_shift m2 e' loc_Exact ltac:(lia) He') as [Hm3 He3].
  destruct (shr_fexp prec emax m2 e' loc_Exact) as [mrs'' e''].
  cbn [fst snd] in Hm3, He3.
  set (n1 := Z.max 0 (Z.log2 m2 - 52)) in *.
  pose proof (shiftr_bounds m2 n1 ltac:(lia) ltac:(lia)) as Hb3.
  pose proof (shiftr_pos m2 n1 ltac:(lia) ltac:(lia) ltac:(lia)) as Hp3.
  rewrite <- Hm3 in Hb3, Hp3.
  destruct (shr_m mrs'') as [|m3|m3]; try lia.
  assert (e'' <= emax - prec) as Hfit by lia.
  apply Z.leb_le in Hfit. rewrite Hfit.
  exists m3, e''. split; [done|]. split; [lia|].
  replace (e'' - e) with (n0 + n1) by lia.
  rewrite Z.pow_add_r by lia.
  assert (0 < 2 ^ n0) as Hq0 by (apply Z.pow_pos_nonneg; lia).
  assert (0 < 2 ^ n1) as Hq1 by (apply Z.pow_pos_nonneg; lia).
  nia.
Qed.

(** *** The hundredths of a sum of seconds and a two-digit fraction *)

Lemma fraction_checked (c : N) : (c < 100)%N -> fraction_ok c = true.
Proof.
  intros Hc.
  assert (forallb fraction_ok (map N.of_nat (seq 0 100)) = true) as Hall
    by (vm_compute; reflexivity).
  rewrite forallb_forall in Hall. apply Hall.
  rewrite <- (N2Nat.id c). apply in_map, in_seq. lia.
Qed.

Lemma hundredths_arith (m3 Q R n c mp : Z) :
  0 < Q -> 512 <= R -> 0 <= n -> 0 <= c ->
  (m3 - 1) * Q <= n * (Q * R) + mp < (m3 + 1) * Q ->
  Z.abs (100 * mp - c * (Q * R)) <= 100 ->
  (200 * m3 + R) / (2 * R) = 100 * n + c.
Proof.
  intros HQ HR Hn Hc HM Hmp.
  symmetry. apply Z.div_unique with (r := 200 * m3 + R - 2 * R * (100 * n + c));
    [|lia].
  left. split.
  - assert (0 <= (200 * m3 + R - 2 * R * (100 * n + c)) * Q); [|nia]. nia.
  - assert ((200 * m3 + R - 2 * R * (100 * n + c)) * Q < 2 * R * Q); [|nia].
    nia.
Qed.

Lemma hundredths_of_Z (n : Z) :
  0 <= n -> n < 2 ^ 52 -> hundredths (of_Z n) = Some (100 * n).
Proof.
  intros Hn Hb. destruct (Z.eq_dec n 0) as [->|Hn0]; [done|].
  pose proof (log2_below n 52 ltac:(lia) Hb) as Hl.
  rewrite of_Z_exact by lia. cbn [hundredths].
  assert (0 < 2 ^ (52 - Z.log2 n)) as Hp by (apply Z.pow_pos_nonneg; lia).
  rewrite Z2Pos.id by nia.
  replace (0 <=? Z.log2 n - 52) with false by (symmetry; apply Z.leb_gt; lia).
  f_equal.
  replace (- (Z.log2 n - 52)) with (52 - Z.log2 n) by lia.
  replace (1 - (Z.log2 n - 52)) with (1 + (52 - Z.log2 n)) by lia.
  rewrite Z.pow_add_r, Z.pow_1_r by lia.
  replace (200 * (n * 2 ^ (52 - Z.log2 n)) + 2 ^ (52 - Z.log2 n))
    with ((200 * n + 1) * 2 ^ (52 - Z.log2 n)) by ring.
  rewrite Z.div_mul_cancel_r by lia.
  symmetry. apply Z.div_unique with (r := 1); lia.
Qed.

(** Adding a two-digit fraction to a number of seconds below 2^40 keeps
    the hundredths. *)
Lemma hundredths_sum (n : Z) (c : N) :
  0 <= n -> n < 2 ^ 40 - 1 -> (c < 100)%N ->
  hundredths (fadd (of_Z n) (of_decimal false c (-2)))
  = Some (100 * n + Z.of_N c).
Proof.
  intros Hn Hb Hc. pose proof (fraction_checked c Hc) as Hok.
  unfold fraction_ok in Hok.
  destruct (of_decimal false c (-2)) as [[]| | |[] mp ep] eqn:Hpart; try done.
  { apply N.eqb_eq in Hok. subst c.
    replace (fadd (of_Z n) (S754_zero false)) with (of_Z n).
    - rewrite hundredths_of_Z by lia. f_equal. lia.
    - destruct (Z.eq_dec n 0) as [->|Hn0]; [done|].
      by rewrite of_Z_exact by lia. }
  apply andb_true_iff in Hok as [Hok Herr].
  apply andb_true_iff in Hok as [Hok Hlow].
  apply andb_true_iff in Hok as [Hpos Hup].
  apply Z.leb_le in Herr, Hlow, Hup. apply N.ltb_lt in Hpos.
  set (P := 2 ^ (- ep)) in *.
  assert (2 ^ 53 <= P) as HP by (apply Z.pow_le_mono_r; lia).
  assert (0 < P) as HP0 by lia.
  assert (forall m3 e3,
            e3 <= -9 -> ep <= e3 ->
            (Z.pos m3 - 1) * 2 ^ (e3 - ep) <= n * P + Z.pos mp
              < (Z.pos m3 + 1) * 2 ^ (e3 - ep) ->
            hundredths (S754_finite false m3 e3)
            = Some (100 * n + Z.of_N c)) as Hfin.
  { intros m3 e3 He3 Hep HM. cbn [hundredths].
    replace (0 <=? e3) with false by (symmetry; apply Z.leb_gt; lia).
    f_equal.
    replace (1 - e3) with (1 + - e3) by lia.
    rewrite Z.pow_add_r, Z.pow_1_r by lia.
    assert (P = 2 ^ (e3 - ep) * 2 ^ (- e3)) as HPQ.
    { unfold P. rewrite <- Z.pow_add_r by lia. f_equal. lia. }
    apply (hundredths_arith (Z.pos m3) (2 ^ (e3 - ep)) (2 ^ (- e3)) n
             (Z.of_N c) (Z.pos mp)).
    - apply Z.pow_pos_nonneg; lia.
    - change 512 with (2 ^ 9). apply Z.pow_le_mono_r; lia.
    - done.
    - lia.
    - by rewrite <- HPQ.
    - by rewrite <- HPQ. }
  destruct (Z.eq_dec n 0) as [->|Hn0].
  { change (fadd (of_Z 0) (S754_finite false mp ep))
      with (S754_finite false mp ep).
    apply Hfin; [lia|lia|]. rewrite Z.sub_diag, Z.pow_0_r. lia. }
  pose proof (log2_below n 40 ltac:(lia) ltac:(lia)) as Hl.
  rewrite of_Z_exact by lia.
  unfold fadd, SFadd. cbn [cond_Zopp].
  replace (IntDef.Z.min (Z.log2 n - 52) ep) with ep
    by (change IntDef.Z.min with Z.min; lia).
  rewrite !shl_align_down by lia. cbn [fst].
  assert (0 < 2 ^ (52 - Z.log2 n)) as Hp1 by (apply Z.pow_pos_nonneg; lia).
  assert (0 < 2 ^ (Z.log2 n - 52 - ep)) as Hp2 by (apply Z.pow_pos_nonneg; lia).
  rewrite (Z2Pos.id (n * _)) by nia.
  rewrite !Z2Pos.id by (rewrite ?Z.sub_diag, ?Z.pow_0_r; nia).
  rewrite Z.sub_diag, Z.pow_0_r, Z.mul_1_r.
  rewrite <- Z.mul_assoc, <- Z.pow_add_r by lia.
  replace (52 - Z.log2 n + (Z.log2 n - 52 - ep)) with (- ep) by lia.
  fold P.
  assert (2 ^ 53 <= n * P + Z.pos mp) as HMlow by nia.
  assert (n * P + Z.pos mp < 2 ^ (40 - ep)) as HMup.
  { replace (40 - ep) with (40 + - ep) by lia. rewrite Z.pow_add_r by lia.
    fold P. nia. }
  assert (53 <= Z.log2 (n * P + Z.pos mp) < 40 - ep) as HlM.
  { split; [apply Z.log2_le_pow2; lia|apply Z.log2_lt_pow2; lia]. }
  destruct (binary_round_aux_near (n * P + Z.pos mp) ep loc_Exact)
    as (m3 & e3 & Hround & He3 & Hb3);
    [lia|unfold emin, prec, emax; lia|unfold prec, emax; lia|].
  destruct (n * P + Z.pos mp) as [|Mp|Mp] eqn:HM; try lia.
  unfold binary_normalize, binary_round. rewrite digits2_pos_log2.
  unfold shl_align.
  destruct (fexp prec emax (Z.log2 (Z.pos Mp) + 1 + ep) - ep) as [|d|d] eqn:Hd;
    [| |unfold fexp, emin, prec, emax in Hd; lia];
    rewrite Hround; apply Hfin; lia.
Qed.

(** Whole seconds are computed without rounding. *)
Lemma seconds_exact (h m s : Z) :
  0 <= h -> 0 <= m -> 0 <= s -> h * 3600 + m * 60 + s < 2 ^ 53 ->
  fadd (fadd (fmul (of_Z h) (of_Z 3600)) (fmul (of_Z m) (of_Z 60))) (of_Z s)
  = of_Z (h * 3600 + m * 60 + s).
Proof.
  intros Hh Hm Hs Hb.
  rewrite !fmul_of_Z by lia. rewrite !fadd_of_Z by lia. done.
Qed.

End PyFloatFacts.

(** ** Facts on the string operations *)

Module PyFacts.

Import Py.

Lemma all_app (p : ascii -> bool) (s r : string) :
  all p (s ++ r) = all p s && all p r.
Proof.
  induction s as [|c s IH]; simpl; [done|].
  by rewrite IH, andb_assoc.
Qed.

Lemma all_impl (p q : ascii -> bool) (s : string) :
  (forall c, p c = true -> q c = true) -> all p s = true -> all q s = true.
Proof.
  intros Hpq. induction s as [|c s IH]; simpl; [done|].
  intros [Hc Hs]%andb_true_iff. by rewrite (Hpq c Hc), (IH Hs).
Qed.

Lemma app_assoc' (a b c : string) : (a ++ b) ++ c = a ++ (b ++ c).
Proof. induction a as [|x a IH]; simpl; [done|]. by rewrite IH. Qed.

Lemma app_empty_r (a : string) : a ++ "" = a.
Proof. induction a as [|x a IH]; simpl; [done|]. by rewrite IH. Qed.

Lemma lstrip_id (p : ascii -> bool) (s : string) :
  starts p s = false -> lstrip p s = s.
Proof. destruct s as [|c s]; simpl; [done|]. by intros ->. Qed.

Lemma rstrip_id (p : ascii -> bool) (s : string) :
  all (fun c => negb (p c)) s = true -> rstrip p s = s.
Proof.
  induction s as [|c s IH]; simpl; [done|].
  intros [Hc Hs]%andb_true_iff. rewrite (IH Hs).
  apply negb_true_iff in Hc. rewrite Hc. by destruct s.
Qed.

Lemma span_all (p : ascii -> bool) (s r : string) :
  all p s = true -> starts p r = false -> span p (s ++ r) = (s, r).
Proof.
  intros Hs Hr. induction s as [|c s IH]; simpl in *.
  - destruct r as [|c r]; simpl in *; [done|]. by rewrite Hr.
  - apply andb_true_iff in Hs as [-> Hs]. by rewrite (IH Hs).
Qed.

Lemma digits_all (s r : string) (acc : N) (cnt : nat) :
  all is_digit s = true -> starts is_digit r = false ->
  digits acc cnt (s ++ r) = (decimal acc s, (cnt + String.length s)%nat, r).
Proof.
  intros Hs Hr. revert acc cnt.
  induction s as [|c s IH]; intros acc cnt; simpl in *.
  - rewrite Nat.add_0_r. destruct r as [|c r]; simpl in *; [done|].
    by rewrite Hr.
  - apply andb_true_iff in Hs as [-> Hs]. rewrite (IH Hs).
    by rewrite Nat.add_succ_r.
Qed.

Lemma split_none (sep : ascii) (s : string) :
  all (is_not sep) s = true -> split sep s = [s].
Proof.
  induction s as [|c s IH]; simpl; [done|].
  intros [Hc Hs]%andb_true_iff. apply negb_true_iff in Hc.
  by rewrite Hc, (IH Hs).
Qed.

Lemma split_cons (sep : ascii) (s r : string) :
  all (is_not sep) s = true ->
  split sep (s ++ String sep r) = s :: split sep r.
Proof.
  induction s as [|c s IH]; simpl.
  - by rewrite Ascii.eqb_refl.
  - intros [Hc Hs]%andb_true_iff. apply negb_true_iff in Hc.
    by rewrite Hc, (IH Hs).
Qed.

Lemma split1_none (sep : ascii) (s : string) :
  all (is_not sep) s = true -> split1 sep s = [s].
Proof.
  induction s as [|c s IH]; simpl; [done|].
  intros [Hc Hs]%andb_true_iff. apply negb_true_iff in Hc.
  by rewrite Hc, (IH Hs).
Qed.

Lemma split1_cons (sep : ascii) (s r : string) :
  all (is_not sep) s = true ->
  split1 sep (s ++ String sep r) = [s; r].
Proof.
  induction s as [|c s IH]; simpl.
  - by rewrite Ascii.eqb_refl.
  - intros [Hc Hs]%andb_true_iff. apply negb_true_iff in Hc.
    by rewrite Hc, (IH Hs).
Qed.

(** [split1] yields one piece exactly when the separator is absent. *)
Lemma split1_shape (sep : ascii) (s : string) :
  (all (is_not sep) s = true /\ split1 sep s = [s]) \/
  (all (is_not sep) s = false /\ exists a b, split1 sep s = [a; b]).
Proof.
  induction s as [|c s IH]; simpl; [by left|].
  unfold is_not at 1 3. destruct (Ascii.eqb c sep); simpl.
  - right. eauto.
  - destruct IH as [[-> ->]|[-> (a & b & ->)]]; [by left|right; eauto].
Qed.

Lemma decode_all (p : ascii -> bool) (s : string) :
  all p s = true -> all p (decode_ascii_ignore s) = true.
Proof.
  induction s as [|c s IH]; simpl; [done|].
  intros [Hc Hs]%andb_true_iff.
  destruct (code c <? 128)%N; simpl; [by rewrite Hc, IH|by apply IH].
Qed.

Lemma is_digit_duration_char (c : ascii) :
  is_digit c = true -> is_duration_char c = true.
Proof. unfold is_duration_char. by intros ->. Qed.

(** A digit is none of the other characters the parsers look for. *)
Lemma is_digit_not (c d : ascii) :
  is_digit d = false -> is_digit c = true -> Ascii.eqb c d = false.
Proof.
  intros Hd Hc. destruct (Ascii.eqb_spec c d) as [->|]; [|done].
  by rewrite Hd in Hc.
Qed.

Lemma is_digit_not_space (c : ascii) :
  is_digit c = true -> is_str_space c = false.
Proof.
  unfold is_digit, is_str_space, is_space.
  intros [H1 H2]%andb_true_iff.
  apply N.leb_le in H1. apply N.leb_le in H2.
  rewrite !orb_false_iff, !andb_false_iff, !N.leb_gt, N.eqb_neq. lia.
Qed.

Lemma remove_underscores_id (prev : ascii) (s : string) :
  Ascii.eqb prev "_" = false -> all (is_not "_") s = true ->
  remove_underscores prev s = Some s.
Proof.
  revert prev. induction s as [|c s IH]; intros prev Hp; simpl.
  - by rewrite Hp.
  - intros [Hc Hs]%andb_true_iff. apply negb_true_iff in Hc.
    rewrite Hc, Hp. simpl. by rewrite (IH c Hc Hs).
Qed.

Lemma sign_digit (c : ascii) (s : string) :
  is_digit c = true -> sign (String c s) = (false, String c s).
Proof.
  intros Hc. unfold sign.
  by rewrite (is_digit_not c "-"), (is_digit_not c "+").
Qed.

Lemma of_decimal_0 (n : N) : of_decimal false n 0 = of_Z (Z.of_N n).
Proof.
  destruct n as [|p]; [done|]. unfold of_decimal, of_Z. simpl.
  by rewrite Pos.mul_1_r.
Qed.

Lemma digits_not_underscore (s : string) :
  all is_digit s = true -> all (is_not "_") s = true.
Proof.
  apply all_impl. intros c Hc. unfold is_not.
  by rewrite (is_digit_not c "_").
Qed.

Lemma digits_not_space (s : string) :
  all is_digit s = true -> all (fun c => negb (is_str_space c)) s = true.
Proof.
  apply all_impl. intros c Hc. by rewrite (is_digit_not_space c).
Qed.

(** [float] of a string of decimal digits is the float of the integer
    they write. *)
Lemma float_of_str_digits (s : string) :
  s <> "" -> all is_digit s = true ->
  float_of_str s = Some (of_Z (Z.of_N (decimal 0 s))).
Proof.
  intros Hne Hs. unfold float_of_str.
  rewrite remove_underscores_id by (done || by apply digits_not_underscore).
  rewrite rstrip_id by (by apply digits_not_space).
  destruct s as [|c s]; [done|]. clear Hne.
  pose proof Hs as [Hc _]%andb_true_iff.
  rewrite lstrip_id by (simpl; by apply is_digit_not_space).
  unfold parse_decimal. rewrite (sign_digit c s Hc).
  rewrite <- (app_empty_r (String c s)) at 1.
  rewrite (digits_all _ "" 0 0 Hs eq_refl). simpl.
  by rewrite Z.sub_0_r, of_decimal_0.
Qed.

(** [float("0." + s)] for decimal digits [s] is the correctly rounded
    fraction they write. *)
Lemma float_of_str_fraction (s : string) :
  all is_digit s = true ->
  float_of_str ("0." ++ s)
  = Some (of_decimal false (decimal 0 s) (- Z.of_nat (String.length s))).
Proof.
  intros Hs. unfold float_of_str.
  change ("0." ++ s) with (String "0" (String "." s)).
  rewrite remove_underscores_id; cycle 1.
  { done. }
  { simpl. by apply digits_not_underscore. }
  rewrite rstrip_id by (simpl; by apply digits_not_space).
  rewrite lstrip_id by done.
  unfold parse_decimal. rewrite (sign_digit "0" _ eq_refl).
  change (digits 0 0 (String "0" (String "." s)))
    with (0%N, 1%nat, String "." s).
  simpl. rewrite <- (app_empty_r s) at 1.
  rewrite (digits_all _ "" 0 0 Hs eq_refl). simpl.
  by rewrite Z.sub_0_l.
Qed.

Lemma float_of_str_signed (c : ascii) (ds : string) :
  c = "-"%char \/ c = "+"%char ->
  ds <> "" -> all is_digit ds = true ->
  float_of_str (String c ds)
  = Some (of_decimal (Ascii.eqb c "-") (decimal 0 ds) 0).
Proof.
  intros Hc Hne Hs. unfold float_of_str.
  rewrite remove_underscores_id; cycle 1.
  { done. }
  { simpl. rewrite digits_not_underscore by done. by destruct Hc as [->| ->]. }
  rewrite rstrip_id; cycle 1.
  { simpl. rewrite digits_not_space by done. by destruct Hc as [->| ->]. }
  rewrite lstrip_id by (by destruct Hc as [->| ->]).
  unfold parse_decimal.
  assert (sign (String c ds) = (Ascii.eqb c "-", ds)) as ->
    by (by destruct Hc as [->| ->]).
  destruct ds as [|d ds]; [done|].
  rewrite <- (app_empty_r (String d ds)) at 1.
  rewrite (digits_all _ "" 0 0 Hs eq_refl). simpl.
  by rewrite Z.sub_0_r.
Qed.

(** [float] reads an integer literal as a float of the same sign. *)
Lemma float_of_int_literal (s : string) (n : Z) :
  int_literal s = Some n ->
  exists x, float_of_str s = Some x /\ fltb zero x = (0 <? n) /\
            (0 < n -> x = of_Z n).
Proof.
  unfold int_literal. destruct s as [|c s]; [done|].
  destruct (Ascii.eqb_spec c "-") as [->|Hm];
    [|destruct (Ascii.eqb_spec c "+") as [->|Hp]].
  - change (sign (String "-" s)) with (true, s).
    destruct s as [|d s]; [done|].
    destruct (all is_digit (String d s)) eqn:Hs; [|done].
    intros [= <-]. eexists. split; [by apply float_of_str_signed; auto|].
    rewrite PyFloatFacts.of_decimal_positive. split; [|lia].
    change (Ascii.eqb "-" "-") with true. cbn [negb andb].
    symmetry. apply Z.ltb_ge. lia.
  - change (sign (String "+" s)) with (false, s).
    destruct s as [|d s]; [done|].
    destruct (all is_digit (String d s)) eqn:Hs; [|done].
    intros [= <-]. eexists. split; [by apply float_of_str_signed; auto|].
    rewrite PyFloatFacts.of_decimal_positive. split.
    + change (Ascii.eqb "+" "-") with false. cbn [negb andb].
      exact (PyFloatFacts.N_ltb_of_N (decimal 0 (String d s))).
    + intros _. apply of_decimal_0.
  - assert (sign (String c s) = (false, String c s)) as ->.
    { unfold sign.
      destruct (Ascii.eqb_spec c "-"); [done|].
      by destruct (Ascii.eqb_spec c "+"). }
    destruct (all is_digit (String c s)) eqn:Hs; [|done].
    intros [= <-]. eexists. split; [by apply float_of_str_digits|].
    split; [|intros _; reflexivity].
    rewrite <- of_decimal_0, PyFloatFacts.of_decimal_positive.
    cbn [negb andb]. exact (PyFloatFacts.N_ltb_of_N (decimal 0 (String c s))).
Qed.

(** *** The duration pattern *)

Lemma strip_prefix_app (pre s : string) : strip_prefix pre (pre ++ s) = Some s.
Proof.
  induction pre as [|c pre IH]; simpl; [done|].
  by rewrite Ascii.eqb_refl.
Qed.

(** The pattern matches at its own position and captures the whole run
    of digits, colons and periods before the comma. *)
Lemma duration_re_match_here (g post : string) :
  g <> "" -> all is_duration_char g = true ->
  duration_re_match ("Duration: " ++ g ++ String "," post) = Some g.
Proof.
  intros Hne Hg. unfold duration_re_match.
  rewrite strip_prefix_app, (span_all _ g (String "," post) Hg eq_refl).
  by destruct g.
Qed.

Lemma span_app_stop (p : ascii -> bool) (s r : string) :
  starts p r = false ->
  span p (s ++ r)
  = match span p s with
    | (a, EmptyString) => (a, r)
    | (a, b) => (a, b ++ r)
    end.
Proof.
  intros Hr. induction s as [|c s IH]; simpl.
  - destruct r as [|c r]; simpl in *; [done|]. by rewrite Hr.
  - destruct (p c); [|done]. rewrite IH.
    by destruct (span p s) as [a [|b0 b]].
Qed.

Lemma strip_prefix_Some (pre s t : string) :
  strip_prefix pre s = Some t -> s = pre ++ t.
Proof.
  revert s. induction pre as [|a pre IH]; intros s; simpl.
  - by intros [= ->].
  - destruct s as [|b s]; [done|].
    destruct (Ascii.eqb_spec a b) as [->|]; [|done].
    by intros ->%IH.
Qed.

Lemma strip_prefix_None_app (d : ascii) (pre s r : string) :
  all (is_not d) pre = true -> strip_prefix pre s = None ->
  strip_prefix pre (s ++ String d r) = None.
Proof.
  revert s. induction pre as [|a pre IH]; intros s; simpl; [done|].
  intros [Ha Hpre]%andb_true_iff. apply negb_true_iff in Ha.
  destruct s as [|b s]; simpl.
  - by rewrite Ha.
  - destruct (Ascii.eqb a b); [|done]. by apply IH.
Qed.

(** Text in front of the marker cannot complete a match by running
    into it: the marker begins with [D], which is neither a later
    character of the literal prefix nor in the class nor the comma. *)
Lemma duration_re_match_app (s r : string) :
  s <> "" -> duration_re_match s = None ->
  duration_re_match (s ++ String "D" r) = None.
Proof.
  intros Hne. unfold duration_re_match.
  destruct (strip_prefix "Duration: " s) as [t|] eqn:Hs.
  - apply strip_prefix_Some in Hs as ->.
    rewrite app_assoc', strip_prefix_app.
    rewrite (span_app_stop _ t (String "D" r) eq_refl).
    destruct (span is_duration_char t) as [a [|c b]]; simpl.
    + by destruct a.
    + destruct a; [done|]. by destruct (Ascii.eqb c ",").
  - intros _. destruct s as [|b s]; [done|].
    change (strip_prefix "Duration: " (String b s ++ String "D" r))
      with (if Ascii.eqb "D" b
            then strip_prefix "uration: " (s ++ String "D" r) else None).
    change (strip_prefix "Duration: " (String b s))
      with (if Ascii.eqb "D" b
            then strip_prefix "uration: " s else None) in Hs.
    destruct (Ascii.eqb "D" b); [|done].
    by rewrite (strip_prefix_None_app "D" "uration: " s r eq_refl Hs).
Qed.

Lemma duration_re_search_app (pre r : string) :
  duration_re_search pre = None ->
  duration_re_search (pre ++ String "D" r) = duration_re_search (String "D" r).
Proof.
  induction pre as [|c pre IH]; [done|].
  intros H. simpl in H.
  destruct (duration_re_match (String c pre)) eqn:Hm; [done|].
  change (duration_re_search (String c pre ++ String "D" r))
    with (match duration_re_match (String c pre ++ String "D" r) with
          | Some g => Some g
          | None => duration_re_search (pre ++ String "D" r)
          end).
  rewrite duration_re_match_app by done. by apply IH.
Qed.

Lemma duration_re_search_here (l g : string) :
  duration_re_match l = Some g -> duration_re_search l = Some g.
Proof. intros H. destruct l; cbn [duration_re_search]; by rewrite H. Qed.

(** The leftmost match is the marker when nothing before it matches. *)
Lemma duration_re_search_marker (pre g post : string) :
  duration_re_search pre = None ->
  g <> "" -> all is_duration_char g = true ->
  duration_re_search (pre ++ "Duration: " ++ g ++ String "," post) = Some g.
Proof.
  intros Hpre Hne Hg.
  change ("Duration: " ++ g ++ String "," post)
    with (String "D" ("uration: " ++ g ++ String "," post)).
  rewrite duration_re_search_app by done.
  change (String "D" ("uration: " ++ g ++ String "," post))
    with ("Duration: " ++ g ++ String "," post).
  by apply duration_re_search_here, duration_re_match_here.
Qed.

End PyFacts.

(** ** Duration resolution *)

Import Py PyFacts subprocess ffmpegThread.

(** One turn of the loop on a line without the marker: the line is
    consumed and the loop goes on. *)
Lemma input_duration_loop_skip (fuel : nat) (self : t) (p : Popen)
    (raw rest : string) :
  ffmpeg self = Some (Some p) ->
  readline (subprocess.stderr p) = (raw, rest) ->
  duration_re_search (decode_ascii_ignore raw) = None ->
  input_duration_loop (S fuel) self
  = input_duration_loop fuel
      (set_ffmpeg (Some (Some (with_stderr rest p))) self).
Proof.
  intros Hp Hline Hno.
  cbn [input_duration_loop]. unfold mbind, M_bind, get, modify.
  rewrite Hp. cbn [readable negb]. rewrite Hline, Hno. done.
Qed.

Lemma split_time (hh mm ss : string) :
  all is_digit hh = true -> all is_digit mm = true ->
  all is_digit ss = true ->
  split ":" (hh ++ ":" ++ mm ++ ":" ++ ss) = [hh; mm; ss].
Proof.
  intros Hh Hm Hs.
  assert (forall s, all is_digit s = true -> all (is_not ":") s = true) as Hd.
  { intros s. apply all_impl. intros c Hc. unfold is_not.
    by rewrite (is_digit_not c ":"). }
  change (":" ++ mm ++ ":" ++ ss) with (String ":" (mm ++ String ":" ss)).
  rewrite split_cons, split_cons, split_none by auto. done.
Qed.

Lemma split_duration (hh mm ss cc : string) :
  all is_digit hh = true -> all is_digit mm = true ->
  all is_digit ss = true -> all is_digit cc = true ->
  split "." ((hh ++ ":" ++ mm ++ ":" ++ ss) ++ "." ++ cc)
  = [hh ++ ":" ++ mm ++ ":" ++ ss; cc].
Proof.
  intros Hh Hm Hs Hc.
  assert (forall s, all is_digit s = true -> all (is_not ".") s = true) as Hd.
  { intros s. apply all_impl. intros c Hx. unfold is_not.
    by rewrite (is_digit_not c "."). }
  change ("." ++ cc) with (String "." cc).
  rewrite split_cons, split_none; [done|by auto|].
  rewrite !all_app. change (all (is_not ".") ":") with true.
  by rewrite !Hd.
Qed.

Lemma duration_chars (hh mm ss cc : string) :
  all is_digit hh = true -> all is_digit mm = true ->
  all is_digit ss = true -> all is_digit cc = true ->
  all is_duration_char ((hh ++ ":" ++ mm ++ ":" ++ ss) ++ "." ++ cc) = true.
Proof.
  intros Hh Hm Hs Hc.
  assert (forall s, all is_digit s = true -> all is_duration_char s = true)
    as Hd by (intros s; apply all_impl, is_digit_duration_char).
  rewrite !all_app.
  change (all is_duration_char ":") with true.
  change (all is_duration_char ".") with true.
  by rewrite !Hd.
Qed.

Lemma digit_val_le (c : ascii) : is_digit c = true -> (digit_val c <= 9)%N.
Proof.
  unfold is_digit, digit_val.
  intros [_ H]%andb_true_iff. apply N.leb_le in H. lia.
Qed.

Lemma decimal_two_digits (cc : string) :
  String.length cc = 2%nat -> all is_digit cc = true ->
  (decimal 0 cc < 100)%N.
Proof.
  destruct cc as [|c1 [|c2 [|c3 r]]]; try done. intros _. simpl.
  intros [H1 [H2 _]%andb_true_iff]%andb_true_iff.
  apply digit_val_le in H1, H2. lia.
Qed.

(** The float expression of the specification on a duration below 2^40
    seconds with a two-digit fraction: the whole seconds are exact and
    the hundredths are those that were written. *)
Lemma spec_duration_hundredths (h m s c : N) :
  let n := Z.of_N h * 3600 + Z.of_N m * 60 + Z.of_N s in
  n < 2 ^ 40 - 1 -> (c < 100)%N ->
  spec_duration_seconds h m s (of_decimal false c (-2))
  = fadd (of_Z n) (of_decimal false c (-2)) /\
  hundredths (spec_duration_seconds h m s (of_decimal false c (-2)))
  = Some (100 * n + Z.of_N c).
Proof.
  intros n Hn Hc. unfold spec_duration_seconds.
  rewrite PyFloatFacts.seconds_exact by lia. fold n.
  split; [done|]. apply PyFloatFacts.hundredths_sum; lia.
Qed.

(** C4, as amended. A diagnostic line whose first match of the duration
    pattern is [Duration: H:MM:SS.cc,] (decimal digits in every field)
    resolves the input duration to [hours*3600 + minutes*60 + seconds +
    fractional] computed in floats, the fields read as decimal numbers
    and the fraction as the correctly rounded [0.cc]; the value is
    cached and the line is consumed. For a two-digit [cc] and fewer than
    [2^40 - 1] whole seconds this is exact to the hundredth: the whole
    seconds are computed without rounding, and the hundredths nearest to
    the result are [100 * (hours*3600 + minutes*60 + seconds) + cc]. *)
Theorem input_duration_of_marker_line
    (fuel : nat) (self : t) (p : Popen)
    (raw rest pre post hh mm ss cc : string) :
  _input_duration self = None ->
  ffmpeg self = Some (Some p) ->
  readline (subprocess.stderr p) = (raw, rest) ->
  decode_ascii_ignore raw
  = pre ++ "Duration: " ++ ((hh ++ ":" ++ mm ++ ":" ++ ss) ++ "." ++ cc)
        ++ String "," post ->
  duration_re_search pre = None ->
  hh <> "" -> mm <> "" -> ss <> "" ->
  all is_digit hh = true -> all is_digit mm = true ->
  all is_digit ss = true -> all is_digit cc = true ->
  let fractional :=
    of_decimal false (decimal 0 cc) (- Z.of_nat (String.length cc)) in
  let d := spec_duration_seconds (decimal 0 hh) (decimal 0 mm) (decimal 0 ss)
             fractional in
  let whole := Z.of_N (decimal 0 hh) * 3600 + Z.of_N (decimal 0 mm) * 60
               + Z.of_N (decimal 0 ss) in
  input_duration (S fuel) self
  = Ret d (set__input_duration (Some d)
            (set_ffmpeg (Some (Some (with_stderr rest p))) self)) /\
  (String.length cc = 2%nat -> whole < 2 ^ 40 - 1 ->
   d = fadd (of_Z whole) fractional /\
   hundredths d = Some (100 * whole + Z.of_N (decimal 0 cc))).
Proof.
  intros Hnone Hp Hline Hraw Hpre Hh0 Hm0 Hs0 Hh Hm Hs Hc fractional d whole.
  split.
  - unfold input_duration, mbind, M_bind, get. rewrite Hnone, Hp.
    cbn [input_duration_loop]. unfold mbind, M_bind, get, modify.
    rewrite Hp. cbn [readable negb]. rewrite Hline, Hraw.
    rewrite duration_re_search_marker; cycle 1.
    { done. }
    { by destruct hh. }
    { by apply duration_chars. }
    rewrite split_duration by done.
    unfold float_, float_of. rewrite float_of_str_fraction by done.
    unfold mret, M_ret. rewrite split_time by done.
    rewrite !float_of_str_digits by done.
    done.
  - intros Hlen Hwhole. unfold d, fractional. rewrite Hlen.
    apply spec_duration_hundredths; [done|]. by apply decimal_two_digits.
Qed.

(** The line [  Duration: 01:02:03.50, start: 0.000000, bitrate: 128 kb/s]
    resolves to 3723.5, which is [8188063092047872 * 2^-41]: 3723 whole
    seconds and 372350 hundredths. *)
Lemma input_duration_of_marker_line_witness :
  let p := {| stdout := "";
              subprocess.stderr :=
                "  Duration: 01:02:03.50, start: 0.000000, bitrate: 128 kb/s"
                ++ String "010" "Stream #0:0: Audio: mp3";
              returncode := None |} in
  let self := set_ffmpeg (Some (Some p)) (__init__ true true) in
  let d := S754_finite false 8188063092047872 (-41) in
  d = of_decimal false 37235 (-1) /\
  input_duration 1 self
  = Ret d (set__input_duration (Some d)
            (set_ffmpeg
               (Some (Some (with_stderr "Stream #0:0: Audio: mp3" p))) self)) /\
  hundredths d = Some 372350.
Proof.
  intros p self d. split; [reflexivity|].
  destruct (input_duration_of_marker_line 0 self p
           ("  Duration: 01:02:03.50, start: 0.000000, bitrate: 128 kb/s"
            ++ String "010" "")
           "Stream #0:0: Audio: mp3" "  "
           (" start: 0.000000, bitrate: 128 kb/s" ++ String "010" "")
           "01" "02" "03" "50"
           eq_refl eq_refl eq_refl eq_refl eq_refl
           ltac:(discriminate) ltac:(discriminate) ltac:(discriminate)
           eq_refl eq_refl eq_refl eq_refl) as [Hrun Hexact].
  split; [exact Hrun|].
  destruct (Hexact eq_refl eq_refl) as [_ Hh]. exact Hh.
Defined.

(** With a hundred thousand million hours in front of them, three
    hundredths of a second are lost: the line resolves to the float of
    the whole seconds, the same as with [.00] in their place. *)
Lemma input_duration_loses_hundredths :
  let line cc := "  Duration: 100000000000:00:00." ++ cc
                 ++ ", start: 0.000000, bitrate: 128 kb/s" ++ LF in
  let thread cc :=
    started {| stdout := ""; subprocess.stderr := line cc;
               returncode := None |} in
  exists d self3 self0,
    input_duration 1 (thread "03") = Ret d self3 /\
    input_duration 1 (thread "00") = Ret d self0 /\
    d = of_Z 360000000000000 /\
    hundredths d = Some 36000000000000000 /\
    hundredths d <> Some (36000000000000000 + 3).
Proof.
  eexists _, _, _. split; [vm_compute; reflexivity|].
  split; [vm_compute; reflexivity|].
  split; [vm_compute; reflexivity|].
  split; [vm_compute; reflexivity|]. discriminate.
Qed.

(** ** What the methods change *)

Lemma suffix_of_refl (s : string) : suffix_of s s.
Proof. by exists "". Qed.

Lemma suffix_of_trans (a b c : string) :
  suffix_of a b -> suffix_of b c -> suffix_of a c.
Proof.
  intros [x ->] [y ->]. exists (y ++ x). by rewrite app_assoc'.
Qed.

Lemma readline_app (s line rest : string) :
  readline s = (line, rest) -> s = line ++ rest.
Proof.
  revert line rest. induction s as [|c s IH]; intros line rest; simpl.
  - by intros [= <- <-].
  - destruct (Ascii.eqb c "010").
    + by intros [= <- <-].
    + destruct (readline s) as [l r]. intros [= <- <-].
      simpl. by rewrite (IH l r).
Qed.

Lemma readline_suffix (s line rest : string) :
  readline s = (line, rest) -> suffix_of rest s.
Proof. intros H. exists line. by apply readline_app. Qed.

(** The loop of [input_duration] only reads from the diagnostic pipe and,
    when it returns, caches what it returns; the one exception it can
    raise on a live handle is the [ValueError] of a marker that does not
    split into [H:M:S.f]. *)
Lemma input_duration_loop_frame (fuel : nat) (self : t) (p : Popen) :
  ffmpeg self = Some (Some p) ->
  match input_duration_loop fuel self with
  | Ret d self' =>
      exists r, suffix_of r (subprocess.stderr p) /\
        self' = set__input_duration (Some d)
                  (set_ffmpeg (Some (Some (with_stderr r p))) self)
  | Raise e self' =>
      e = ValueError /\
      exists r, suffix_of r (subprocess.stderr p) /\
        self' = set_ffmpeg (Some (Some (with_stderr r p))) self
  | OutOfFuel => True
  end.
Proof.
  revert self p. induction fuel as [|fuel IH]; intros self p Hp; [done|].
  cbn [input_duration_loop]. unfold mbind, M_bind, get, modify, raise.
  rewrite Hp. cbn [readable negb].
  destruct (readline (subprocess.stderr p)) as [line rest] eqn:Hline.
  pose proof (readline_suffix _ _ _ Hline) as Hsuf.
  destruct (duration_re_search (decode_ascii_ignore line)) as [g|].
  - destruct (split "." g) as [|time [|partial [|x1 l1]]]; try by eauto.
    unfold float_, float_of, raise, mret, M_ret.
    destruct (float_of_str ("0." ++ partial)); [|by eauto].
    destruct (split ":" time) as [|hh [|mm [|ss [|x2 l2]]]]; try by eauto.
    destruct (float_of_str hh); [|by eauto].
    destruct (float_of_str mm); [|by eauto].
    destruct (float_of_str ss); [|by eauto].
    by eauto.
  - specialize (IH (set_ffmpeg (Some (Some (with_stderr rest p))) self)
                   (with_stderr rest p) eq_refl).
    destruct (input_duration_loop fuel _) as [d self'|e self'|]; [| |done].
    + destruct IH as (r & Hr & ->). exists r. split; [|done].
      by eapply suffix_of_trans.
    + destruct IH as (-> & r & Hr & ->). split; [done|]. exists r.
      split; [|done]. by eapply suffix_of_trans.
Qed.

(** On such a stream the loop never leaves: at end of file [readline]
    keeps returning the empty string, on which the pattern fails. *)
Lemma input_duration_loop_no_marker (fuel : nat) (self : t) (p : Popen) :
  ffmpeg self = Some (Some p) ->
  no_marker (subprocess.stderr p) ->
  input_duration_loop fuel self = OutOfFuel.
Proof.
  revert self p. induction fuel as [|fuel IH]; intros self p Hp Hno; [done|].
  inversion Hno as [Heof|s line rest Hline Hsearch Hrest Hs].
  - rewrite (input_duration_loop_skip fuel self p "" "" Hp);
      [|by rewrite <- Heof|done].
    apply (IH _ (with_stderr "" p)); [done|constructor].
  - rewrite (input_duration_loop_skip fuel self p line rest Hp Hline Hsearch).
    by apply (IH _ (with_stderr rest p)).
Qed.

Lemma evolves_refl (self : t) : evolves self self.
Proof.
  split; try done.
  - exists []. by rewrite app_nil_r.
  - intros p Hp. exists p. eauto using suffix_of_refl.
Qed.

Lemma evolves_trans (a b c : t) : evolves a b -> evolves b c -> evolves a c.
Proof.
  intros [] []. split; try congruence.
  - destruct ev_calls0 as [n1 H1], ev_calls1 as [n2 H2].
    exists (n1 ++ n2)%list. by rewrite H2, H1, <- app_assoc.
  - auto.
  - intros p Hp.
    destruct (ev_handle0 p Hp) as (p' & Hp' & Hr & Ho & He).
    destruct (ev_handle1 p' Hp') as (p'' & Hp'' & Hr' & Ho' & He').
    exists p''. repeat split; [done|congruence|..];
      by eapply suffix_of_trans.
Qed.

Lemma unread_refl (self : t) : unread self self.
Proof. intros _ p p' Hp Hp'. congruence. Qed.

Lemma unread_trans (a b c : t) :
  evolves a b -> evolves b c -> unread a b -> unread b c -> unread a c.
Proof.
  intros Hab Hbc Uab Ubc Hnone p p'' Hp Hp''.
  destruct (ev_handle _ _ Hab p Hp) as (p' & Hp' & _).
  assert (_input_duration b = None) as Hb.
  { destruct (_input_duration b) as [d|] eqn:Hd; [|done].
    by rewrite (ev_duration _ _ Hbc d Hd) in Hnone. }
  rewrite (Ubc Hnone p' p'' Hp' Hp''). by apply Uab.
Qed.

Lemma evolves_read_stderr (self : t) (p : Popen) (r : string) :
  ffmpeg self = Some (Some p) -> suffix_of r (subprocess.stderr p) ->
  evolves self (set_ffmpeg (Some (Some (with_stderr r p))) self).
Proof.
  intros Hp Hr. split; try done.
  - exists []. by rewrite app_nil_r.
  - intros q Hq. rewrite Hp in Hq. injection Hq as <-.
    eexists. split; [done|]. simpl. eauto using suffix_of_refl.
Qed.

Lemma evolves_read_stdout (self : t) (p : Popen) (r : string) :
  ffmpeg self = Some (Some p) -> suffix_of r (stdout p) ->
  evolves self (set_ffmpeg (Some (Some (with_stdout r p))) self).
Proof.
  intros Hp Hr. split; try done.
  - exists []. by rewrite app_nil_r.
  - intros q Hq. rewrite Hp in Hq. injection Hq as <-.
    eexists. split; [done|]. simpl. eauto using suffix_of_refl.
Qed.

Lemma evolves_set_duration (self : t) (d : float) :
  _input_duration self = None ->
  evolves self (set__input_duration (Some d) self).
Proof.
  intros Hd. split; try done.
  - exists []. by rewrite app_nil_r.
  - intros d'. by rewrite Hd.
  - intros p Hp. exists p. eauto using suffix_of_refl.
Qed.

Lemma evolves_add_call (self : t) (e : event) : evolves self (add_call e self).
Proof.
  split; try done.
  - by exists [e].
  - intros p Hp. exists p. eauto using suffix_of_refl.
Qed.

(** The [input_duration] property returns a value only with that value
    cached, and otherwise leaves [self] as above. *)
Lemma input_duration_evolves (fuel : nat) (self : t) :
  match input_duration fuel self with
  | Ret d self' => evolves self self' /\ _input_duration self' = Some d
  | Raise _ self' => evolves self self'
  | OutOfFuel => True
  end.
Proof.
  unfold input_duration, mbind, M_bind, get, raise, mret, M_ret.
  destruct (_input_duration self) as [d|] eqn:Hd.
  { split; [apply evolves_refl|done]. }
  destruct (ffmpeg self) as [[p|]|] eqn:Hp; try apply evolves_refl.
  pose proof (input_duration_loop_frame fuel self p Hp) as H.
  destruct (input_duration_loop fuel self) as [d self'|e self'|]; [| |done].
  - destruct H as (r & Hr & ->). split; [|done].
    eapply evolves_trans; [by apply evolves_read_stderr|].
    by apply evolves_set_duration.
  - destruct H as (_ & r & Hr & ->). by apply evolves_read_stderr.
Qed.

Lemma indicate_progress_evolves (done : float) (info : gmap string value)
    (self : t) :
  exists self', indicate_progress done info self = Ret tt self' /\
    evolves self self' /\
    _input_duration self' = _input_duration self /\
    ffmpeg self' = ffmpeg self /\
    calls self'
    = (calls self ++ (if progress_f self then [Progress done] else [])
                  ++ (if info_f self then [Info info] else []))%list.
Proof.
  unfold indicate_progress, mbind, M_bind, get, modify, mret, M_ret.
  destruct (progress_f self) eqn:Hpf, (info_f self) eqn:Hif; simpl;
    rewrite ?Hif; eexists; (split; [done|]); simpl;
    rewrite <- ?app_assoc, ?app_nil_r;
    (split; [|done]);
    eauto using evolves_refl, evolves_add_call, evolves_trans.
Qed.

Lemma same_stdout_refl (self : t) : same_stdout self self.
Proof. intros p Hp. by exists p. Qed.

(** Resolving the duration makes no call, does not touch the progress
    pipe and never raises [KeyError]. *)
Lemma input_duration_quiet (fuel : nat) (self : t) :
  match input_duration fuel self with
  | Ret _ self' => calls self' = calls self /\ same_stdout self self'
  | Raise e self' =>
      calls self' = calls self /\ same_stdout self self' /\
      is_KeyError e = false
  | OutOfFuel => True
  end.
Proof.
  unfold input_duration, mbind, M_bind, get, raise, mret, M_ret.
  destruct (_input_duration self) as [d|] eqn:Hd.
  { split; [done|apply same_stdout_refl]. }
  destruct (ffmpeg self) as [[p|]|] eqn:Hp;
    try (split; [done|split; [apply same_stdout_refl|done]]).
  pose proof (input_duration_loop_frame fuel self p Hp) as H.
  destruct (input_duration_loop fuel self) as [d self'|e self'|]; [| |done].
  - destruct H as (r & Hr & ->). split; [done|].
    intros q Hq. rewrite Hp in Hq. injection Hq as <-. by eexists.
  - destruct H as (-> & r & Hr & ->). split; [done|]. split; [|done].
    intros q Hq. rewrite Hp in Hq. injection Hq as <-. by eexists.
Qed.

(** *** [process_info], case by case *)

Lemma process_info_missing (fuel : nat) (info : gmap string value) (self : t) :
  info !! "out_time_ms" = None ->
  process_info fuel info self = Raise (KeyError "out_time_ms") self.
Proof. intros H. unfold process_info. by rewrite H. Qed.

Lemma process_info_nonpositive (fuel : nat) (info : gmap string value)
    (self : t) (v : value) (x : float) :
  info !! "out_time_ms" = Some v -> float_of v = Some x ->
  fltb zero x = false ->
  process_info fuel info self = Ret info self.
Proof.
  intros Hv Hx Hneg. unfold process_info, float_, mbind, M_bind, mret, M_ret.
  by rewrite Hv, Hx, Hneg.
Qed.

Lemma process_info_positive (fuel : nat) (info : gmap string value)
    (self self1 : t) (v : value) (x d : float) :
  info !! "out_time_ms" = Some v -> float_of v = Some x ->
  fltb zero x = true ->
  input_duration fuel self = Ret d self1 -> is_zero d = false ->
  let done := fdiv (fdiv x (of_Z 1000000)) d in
  let info' := <["done" := VFloat done]> info in
  exists self',
    process_info fuel info self = Ret info' self' /\
    calls self'
    = (calls self ++ (if progress_f self then [Progress done] else [])
                  ++ (if info_f self then [Info info'] else []))%list.
Proof.
  intros Hv Hx Hpos Hd Hnz done info'.
  pose proof (input_duration_quiet fuel self) as Hq.
  pose proof (input_duration_evolves fuel self) as He.
  rewrite Hd in Hq, He. destruct Hq as [Hcalls _], He as [He _].
  destruct (indicate_progress_evolves done info' self1)
    as (self' & Hind & _ & _ & _ & Hc).
  exists self'. split.
  - unfold process_info, float_, truediv, mbind, M_bind, mret, M_ret.
    rewrite Hv, Hx, Hpos, Hd, Hnz. fold done. fold info'. by rewrite Hind.
  - rewrite Hc, Hcalls.
    by rewrite (ev_progress_f _ _ He), (ev_info_f _ _ He).
Qed.

(** [process_info] in general: what it changes, and that [KeyError]
    comes from the missing key only. *)
Lemma process_info_evolves (fuel : nat) (info : gmap string value) (self : t) :
  match process_info fuel info self with
  | Ret _ self' =>
      evolves self self' /\ unread self self' /\ same_stdout self self'
  | Raise e self' =>
      evolves self self' /\
      (is_KeyError e = true -> info !! "out_time_ms" = None)
  | OutOfFuel => True
  end.
Proof.
  unfold process_info.
  destruct (info !! "out_time_ms") as [v|] eqn:Hv;
    [|by (split; [apply evolves_refl|])].
  unfold float_, truediv, mbind, M_bind, mret, M_ret, raise.
  destruct (float_of v) as [x|]; [|by (split; [apply evolves_refl|])].
  destruct (fltb zero x).
  2:{ split; [apply evolves_refl|].
      split; [apply unread_refl|apply same_stdout_refl]. }
  pose proof (input_duration_evolves fuel self) as He.
  pose proof (input_duration_quiet fuel self) as Hq.
  destruct (input_duration fuel self) as [d self1|e self1|]; [| |done].
  - destruct He as [He Hd], Hq as [_ Hq].
    destruct (is_zero d); [by split|].
    set (done := fdiv _ d). set (info' := <["done" := _]> info).
    destruct (indicate_progress_evolves done info' self1)
      as (self' & -> & He' & Hd' & Hf' & _).
    split; [by eapply evolves_trans|]. split.
    + intros Hnone. by rewrite Hd', Hd in Hnone.
    + intros p Hp. destruct (Hq p Hp) as (p' & Hp' & Ho).
      exists p'. by rewrite Hf'.
  - destruct Hq as (_ & _ & Hk). split; [done|]. by rewrite Hk.
Qed.

(** *** The drain loop and [run] *)

Lemma unread_read_stdout (self : t) (p : Popen) (r : string) :
  ffmpeg self = Some (Some p) ->
  unread self (set_ffmpeg (Some (Some (with_stdout r p))) self).
Proof.
  intros Hp _ q q' Hq Hq'. simpl in Hq'. rewrite Hp in Hq.
  by injection Hq as <-; injection Hq' as <-.
Qed.

(** One turn of the drain loop, by the kind of line read. *)
Lemma run_loop_blank (fuel : nat) (info : gmap string value) (self : t)
    (p : Popen) (line rest : string) :
  ffmpeg self = Some (Some p) ->
  readline (stdout p) = (line, rest) ->
  strip line = "" ->
  run_loop (S fuel) info self
  = Ret tt (set_ffmpeg (Some (Some (with_stdout rest p))) self).
Proof.
  intros Hp Hline Hblank. cbn [run_loop].
  unfold mbind, M_bind, get, modify. rewrite Hp. cbn [readable].
  by rewrite Hline, Hblank.
Qed.

Lemma run_loop_no_separator (fuel : nat) (info : gmap string value) (self : t)
    (p : Popen) (line rest : string) :
  ffmpeg self = Some (Some p) ->
  readline (stdout p) = (line, rest) ->
  strip line <> "" ->
  all (is_not "=") (strip line) = true ->
  run_loop (S fuel) info self
  = Raise ValueError (set_ffmpeg (Some (Some (with_stdout rest p))) self).
Proof.
  intros Hp Hline Hnb Hsep. cbn [run_loop].
  unfold mbind, M_bind, get, modify. rewrite Hp. cbn [readable].
  rewrite Hline. destruct (strip line) as [|c l] eqn:Hs; [done|].
  by rewrite split1_none by (by apply decode_all).
Qed.

Lemma run_loop_field (fuel : nat) (info : gmap string value) (self : t)
    (p : Popen) (line rest key val : string) :
  ffmpeg self = Some (Some p) ->
  readline (stdout p) = (line, rest) ->
  strip line <> "" ->
  split1 "=" (decode_ascii_ignore (strip line)) = [key; val] ->
  run_loop (S fuel) info self
  = let self1 := set_ffmpeg (Some (Some (with_stdout rest p))) self in
    let info1 := <[key := VStr val]> info in
    if String.eqb key "progress"
    then (process_info fuel info1 ;; run_loop fuel ∅) self1
    else run_loop fuel info1 self1.
Proof.
  intros Hp Hline Hnb Hsplit. cbn [run_loop].
  unfold mbind at 1 2. unfold M_bind at 1 2. unfold get, modify.
  rewrite Hp. cbn [readable].
  rewrite Hline. destruct (strip line) as [|c l] eqn:Hs; [done|].
  rewrite Hsplit. by destruct (String.eqb key "progress").
Qed.

Lemma run_loop_evolves (fuel : nat) (info : gmap string value) (self : t)
    (p : Popen) :
  ffmpeg self = Some (Some p) ->
  match run_loop fuel info self with
  | Ret _ self' => evolves self self' /\ unread self self'
  | Raise _ self' => evolves self self'
  | OutOfFuel => True
  end.
Proof.
  revert info self p.
  induction fuel as [|fuel IH]; intros info self p Hp; [done|].
  destruct (readline (stdout p)) as [line rest] eqn:Hline.
  pose proof (evolves_read_stdout self p rest Hp (readline_suffix _ _ _ Hline))
    as He1.
  pose proof (unread_read_stdout self p rest Hp) as Hu1.
  set (self1 := set_ffmpeg (Some (Some (with_stdout rest p))) self) in *.
  destruct (strip line) as [|c l] eqn:Hs.
  { by rewrite (run_loop_blank fuel info self p line rest). }
  assert (strip line <> "") as Hnb by (by rewrite Hs).
  destruct (split1_shape "=" (decode_ascii_ignore (strip line)))
    as [[_ Hone]|[_ (key & val & Htwo)]].
  { cbn [run_loop]. unfold mbind, M_bind, get, modify.
    rewrite Hp. cbn [readable]. rewrite Hline, Hs. rewrite <- Hs, Hone.
    by destruct (decode_ascii_ignore (strip line)). }
  rewrite (run_loop_field fuel info self p line rest key val) by done.
  cbv zeta. fold self1. destruct (String.eqb key "progress").
  - unfold mbind, M_bind.
    pose proof (process_info_evolves fuel (<[key:=VStr val]> info) self1) as H.
    destruct (process_info fuel _ self1) as [i self2|e self2|]; [| |done].
    + destruct H as (He2 & Hu2 & _).
      destruct (ev_handle _ _ He2 (with_stdout rest p) eq_refl)
        as (p2 & Hp2 & _).
      specialize (IH ∅ self2 p2 Hp2).
      destruct (run_loop fuel ∅ self2) as [[] self3|e self3|]; [| |done].
      * destruct IH as [He3 Hu3]. split.
        -- eauto using evolves_trans.
        -- eapply unread_trans; [| |done|].
           ++ done.
           ++ eauto using evolves_trans.
           ++ eapply unread_trans; eauto.
      * eauto using evolves_trans.
    + destruct H as [He2 _]. eauto using evolves_trans.
  - specialize (IH (<[key:=VStr val]> info) self1 (with_stdout rest p) eq_refl).
    destruct (run_loop fuel _ self1) as [[] self3|e self3|]; [| |done].
    + destruct IH as [He3 Hu3]. split; [eauto using evolves_trans|].
      eapply unread_trans; eauto.
    + eauto using evolves_trans.
Qed.

(** [run] up to the end of the drain loop. *)
Lemma run_unfold (proc : Popen) (fuel : nat) (self : t) :
  run proc fuel self
  = match run_loop fuel ∅ (set_ffmpeg (Some (Some proc)) self) with
    | Ret _ self2 =>
        match ffmpeg self2 with
        | Some (Some p) =>
            Ret tt (set_ffmpeg (Some None)
                      (set_stderr (Some (subprocess.stderr p))
                         (set_exitcode (Some (poll p)) self2)))
        | Some None => Raise (AttributeError "poll") self2
        | None => Raise (AttributeError "ffmpeg") self2
        end
    | Raise e self2 => Raise e self2
    | OutOfFuel => OutOfFuel
    end.
Proof.
  unfold run, mbind, M_bind, modify, get, raise.
  destruct (run_loop fuel ∅ _) as [[] self2|e self2|]; [|done|done].
  by destruct (ffmpeg self2) as [[p|]|].
Qed.

(** When [run] returns, the handle is released, the exit status is what
    [poll] answered, and the recorded diagnostic buffer is what was left
    unread on the diagnostic pipe: all of it when no duration was
    resolved. *)
Lemma run_returns (proc : Popen) (fuel : nat) (self self' : t) :
  run proc fuel self = Ret tt self' ->
  ffmpeg self' = Some None /\
  exitcode self' = Some (poll proc) /\
  exists b, stderr self' = Some b /\
    suffix_of b (subprocess.stderr proc) /\
    (_input_duration self' = None -> b = subprocess.stderr proc).
Proof.
  rewrite run_unfold.
  pose proof (run_loop_evolves fuel ∅ (set_ffmpeg (Some (Some proc)) self)
                proc eq_refl) as H.
  destruct (run_loop fuel ∅ _) as [[] self2|e self2|]; [|done|done].
  destruct H as [He Hu].
  destruct (ev_handle _ _ He proc eq_refl) as (p & Hp & Hrc & _ & Hsuf).
  rewrite Hp. intros [= <-]. simpl. split; [done|].
  split; [by unfold poll; rewrite Hrc|].
  exists (subprocess.stderr p). split; [done|]. split; [done|].
  intros Hnone. by apply (Hu Hnone proc p).
Qed.

(** When [run] raises, nothing has been recorded and the handle is
    still held. *)
Lemma run_raises (proc : Popen) (fuel : nat) (self self' : t) (e : exn) :
  run proc fuel self = Raise e self' ->
  exitcode self' = exitcode self /\ stderr self' = stderr self /\
  exists p, ffmpeg self' = Some (Some p).
Proof.
  rewrite run_unfold.
  pose proof (run_loop_evolves fuel ∅ (set_ffmpeg (Some (Some proc)) self)
                proc eq_refl) as H.
  destruct (run_loop fuel ∅ _) as [[] self2|e2 self2|]; [| |done].
  - destruct H as [He _].
    destruct (ev_handle _ _ He proc eq_refl) as (p & Hp & _).
    by rewrite Hp.
  - intros [= -> <-].
    destruct (ev_handle _ _ H proc eq_refl) as (p & Hp & _).
    rewrite (ev_exitcode _ _ H), (ev_stderr _ _ H). eauto.
Qed.

(** ** Fuel *)

(** Fuel only bounds the number of loop turns: an outcome other than
    [OutOfFuel] is the outcome for every larger amount. *)
Lemma input_duration_loop_more_fuel (fuel : nat) (self : t) :
  input_duration_loop fuel self <> OutOfFuel ->
  input_duration_loop (S fuel) self = input_duration_loop fuel self.
Proof.
  revert self. induction fuel as [|fuel IH]; intros self Hdef; [done|].
  revert Hdef. cbn [input_duration_loop].
  unfold mbind, M_bind, get, modify.
  destruct (ffmpeg self) as [[p|]|]; [|done|done].
  cbn [readable negb].
  destruct (readline (subprocess.stderr p)) as [line rest].
  destruct (duration_re_search (decode_ascii_ignore line)); [done|].
  apply IH.
Qed.

Lemma input_duration_more_fuel (fuel : nat) (self : t) :
  input_duration fuel self <> OutOfFuel ->
  input_duration (S fuel) self = input_duration fuel self.
Proof.
  unfold input_duration, mbind, M_bind, get.
  destruct (_input_duration self); [done|].
  destruct (ffmpeg self) as [[p|]|]; [|done|done].
  apply input_duration_loop_more_fuel.
Qed.

Lemma process_info_more_fuel (fuel : nat) (info : gmap string value)
    (self : t) :
  process_info fuel info self <> OutOfFuel ->
  process_info (S fuel) info self = process_info fuel info self.
Proof.
  unfold process_info. destruct (info !! "out_time_ms") as [v|]; [|done].
  unfold mbind, M_bind. destruct (float_ v self) as [x self1|e self1|]; try done.
  destruct (fltb zero x); [|done].
  intros Hdef.
  rewrite input_duration_more_fuel; [done|].
  intros H. by rewrite H in Hdef.
Qed.

(** One turn of the drain loop, written out. *)
Lemma run_loop_S (fuel : nat) (info : gmap string value) (self : t) :
  run_loop (S fuel) info self
  = match ffmpeg self with
    | Some (Some p) =>
        let '(line, rest) := readline (stdout p) in
        let self1 := set_ffmpeg (Some (Some (with_stdout rest p))) self in
        match strip line with
        | EmptyString => Ret tt self1
        | String _ _ as l =>
            match split1 "=" (decode_ascii_ignore l) with
            | [key; val] =>
                let info1 := <[key := VStr val]> info in
                if String.eqb key "progress" then
                  match process_info fuel info1 self1 with
                  | Ret _ self2 => run_loop fuel ∅ self2
                  | Raise e self2 => Raise e self2
                  | OutOfFuel => OutOfFuel
                  end
                else run_loop fuel info1 self1
            | _ => Raise ValueError self1
            end
        end
    | Some None => Raise (AttributeError "stdout") self
    | None => Raise (AttributeError "ffmpeg") self
    end.
Proof.
  cbn [run_loop]. unfold mbind at 1. unfold M_bind at 1. unfold get.
  destruct (ffmpeg self) as [[p|]|]; [|done|done].
  cbn [readable]. destruct (readline (stdout p)) as [line rest].
  unfold mbind at 1. unfold M_bind at 1. unfold modify at 1.
  destruct (strip line) as [|c l]; [done|].
  destruct (split1 "=" (decode_ascii_ignore (String c l)))
    as [|key [|val [|x1 l1]]]; try done.
  by destruct (String.eqb key "progress").
Qed.

Lemma run_loop_more_fuel (fuel : nat) (info : gmap string value) (self : t) :
  run_loop fuel info self <> OutOfFuel ->
  run_loop (S fuel) info self = run_loop fuel info self.
Proof.
  revert info self. induction fuel as [|fuel IH]; intros info self; [done|].
  rewrite (run_loop_S (S fuel)), (run_loop_S fuel).
  destruct (ffmpeg self) as [[p|]|]; [|done|done].
  destruct (readline (stdout p)) as [line rest]. cbv zeta.
  destruct (strip line) as [|c l]; [done|].
  destruct (split1 "=" (decode_ascii_ignore (String c l)))
    as [|key [|val [|x1 l1]]]; try done.
  destruct (String.eqb key "progress"); [|apply IH].
  intros Hdef.
  rewrite process_info_more_fuel; cycle 1.
  { intros H. by rewrite H in Hdef. }
  destruct (process_info fuel _ _) as [i self2|e self2|]; [|done|done].
  by apply IH.
Qed.

Lemma run_more_fuel (proc : Popen) (fuel : nat) (self : t) :
  run proc fuel self <> OutOfFuel ->
  run proc (S fuel) self = run proc fuel self.
Proof.
  rewrite !run_unfold. intros Hdef.
  rewrite run_loop_more_fuel; [done|].
  intros H. by rewrite H in Hdef.
Qed.

Lemma run_enough_fuel (proc : Popen) (fuel more : nat) (self : t) :
  run proc fuel self <> OutOfFuel ->
  run proc (more + fuel) self = run proc fuel self.
Proof.
  intros Hdef. induction more as [|more IH]; [done|].
  cbn [Nat.add]. rewrite run_more_fuel; [done|]. by rewrite IH.
Qed.

(** ** Progress blocks *)

(** A completed block whose [out_time_ms] is the integer [n], case by
    case. For [n <= 0] nothing is stored and nothing is called. For
    [n > 0] the outcome is that of the duration query: a non-zero [d]
    stores the ratio [(n / 1000000) / d] under ["done"] and calls each
    supplied callback once, [progress_f] first; a zero [d] raises
    [ZeroDivisionError]; a query that raises, or that does not come
    back, ends the call the same way; and in none of these three cases
    is anything called. *)
Lemma process_info_integer (fuel : nat) (info : gmap string value) (self : t)
    (s : string) (n : Z) :
  info !! "out_time_ms" = Some (VStr s) ->
  int_literal s = Some n ->
  (n <= 0 -> process_info fuel info self = Ret info self) /\
  (0 < n ->
   match input_duration fuel self with
   | Ret d self1 =>
       if is_zero d then
         process_info fuel info self = Raise ZeroDivisionError self1 /\
         calls self1 = calls self
       else
         let done := fdiv (fdiv (of_Z n) (of_Z 1000000)) d in
         let info' := <["done" := VFloat done]> info in
         exists self',
           process_info fuel info self = Ret info' self' /\
           calls self'
           = (calls self ++ (if progress_f self then [Progress done] else [])
                         ++ (if info_f self then [Info info'] else []))%list
   | Raise e self1 =>
       process_info fuel info self = Raise e self1 /\ calls self1 = calls self
   | OutOfFuel => process_info fuel info self = OutOfFuel
   end).
Proof.
  intros Hv Hn.
  destruct (float_of_int_literal s n Hn) as (x & Hx & Hsign & Hval).
  split.
  - intros Hle. apply (process_info_nonpositive fuel info self (VStr s) x);
      [done|done|]. rewrite Hsign. by apply Z.ltb_ge.
  - intros Hpos. rewrite (Hval Hpos) in Hx, Hsign.
    apply Z.ltb_lt in Hpos. rewrite Hpos in Hsign.
    change (float_of (VStr s) = Some (of_Z n)) in Hx.
    pose proof (input_duration_quiet fuel self) as Hq.
    destruct (input_duration fuel self) as [d self1|e self1|] eqn:Hd.
    + destruct (is_zero d) eqn:Hz.
      * split; [|by destruct Hq].
        unfold process_info, float_, truediv, mbind, M_bind, mret, M_ret, raise.
        by rewrite Hv, Hx, Hsign, Hd, Hz.
      * by apply (process_info_positive fuel info self self1 (VStr s)).
    + split; [|by destruct Hq].
      unfold process_info, float_, truediv, mbind, M_bind, mret, M_ret.
      by rewrite Hv, Hx, Hsign, Hd.
    + unfold process_info, float_, truediv, mbind, M_bind, mret, M_ret.
      by rewrite Hv, Hx, Hsign, Hd.
Qed.

(** A call log that has grown is not the log it grew from. *)
Lemma calls_grown (l new : list event) (e : event) :
  l <> (l ++ new ++ [e])%list.
Proof.
  intros H. apply (f_equal length) in H.
  rewrite !length_app in H. simpl in H. lia.
Qed.

(** C1, as amended. For a completed block whose [out_time_ms] is the
    integer [n], with a progress callback supplied: the callback is
    called exactly when [n > 0] and the input duration resolves to a
    non-zero [d]; it is then called once, with [(n / 1000000) / d],
    unclamped, and that ratio is stored under ["done"]. For [n <= 0] the
    block is left without a ratio and nothing is called. For [n > 0]
    and a duration that resolves to zero the call raises
    [ZeroDivisionError]; where the duration query raises, so does the
    call; where it does not come back, neither does the call; and in
    these three cases nothing is called. *)
Theorem progress_callback_fired_iff
    (fuel : nat) (info : gmap string value) (self : t) (s : string) (n : Z) :
  progress_f self = true ->
  info !! "out_time_ms" = Some (VStr s) ->
  int_literal s = Some n ->
  ((exists info' self' done rest,
      process_info fuel info self = Ret info' self' /\
      calls self' = (calls self ++ Progress done :: rest)%list)
   <-> 0 < n /\ exists d self1,
         input_duration fuel self = Ret d self1 /\ is_zero d = false) /\
  (forall d self1,
     0 < n -> input_duration fuel self = Ret d self1 -> is_zero d = false ->
     let done := fdiv (fdiv (of_Z n) (of_Z 1000000)) d in
     let info' := <["done" := VFloat done]> info in
     exists self',
       process_info fuel info self = Ret info' self' /\
       calls self'
       = (calls self
          ++ Progress done :: (if info_f self then [Info info'] else []))%list) /\
  (n <= 0 -> process_info fuel info self = Ret info self) /\
  (forall d self1,
     0 < n -> input_duration fuel self = Ret d self1 -> is_zero d = true ->
     process_info fuel info self = Raise ZeroDivisionError self1 /\
     calls self1 = calls self) /\
  (forall e self1,
     0 < n -> input_duration fuel self = Raise e self1 ->
     process_info fuel info self = Raise e self1 /\ calls self1 = calls self) /\
  (0 < n -> input_duration fuel self = OutOfFuel ->
   process_info fuel info self = OutOfFuel).
Proof.
  intros Hpf Hv Hn.
  destruct (process_info_integer fuel info self s n Hv Hn) as [Hle Hpos].
  rewrite Hpf in Hpos.
  split; [split|repeat split].
  - intros (info' & self' & ratio & rest & Hrun & Hcalls).
    destruct (Z.lt_ge_cases 0 n) as [Hn0|Hn0].
    + split; [done|]. specialize (Hpos Hn0).
      destruct (input_duration fuel self) as [d self1|e self1|];
        [|destruct Hpos; congruence|congruence].
      destruct (is_zero d) eqn:Hz; [destruct Hpos; congruence|].
      by exists d, self1.
    + rewrite (Hle Hn0) in Hrun. injection Hrun as <- <-.
      destruct rest as [|e rest _] using rev_ind.
      * by destruct (calls_grown (calls self) [] (Progress ratio)).
      * by destruct (calls_grown (calls self) (Progress ratio :: rest) e).
  - intros (Hn0 & d & self1 & Hd & Hz). specialize (Hpos Hn0).
    rewrite Hd, Hz in Hpos. destruct Hpos as (self' & Hrun & Hcalls).
    by eexists _, self', _, _.
  - intros d self1 Hn0 Hd Hz. specialize (Hpos Hn0). by rewrite Hd, Hz in Hpos.
  - done.
  - specialize (Hpos H). rewrite H0, H1 in Hpos. by destruct Hpos.
  - specialize (Hpos H). rewrite H0, H1 in Hpos. by destruct Hpos.
  - specialize (Hpos H). rewrite H0 in Hpos. by destruct Hpos.
  - specialize (Hpos H). rewrite H0 in Hpos. by destruct Hpos.
  - intros Hn0 Hd. specialize (Hpos Hn0). by rewrite Hd in Hpos.
Qed.

(** C2, as amended. For a completed block whose [out_time_ms] is the
    integer [n], with an info callback supplied: the callback is called
    exactly when [n > 0] and the input duration resolves to a non-zero
    [d]; it is then called once, after the progress callback, with the
    decoded mapping and the ratio under ["done"]. In every other case,
    [n <= 0], a duration that resolves to zero, a duration query that
    raises or that does not come back, it is not called. *)
Theorem info_callback_fired_iff
    (fuel : nat) (info : gmap string value) (self : t) (s : string) (n : Z) :
  info_f self = true ->
  info !! "out_time_ms" = Some (VStr s) ->
  int_literal s = Some n ->
  ((exists info' self' before,
      process_info fuel info self = Ret info' self' /\
      calls self' = (calls self ++ before ++ [Info info'])%list)
   <-> 0 < n /\ exists d self1,
         input_duration fuel self = Ret d self1 /\ is_zero d = false) /\
  (forall d self1,
     0 < n -> input_duration fuel self = Ret d self1 -> is_zero d = false ->
     let done := fdiv (fdiv (of_Z n) (of_Z 1000000)) d in
     let info' := <["done" := VFloat done]> info in
     info' !! "done" = Some (VFloat done) /\
     (forall k, k <> "done" -> info' !! k = info !! k) /\
     exists self',
       process_info fuel info self = Ret info' self' /\
       calls self'
       = (calls self ++ (if progress_f self then [Progress done] else [])
                     ++ [Info info'])%list) /\
  (n <= 0 -> process_info fuel info self = Ret info self) /\
  (forall d self1,
     0 < n -> input_duration fuel self = Ret d self1 -> is_zero d = true ->
     process_info fuel info self = Raise ZeroDivisionError self1 /\
     calls self1 = calls self) /\
  (forall e self1,
     0 < n -> input_duration fuel self = Raise e self1 ->
     process_info fuel info self = Raise e self1 /\ calls self1 = calls self) /\
  (0 < n -> input_duration fuel self = OutOfFuel ->
   process_info fuel info self = OutOfFuel).
Proof.
  intros Hif Hv Hn.
  destruct (process_info_integer fuel info self s n Hv Hn) as [Hle Hpos].
  rewrite Hif in Hpos.
  split; [split|repeat split].
  - intros (info' & self' & before & Hrun & Hcalls).
    destruct (Z.lt_ge_cases 0 n) as [Hn0|Hn0].
    + split; [done|]. specialize (Hpos Hn0).
      destruct (input_duration fuel self) as [d self1|e self1|];
        [|destruct Hpos; congruence|congruence].
      destruct (is_zero d) eqn:Hz; [destruct Hpos; congruence|].
      by exists d, self1.
    + rewrite (Hle Hn0) in Hrun. injection Hrun as <- <-.
      by destruct (calls_grown (calls self) before (Info info)).
  - intros (Hn0 & d & self1 & Hd & Hz). specialize (Hpos Hn0).
    rewrite Hd, Hz in Hpos. destruct Hpos as (self' & Hrun & Hcalls).
    by eexists _, self', _.
  - by rewrite lookup_insert_eq.
  - intros k Hk. by apply lookup_insert_ne.
  - specialize (Hpos H). by rewrite H0, H1 in Hpos.
  - done.
  - specialize (Hpos H). rewrite H0, H1 in Hpos. by destruct Hpos.
  - specialize (Hpos H). rewrite H0, H1 in Hpos. by destruct Hpos.
  - specialize (Hpos H). rewrite H0 in Hpos. by destruct Hpos.
  - specialize (Hpos H). rewrite H0 in Hpos. by destruct Hpos.
  - intros Hn0 Hd. specialize (Hpos Hn0). by rewrite Hd in Hpos.
Qed.

(** Twenty seconds into a ten-second input: the callback gets the ratio
    2.0, above 1, and so does the dictionary. *)
Lemma progress_callback_fired_iff_witness :
  let info := block "20000000" "continue" in
  let self := started (sample_handle "" None) in
  let two := S754_finite false 4503599627370496 (-51) in
  exists self',
    process_info 2 info self = Ret (<["done" := VFloat two]> info) self' /\
    calls self' = [Progress two; Info (<["done" := VFloat two]> info)].
Proof.
  intros info self two.
  destruct (progress_callback_fired_iff 2 info self "20000000" 20000000)
    as (_ & Hfired & _); [reflexivity|reflexivity|reflexivity|].
  edestruct Hfired as (self' & Hrun & Hcalls);
    [reflexivity|vm_compute; reflexivity|reflexivity|].
  exists self'. split; [exact Hrun|exact Hcalls].
Defined.

(** Half a second into a ten-second input: the dictionary handed to the
    callback holds the two fields read and the ratio 0.05. *)
Lemma info_callback_fired_iff_witness :
  let info := block "500000" "continue" in
  let self := started (sample_handle "" None) in
  let ratio := S754_finite false 7205759403792794 (-57) in
  let info' := <["done" := VFloat ratio]> info in
  info' !! "done" = Some (VFloat ratio) /\
  info' !! "out_time_ms" = Some (VStr "500000") /\
  info' !! "progress" = Some (VStr "continue") /\
  exists self',
    process_info 2 info self = Ret info' self' /\
    calls self' = [Progress ratio; Info info'].
Proof.
  intros info self ratio info'.
  destruct (info_callback_fired_iff 2 info self "500000" 500000)
    as (_ & Hfired & _); [reflexivity|reflexivity|reflexivity|].
  edestruct Hfired as (Hdone & Hkeep & self' & Hrun & Hcalls);
    [reflexivity|vm_compute; reflexivity|reflexivity|].
  split; [exact Hdone|]. split; [by rewrite Hkeep|].
  split; [by rewrite Hkeep|].
  exists self'. split; [exact Hrun|exact Hcalls].
Defined.

(** A completed block with a strictly positive [out_time_ms] on an
    input whose duration reads [00:00:00.00]: the division raises and
    the progress callback is not called. *)
Lemma progress_callback_skipped_at_zero_duration :
  let p := {| stdout := "out_time_ms=500000" ++ LF ++ "progress=continue" ++ LF;
              subprocess.stderr :=
                "  Duration: 00:00:00.00, start: 0.000000, bitrate: N/A" ++ LF;
              returncode := None |} in
  exists self',
    run p 3 (__init__ true true) = Raise ZeroDivisionError self' /\
    calls self' = [].
Proof.
  eexists. split; [vm_compute; reflexivity|reflexivity].
Qed.

(** A completed block with [out_time_ms=0] reaches neither callback:
    the run ends without a single call. *)
Lemma info_callback_skipped_at_zero :
  let p := sample_handle ("out_time_ms=0" ++ LF ++ "progress=continue" ++ LF)
             (Some 0) in
  exists self',
    run p 3 (__init__ true true) = Ret tt self' /\ calls self' = [].
Proof.
  eexists. split; [vm_compute; reflexivity|reflexivity].
Qed.

(** ** The terminal state *)

Lemma decode_ascii_id (s : string) :
  all is_ascii s = true -> decode_ascii_ignore s = s.
Proof.
  induction s as [|c s IH]; simpl; [done|].
  unfold is_ascii at 1. intros [-> Hs]%andb_true_iff. by rewrite (IH Hs).
Qed.

(** [exception] on a state with a recorded exit status. *)
Lemma exception_recorded (self : t) (c : option Z) (b : string) :
  exitcode self = Some c -> stderr self = Some b ->
  exception self
  = Ret (if truthy c then Some (FFMPEGError.__init__ c b) else None) self.
Proof.
  intros Hc Hb. unfold exception, mbind, M_bind, get, mret, M_ret.
  rewrite Hc, Hb. by destruct (truthy c).
Qed.

Lemma readline_lines (s line rest : string) :
  s <> "" -> readline s = (line, rest) -> lines s = line :: lines rest.
Proof.
  revert line rest. induction s as [|c s IH]; intros line rest Hne; [done|].
  simpl. destruct (Ascii.eqb c "010"); [by intros [= <- <-]|].
  destruct (readline s) as [l r] eqn:Hl. intros [= <- <-].
  destruct s as [|c' s'].
  - by injection Hl as <- <-.
  - by rewrite (IH l r).
Qed.

Lemma readline_empty (s line rest : string) :
  readline s = (line, rest) -> strip line <> "" -> s <> "".
Proof. intros H Hnb ->. by injection H as <- <-. Qed.

Lemma join_lines (s : string) : join (lines s) = s.
Proof.
  induction s as [|c s IH]; [done|]. simpl.
  destruct (Ascii.eqb c "010"); simpl; [by rewrite IH|].
  destruct (lines s) as [|l ls]; simpl in *; by rewrite <- IH.
Qed.

(** One line read off a stream: where the text behind the first marker
    is to be found. *)
Lemma after_first_marker_readline (s line rest : string) :
  readline s = (line, rest) ->
  match duration_re_search (decode_ascii_ignore line) with
  | Some _ => after_first_marker (lines s) = Some rest
  | None => after_first_marker (lines s) = after_first_marker (lines rest)
  end.
Proof.
  intros Hline. destruct s as [|c s].
  { by injection Hline as <- <-. }
  rewrite (readline_lines _ line rest) by done.
  cbn [after_first_marker].
  destruct (duration_re_search (decode_ascii_ignore line)); [|done].
  by rewrite join_lines.
Qed.

(** The loop of [input_duration] returns right behind the first line on
    which the pattern matches. *)
Lemma input_duration_loop_marker (fuel : nat) (self self' : t) (p : Popen)
    (d : float) :
  ffmpeg self = Some (Some p) ->
  input_duration_loop fuel self = Ret d self' ->
  exists r,
    after_first_marker (lines (subprocess.stderr p)) = Some r /\
    ffmpeg self' = Some (Some (with_stderr r p)) /\
    _input_duration self' = Some d.
Proof.
  revert self p. induction fuel as [|fuel IH]; intros self p Hp; [done|].
  cbn [input_duration_loop]. unfold mbind, M_bind, get, modify, raise.
  rewrite Hp. cbn [readable negb].
  destruct (readline (subprocess.stderr p)) as [line rest] eqn:Hline.
  pose proof (after_first_marker_readline _ _ _ Hline) as Hafter.
  destruct (duration_re_search (decode_ascii_ignore line)) as [g|].
  - destruct (split "." g) as [|time [|partial [|x1 l1]]]; try done.
    unfold float_, float_of, raise, mret, M_ret.
    destruct (float_of_str ("0." ++ partial)); [|done].
    destruct (split ":" time) as [|hh [|mm [|ss [|x2 l2]]]]; try done.
    destruct (float_of_str hh); [|done].
    destruct (float_of_str mm); [|done].
    destruct (float_of_str ss); [|done].
    intros [= <- <-]. by exists rest.
  - intros Hrun.
    destruct (IH (set_ffmpeg (Some (Some (with_stderr rest p))) self)
                (with_stderr rest p) eq_refl Hrun) as (r & Hr & Hf & Hd).
    exists r. by rewrite Hafter.
Qed.

Lemma process_info_diagnostic (proc : Popen) (fuel : nat)
    (info info' : gmap string value) (self self' : t) :
  diagnostic_at proc self ->
  process_info fuel info self = Ret info' self' ->
  diagnostic_at proc self'.
Proof.
  intros (p & Hp & Hleft). unfold process_info.
  destruct (info !! "out_time_ms") as [v|]; [|done].
  unfold float_, truediv, mbind, M_bind, mret, M_ret, raise.
  destruct (float_of v) as [x|]; [|done].
  destruct (fltb zero x); [|intros [= <- <-]; by exists p].
  assert (forall d self1, input_duration fuel self = Ret d self1 ->
            diagnostic_at proc self1) as Hdur.
  { intros d self1. unfold input_duration, mbind, M_bind, get, mret, M_ret.
    destruct (_input_duration self) as [c|] eqn:Hc.
    - intros [= <- <-]. exists p. by rewrite Hc.
    - rewrite Hp. intros Hloop.
      destruct (input_duration_loop_marker _ _ _ _ _ Hp Hloop)
        as (r & Hr & Hf & Hd).
      exists (with_stderr r p). split; [done|]. rewrite Hd. simpl.
      simpl in Hleft. by rewrite <- Hleft. }
  destruct (input_duration fuel self) as [d self1|e self1|]; [|done|done].
  destruct (Hdur d self1 eq_refl) as (p1 & Hp1 & Hleft1).
  destruct (is_zero d); [done|].
  set (ratio := fdiv _ d). set (info1 := <["done" := _]> info).
  destruct (indicate_progress_evolves ratio info1 self1)
    as (self2 & -> & _ & Hd2 & Hf2 & _).
  intros [= <- <-]. exists p1. by rewrite Hf2, Hd2.
Qed.

(** Through the drain loop the diagnostic pipe is read by the first
    duration query only. *)
Lemma run_loop_diagnostic (proc : Popen) (fuel : nat)
    (info : gmap string value) (self self' : t) :
  diagnostic_at proc self ->
  run_loop fuel info self = Ret tt self' ->
  diagnostic_at proc self'.
Proof.
  revert info self.
  induction fuel as [|fuel IH]; intros info self (p & Hp & Hleft); [done|].
  rewrite run_loop_S, Hp.
  destruct (readline (stdout p)) as [line rest]. cbv zeta.
  assert (diagnostic_at proc
            (set_ffmpeg (Some (Some (with_stdout rest p))) self)) as H1.
  { by exists (with_stdout rest p). }
  destruct (strip line) as [|c l]; [by intros [= <-]|].
  destruct (split1 "=" (decode_ascii_ignore (String c l)))
    as [|key [|val [|x1 l1]]]; try done.
  destruct (String.eqb key "progress"); [|by apply IH].
  destruct (process_info fuel _ _) as [i self2|e self2|] eqn:Hproc;
    [|done|done].
  apply IH. by eapply process_info_diagnostic.
Qed.

(** The buffer that a run records, read off the diagnostic stream. *)
Lemma run_recorded_buffer (proc : Popen) (fuel : nat) (pf inf : bool)
    (self' : t) :
  run proc fuel (__init__ pf inf) = Ret tt self' ->
  exists b, stderr self' = Some b /\
    diagnostic_left proc (_input_duration self') b.
Proof.
  rewrite run_unfold.
  destruct (run_loop fuel ∅ _) as [[] self2|e self2|] eqn:Hloop; [|done|done].
  apply run_loop_diagnostic with (proc := proc) in Hloop;
    [|by exists proc].
  destruct Hloop as (p & Hp & Hleft). rewrite Hp. intros [= <-].
  by exists (subprocess.stderr p).
Qed.

(** C3, as amended. After a run that returned, a terminal error is
    present exactly when [poll] answered a non-zero integer; it carries
    that status and what the run had left unread of the diagnostic
    stream: all of it when no duration was resolved, and otherwise
    exactly the text behind the first line on which the duration
    pattern matches. Its string form is that buffer with the non-ASCII
    bytes dropped, hence the buffer itself when it is ASCII. *)
Theorem terminal_error_after_run
    (proc : Popen) (fuel : nat) (pf inf : bool) (self' : t) :
  run proc fuel (__init__ pf inf) = Ret tt self' ->
  exists r,
    exception self' = Ret r self' /\
    (is_Some r <-> exists z, poll proc = Some z /\ z <> 0) /\
    forall e, r = Some e ->
      FFMPEGError.exitcode e = poll proc /\
      suffix_of (FFMPEGError.stderr e) (subprocess.stderr proc) /\
      (_input_duration self' = None ->
       FFMPEGError.stderr e = subprocess.stderr proc) /\
      (forall d, _input_duration self' = Some d ->
         after_first_marker (lines (subprocess.stderr proc))
         = Some (FFMPEGError.stderr e)) /\
      FFMPEGError.__str__ e = decode_ascii_ignore (FFMPEGError.stderr e) /\
      (all is_ascii (FFMPEGError.stderr e) = true ->
       FFMPEGError.__str__ e = FFMPEGError.stderr e).
Proof.
  intros Hrun.
  destruct (run_returns _ _ _ _ Hrun) as (_ & Hc & b & Hb & Hsuf & Hfull).
  destruct (run_recorded_buffer _ _ _ _ _ Hrun) as (b' & Hb' & Hleft).
  rewrite Hb in Hb'. injection Hb' as <-.
  rewrite (exception_recorded self' (poll proc) b Hc Hb).
  eexists. split; [done|]. split.
  - destruct (poll proc) as [z|]; simpl.
    + destruct (Z.eqb_spec z 0) as [->|Hz]; simpl.
      * split; [by intros [? ?]|]. by intros (z & [= <-] & ?).
      * split; [by eauto|]. by eauto.
    + split; [by intros [? ?]|]. by intros (z & ? & ?).
  - intros e He. destruct (truthy (poll proc)); [|done].
    injection He as <-. simpl. repeat split; try done.
    + intros d Hd. by rewrite Hd in Hleft.
    + apply decode_ascii_id.
Qed.

(** The end-to-end scenario: exit status 1 and the diagnostic text
    [fatal error]. And the sample run with one positive block and exit
    status 1: the error holds what follows the duration line. *)
Lemma terminal_error_after_run_witness :
  (let proc := {| stdout := ""; subprocess.stderr := "fatal error";
                  returncode := Some 1 |} in
   exists self' e,
     run proc 1 (__init__ true true) = Ret tt self' /\
     exception self' = Ret (Some e) self' /\
     FFMPEGError.exitcode e = Some 1 /\
     FFMPEGError.__str__ e = "fatal error") /\
  (let proc := sample_handle
                 ("out_time_ms=500000" ++ LF ++ "progress=continue" ++ LF)
                 (Some 1) in
   exists self' e,
     run proc 4 (__init__ true true) = Ret tt self' /\
     exception self' = Ret (Some e) self' /\
     FFMPEGError.exitcode e = Some 1 /\
     FFMPEGError.stderr e = "fatal error" ++ LF).
Proof.
  split.
  - intros proc.
    assert (run proc 1 (__init__ true true)
            = Ret tt (set_ffmpeg (Some None)
                        (set_stderr (Some "fatal error")
                           (set_exitcode (Some (Some 1)) (started proc)))))
      as Hrun by reflexivity.
    destruct (terminal_error_after_run proc 1 true true _ Hrun)
      as (r & Hr & [_ Hsome] & Hcar).
    destruct Hsome as [e ->]; [by exists 1|].
    destruct (Hcar e eq_refl) as (Hc & _ & Hfull & _ & _ & Hstr).
    eexists _, e. split; [exact Hrun|]. split; [exact Hr|].
    split; [exact Hc|].
    rewrite Hstr; rewrite (Hfull eq_refl); reflexivity.
  - intros proc.
    eassert (run proc 4 (__init__ true true) = Ret tt _) as Hrun
      by (vm_compute; reflexivity).
    destruct (terminal_error_after_run proc 4 true true _ Hrun)
      as (r & Hr & [_ Hsome] & Hcar).
    destruct Hsome as [e ->]; [by exists 1|].
    destruct (Hcar e eq_refl) as (Hc & _ & _ & Hafter & _).
    specialize (Hafter _ eq_refl). injection Hafter as Hbuf.
    eexists _, e. split; [exact Hrun|]. split; [exact Hr|].
    split; [exact Hc|]. symmetry. exact Hbuf.
Defined.

(** The diagnostic lines read while resolving the duration are not in
    the terminal error: the stream held three lines, the error holds
    the last. *)
Lemma terminal_error_misses_read_lines :
  let proc := sample_handle
                ("out_time_ms=500000" ++ LF ++ "progress=continue" ++ LF)
                (Some 1) in
  exists self' e,
    run proc 4 (__init__ true true) = Ret tt self' /\
    exception self' = Ret (Some e) self' /\
    FFMPEGError.stderr e = "fatal error" ++ LF /\
    FFMPEGError.stderr e <> subprocess.stderr proc.
Proof.
  eexists _, _. split; [vm_compute; reflexivity|].
  split; [reflexivity|]. split; [reflexivity|]. discriminate.
Qed.

(** C7, as amended. [exception] raises [IOError] as long as no exit
    status is recorded; once [run] has returned with the status [z] it
    returns [None] for [z = 0] and the [FFMPEGError] carrying [z] and
    the recorded diagnostic buffer otherwise. *)
Theorem exception_by_recorded_status :
  (forall self, exitcode self = None ->
     exception self = Raise (IOError "ffmpeg didn’t finish(, yet).") self) /\
  (forall self z b,
     exitcode self = Some (Some z) -> stderr self = Some b ->
     exception self
     = Ret (if z =? 0 then None
            else Some (FFMPEGError.__init__ (Some z) b)) self) /\
  (forall proc fuel pf inf self' z,
     run proc fuel (__init__ pf inf) = Ret tt self' ->
     poll proc = Some z ->
     exists b, stderr self' = Some b /\
       exception self'
       = Ret (if z =? 0 then None
              else Some (FFMPEGError.__init__ (Some z) b)) self').
Proof.
  assert (forall self z b,
     exitcode self = Some (Some z) -> stderr self = Some b ->
     exception self
     = Ret (if z =? 0 then None
            else Some (FFMPEGError.__init__ (Some z) b)) self) as Hrec.
  { intros self z b Hc Hb. rewrite (exception_recorded self (Some z) b Hc Hb).
    simpl. by destruct (z =? 0). }
  split; [|split; [exact Hrec|]].
  - intros self Hc. unfold exception, mbind, M_bind, get. by rewrite Hc.
  - intros proc fuel pf inf self' z Hrun Hpoll.
    destruct (run_returns _ _ _ _ Hrun) as (_ & Hc & b & Hb & _).
    exists b. split; [done|]. apply Hrec; [|done]. by rewrite Hc, Hpoll.
Qed.

Lemma exception_by_recorded_status_witness :
  exception (started (sample_handle "" None))
  = Raise (IOError "ffmpeg didn’t finish(, yet).")
      (started (sample_handle "" None)) /\
  (let self := set_stderr (Some "fatal error")
                 (set_exitcode (Some (Some 1)) (__init__ true true)) in
   exception self
   = Ret (Some (FFMPEGError.__init__ (Some 1) "fatal error")) self) /\
  (let self := set_stderr (Some "")
                 (set_exitcode (Some (Some 0)) (__init__ true true)) in
   exception self = Ret None self).
Proof.
  destruct exception_by_recorded_status as (Hnone & Hrec & _).
  split; [|split].
  - apply Hnone. reflexivity.
  - apply (Hrec _ 1 "fatal error"); reflexivity.
  - apply (Hrec _ 0 ""); reflexivity.
Defined.

(** Queried on a thread whose subprocess has been spawned and has not
    finished, [exception] raises instead of returning [None]. *)
Lemma exception_raises_while_running :
  exists e self',
    exception (started (sample_handle "" None)) = Raise e self' /\
    exception (started (sample_handle "" None))
    <> Ret None (started (sample_handle "" None)).
Proof. eexists _, _. split; [reflexivity|discriminate]. Qed.

(** ** Duration queries without a marker *)

(** Without a marker on the diagnostic stream the accessor never comes
    back, whatever the number of turns granted to its loop. *)
Lemma input_duration_no_marker (fuel : nat) (self : t) (p : Popen) :
  _input_duration self = None ->
  ffmpeg self = Some (Some p) ->
  no_marker (subprocess.stderr p) ->
  input_duration fuel self = OutOfFuel.
Proof.
  intros Hd Hp Hno. unfold input_duration, mbind, M_bind, get.
  rewrite Hd, Hp. by apply (input_duration_loop_no_marker fuel self p).
Qed.

Lemma process_info_no_marker (fuel : nat) (info : gmap string value)
    (self : t) (p : Popen) (v : value) (x : float) :
  info !! "out_time_ms" = Some v -> float_of v = Some x ->
  fltb zero x = true ->
  _input_duration self = None ->
  ffmpeg self = Some (Some p) ->
  no_marker (subprocess.stderr p) ->
  process_info fuel info self = OutOfFuel.
Proof.
  intros Hv Hx Hpos Hd Hp Hno.
  unfold process_info, float_, mbind, M_bind, mret, M_ret.
  rewrite Hv, Hx, Hpos. by rewrite (input_duration_no_marker fuel self p).
Qed.

(** C5. For an input whose duration ffmpeg prints as [N/A], the
    diagnostic stream ends without a marker; the accessor, and with it
    the run that asks for the duration at the first positive block,
    does not terminate: no amount of fuel yields a value or an error. *)
Theorem input_duration_blocks_forever (fuel : nat) :
  input_duration fuel (started live_input_handle) = OutOfFuel /\
  run live_input_handle fuel (__init__ true true) = OutOfFuel.
Proof.
  assert (no_marker (subprocess.stderr live_input_handle)) as Hno.
  { eapply no_marker_line; [reflexivity|reflexivity|constructor]. }
  split.
  - by apply (input_duration_no_marker fuel _ live_input_handle).
  - rewrite run_unfold. fold (started live_input_handle).
    destruct fuel as [|[|fuel]]; [done|done|].
    rewrite (run_loop_field (S fuel) ∅ _ live_input_handle
               ("out_time_ms=500000" ++ LF) ("progress=continue" ++ LF)
               "out_time_ms" "500000") by done.
    cbv zeta. change (String.eqb "out_time_ms" "progress") with false.
    cbv iota.
    rewrite (run_loop_field fuel _ _
               (with_stdout ("progress=continue" ++ LF) live_input_handle)
               ("progress=continue" ++ LF) ""
               "progress" "continue") by done.
    cbv zeta. change (String.eqb "progress" "progress") with true.
    cbv iota. unfold mbind, M_bind.
    set (self1 := set_ffmpeg _ (set_ffmpeg _ _)).
    set (info := <["progress" := _]> _).
    assert (process_info fuel info self1 = OutOfFuel) as ->; [|done].
    by apply (process_info_no_marker fuel info self1
                (with_stdout "" live_input_handle)
                (VStr "500000") (of_Z 500000)).
Qed.

(** C6. Once the handle has been released and no duration is cached,
    asking for the input duration raises [IOError]; no value is
    returned. *)
Theorem input_duration_after_teardown (fuel : nat) (self : t) :
  _input_duration self = None ->
  ffmpeg self = Some None ->
  input_duration fuel self
  = Raise (IOError "ffmpeg never got as far as reading the duration.") self.
Proof.
  intros Hd Hp. unfold input_duration, mbind, M_bind, get.
  by rewrite Hd, Hp.
Qed.

(** A run that saw no positive block leaves such a state behind. *)
Lemma input_duration_after_teardown_witness :
  exists self',
    run (sample_handle ("out_time_ms=0" ++ LF ++ "progress=end" ++ LF)
           (Some 0)) 3 (__init__ true true) = Ret tt self' /\
    _input_duration self' = None /\ ffmpeg self' = Some None /\
    input_duration 5 self'
    = Raise (IOError "ffmpeg never got as far as reading the duration.")
        self'.
Proof.
  eexists. split; [vm_compute; reflexivity|].
  split; [reflexivity|]. split; [reflexivity|].
  apply input_duration_after_teardown; reflexivity.
Defined.

(** ** Lines of the progress channel *)

Lemma all_lstrip (p q : ascii -> bool) (s : string) :
  all p s = true -> all p (lstrip q s) = true.
Proof.
  induction s as [|c s IH]; simpl; [done|].
  intros H. destruct (q c); [|done].
  apply andb_true_iff in H as [_ H]. by apply IH.
Qed.

Lemma all_rstrip (p q : ascii -> bool) (s : string) :
  all p s = true -> all p (rstrip q s) = true.
Proof.
  induction s as [|c s IH]; simpl; [done|].
  intros [Hc Hs]%andb_true_iff. specialize (IH Hs).
  destruct (rstrip q s) as [|c' r].
  - destruct (q c); simpl; [done|]. by rewrite Hc.
  - change (all p (String c (String c' r)))
      with (p c && all p (String c' r)). by rewrite Hc, IH.
Qed.

Lemma all_strip (p : ascii -> bool) (s : string) :
  all p s = true -> all p (strip s) = true.
Proof. intros H. by apply all_lstrip, all_rstrip. Qed.

(** C8, as amended. A line of the progress channel without [=] ends the
    drain loop normally when it is blank (nothing but white space, or
    the empty read at end of file); when it is not blank the unpacking
    of [split] raises [ValueError] out of the loop. *)
Theorem drain_loop_line_without_separator
    (fuel : nat) (info : gmap string value) (self : t) (p : Popen)
    (line rest : string) :
  ffmpeg self = Some (Some p) ->
  readline (stdout p) = (line, rest) ->
  all (is_not "=") line = true ->
  run_loop (S fuel) info self
  = match strip line with
    | EmptyString =>
        Ret tt (set_ffmpeg (Some (Some (with_stdout rest p))) self)
    | String _ _ =>
        Raise ValueError (set_ffmpeg (Some (Some (with_stdout rest p))) self)
    end.
Proof.
  intros Hp Hline Hsep.
  destruct (strip line) as [|c l] eqn:Hs.
  - by apply (run_loop_blank fuel info self p line rest).
  - apply (run_loop_no_separator fuel info self p line rest Hp Hline).
    + by rewrite Hs.
    + by apply all_strip.
Qed.

Lemma drain_loop_line_without_separator_witness :
  (let p := sample_handle (LF ++ "progress=end" ++ LF) None in
   run_loop 1 ∅ (started p)
   = Ret tt (started (sample_handle ("progress=end" ++ LF) None))) /\
  (let p := sample_handle "" None in
   run_loop 1 ∅ (started p) = Ret tt (started p)) /\
  (let p := sample_handle ("frame 12 fps 25" ++ LF ++ "progress=end" ++ LF)
              None in
   run_loop 1 ∅ (started p)
   = Raise ValueError (started (sample_handle ("progress=end" ++ LF) None))).
Proof.
  split; [|split]; intros p.
  - exact (drain_loop_line_without_separator 0 ∅ (started p) p
             LF ("progress=end" ++ LF) eq_refl eq_refl eq_refl).
  - exact (drain_loop_line_without_separator 0 ∅ (started p) p
             "" "" eq_refl eq_refl eq_refl).
  - exact (drain_loop_line_without_separator 0 ∅ (started p) p
             ("frame 12 fps 25" ++ LF) ("progress=end" ++ LF)
             eq_refl eq_refl eq_refl).
Defined.

(** A line that is not blank and has no [=] does not stop the decoder
    gracefully: [run] raises and records nothing. *)
Lemma malformed_line_raises :
  let p := sample_handle ("frame 12 fps 25" ++ LF ++ "progress=end" ++ LF)
             (Some 0) in
  exists self',
    run p 5 (__init__ true true) = Raise ValueError self' /\
    exitcode self' = None.
Proof. eexists. split; [vm_compute; reflexivity|reflexivity]. Qed.

(** ** The exit status *)

(** C9. [run] records what [poll] answers when the progress channel
    closes. A subprocess that has closed its progress channel and not
    yet terminated leaves Python's [None] as recorded exit status, after
    which [exception] reports no error. *)
Theorem exit_status_polled_before_exit :
  let p := sample_handle ("out_time_ms=500000" ++ LF ++ "progress=end" ++ LF)
             None in
  exists self',
    run p 4 (__init__ true true) = Ret tt self' /\
    exitcode self' = Some None /\
    ffmpeg self' = Some None /\
    exception self' = Ret None self'.
Proof.
  eexists. split; [vm_compute; reflexivity|]. by repeat split.
Qed.

(** ** Blocks without [out_time_ms] *)

Lemma has_out_time_ms_insert (info : gmap string value) (key val : string) :
  has_out_time_ms (<[key := VStr val]> info)
  = has_out_time_ms info || String.eqb key "out_time_ms".
Proof.
  unfold has_out_time_ms. destruct (String.eqb_spec key "out_time_ms") as [->|].
  - rewrite lookup_insert_eq. by rewrite orb_true_r.
  - rewrite lookup_insert_ne by done. by rewrite orb_false_r.
Qed.

(** On such a stream the drain loop does not raise [KeyError]. *)
Lemma run_loop_no_KeyError (fuel : nat) (info : gmap string value) (self : t)
    (p : Popen) :
  ffmpeg self = Some (Some p) ->
  carries (has_out_time_ms info) (lines (stdout p)) = true ->
  match run_loop fuel info self with
  | Raise e _ => is_KeyError e = false
  | _ => True
  end.
Proof.
  revert info self p.
  induction fuel as [|fuel IH]; intros info self p Hp Hc; [done|].
  destruct (readline (stdout p)) as [line rest] eqn:Hline.
  destruct (strip line) as [|c l] eqn:Hs.
  { by rewrite (run_loop_blank fuel info self p line rest). }
  assert (strip line <> "") as Hnb by (by rewrite Hs).
  assert (stdout p <> "") as Hne.
  { intros H0. rewrite H0 in Hline. injection Hline as <- <-. done. }
  rewrite (readline_lines _ _ _ Hne Hline) in Hc. cbn [carries] in Hc.
  rewrite Hs in Hc. rewrite <- Hs in Hc.
  destruct (split1_shape "=" (decode_ascii_ignore (strip line)))
    as [[_ Hone]|[_ (key & val & Htwo)]].
  { cbn [run_loop]. unfold mbind, M_bind, get, modify.
    rewrite Hp. cbn [readable]. rewrite Hline, Hs. rewrite <- Hs, Hone.
    by destruct (decode_ascii_ignore (strip line)). }
  rewrite (run_loop_field fuel info self p line rest key val) by done.
  rewrite Htwo in Hc. cbv zeta.
  set (self1 := set_ffmpeg (Some (Some (with_stdout rest p))) self).
  destruct (String.eqb key "progress") eqn:Hk.
  - apply String.eqb_eq in Hk. subst key.
    apply andb_true_iff in Hc as [Hhas Hc].
    assert (<["progress" := VStr val]> info !! "out_time_ms" <> None) as Hin.
    { rewrite lookup_insert_ne by done. unfold has_out_time_ms in Hhas.
      by destruct (info !! "out_time_ms"). }
    unfold mbind, M_bind.
    pose proof (process_info_evolves fuel (<["progress":=VStr val]> info) self1)
      as H.
    destruct (process_info fuel _ self1) as [i self2|e self2|]; [| |done].
    + destruct H as (_ & _ & Hout).
      destruct (Hout (with_stdout rest p) eq_refl) as (p2 & Hp2 & Ho).
      apply (IH ∅ self2 p2 Hp2). by rewrite Ho.
    + destruct H as [_ H]. destruct (is_KeyError e); [|done].
      by destruct Hin; apply H.
  - apply (IH _ self1 (with_stdout rest p) eq_refl).
    by rewrite has_out_time_ms_insert.
Qed.

(** C10. A [progress] line that arrives while the block holds no
    [out_time_ms] makes [process_info] raise [KeyError]; the exception
    leaves the drain loop and [run], which then has recorded neither
    exit status nor diagnostic buffer. When every block carries
    [out_time_ms], [run] never raises [KeyError]. *)
Theorem out_time_ms_required :
  (forall fuel info self,
     info !! "out_time_ms" = None ->
     process_info fuel info self = Raise (KeyError "out_time_ms") self) /\
  (forall fuel info self p line rest val,
     ffmpeg self = Some (Some p) ->
     readline (stdout p) = (line, rest) ->
     strip line <> "" ->
     split1 "=" (decode_ascii_ignore (strip line)) = ["progress"; val] ->
     info !! "out_time_ms" = None ->
     run_loop (S fuel) info self
     = Raise (KeyError "out_time_ms")
         (set_ffmpeg (Some (Some (with_stdout rest p))) self)) /\
  (forall proc fuel pf inf e self',
     run proc fuel (__init__ pf inf) = Raise e self' ->
     exitcode self' = None /\ stderr self' = None) /\
  (forall proc fuel self e self',
     every_block_carries_out_time_ms (stdout proc) = true ->
     run proc fuel self = Raise e self' ->
     is_KeyError e = false).
Proof.
  split; [exact process_info_missing|]. split; [|split].
  - intros fuel info self p line rest val Hp Hline Hnb Hsplit Hmiss.
    rewrite (run_loop_field fuel info self p line rest "progress" val)
      by done.
    cbv zeta. change (String.eqb "progress" "progress") with true.
    cbv iota. unfold mbind, M_bind.
    rewrite process_info_missing; [done|].
    by rewrite lookup_insert_ne.
  - intros proc fuel pf inf e self' Hrun.
    destruct (run_raises _ _ _ _ _ Hrun) as (Hc & Hb & _). by split.
  - intros proc fuel self e self' Hc. rewrite run_unfold.
    pose proof (run_loop_no_KeyError fuel ∅
                  (set_ffmpeg (Some (Some proc)) self) proc eq_refl Hc) as H.
    destruct (run_loop fuel ∅ _) as [[] self2|e2 self2|]; [|by intros [= <- _]|done].
    destruct (ffmpeg self2) as [[p|]|]; [done| |]; by intros [= <- _].
Qed.

Lemma out_time_ms_required_witness :
  (let p := sample_handle ("frame=1" ++ LF ++ "progress=continue" ++ LF)
              (Some 0) in
   exists self',
     run p 5 (__init__ true true) = Raise (KeyError "out_time_ms") self' /\
     exitcode self' = None /\ stderr self' = None) /\
  (let p := sample_handle
              ("frame=1" ++ LF ++ "out_time_ms=500000" ++ LF
               ++ "progress=continue" ++ LF ++ "out_time_ms=10000000" ++ LF
               ++ "progress=end" ++ LF) (Some 0) in
   every_block_carries_out_time_ms (stdout p) = true /\
   forall fuel e self',
     run p fuel (__init__ true true) = Raise e self' ->
     is_KeyError e = false).
Proof.
  destruct out_time_ms_required as (_ & _ & Hrec & Hnever).
  split; intros p.
  - eexists. split; [vm_compute; reflexivity|].
    apply (Hrec p 5%nat true true (KeyError "out_time_ms")).
    vm_compute; reflexivity.
  - split; [reflexivity|]. intros fuel e self'.
    apply (Hnever p fuel). reflexivity.
Defined.

(** * Further properties *)

(** ** More on duration resolution *)



Lemma set_ffmpeg_same (self : t) (p : Popen) :
  ffmpeg self = Some (Some p) ->
  set_ffmpeg (Some (Some (with_stderr (subprocess.stderr p) p))) self = self.
Proof. destruct self, p. simpl. by intros ->. Qed.

Lemma input_duration_loop_skip_lines (n fuel : nat) (self : t) (p : Popen)
    (s' : string) :
  ffmpeg self = Some (Some p) ->
  skip_lines n (subprocess.stderr p) = Some s' ->
  input_duration_loop (n + fuel) self
  = input_duration_loop fuel
      (set_ffmpeg (Some (Some (with_stderr s' p))) self).
Proof.
  revert self p.
  induction n as [|n IH]; intros self p Hp; cbn [skip_lines Nat.add].
  - intros [= <-]. by rewrite set_ffmpeg_same.
  - destruct (readline (subprocess.stderr p)) as [line rest] eqn:Hline.
    destruct (duration_re_search (decode_ascii_ignore line)) eqn:Hs; [done|].
    intros Hskip.
    rewrite (input_duration_loop_skip (n + fuel) self p line rest Hp Hline Hs).
    by rewrite (IH (set_ffmpeg (Some (Some (with_stderr rest p))) self)
                  (with_stderr rest p) eq_refl Hskip).
Qed.

(** X2. Diagnostic lines in front of the first line that matches the
    pattern are read and ignored, whatever they hold: after [n] such
    lines the accessor goes on exactly as if the stream began behind
    them. *)
Theorem input_duration_skips_unmarked_lines
    (n fuel : nat) (self : t) (p : Popen) (s' : string) :
  _input_duration self = None ->
  ffmpeg self = Some (Some p) ->
  skip_lines n (subprocess.stderr p) = Some s' ->
  input_duration (n + fuel) self
  = input_duration fuel (set_ffmpeg (Some (Some (with_stderr s' p))) self).
Proof.
  intros Hd Hp Hskip. unfold input_duration, mbind, M_bind, get.
  cbn [_input_duration set_ffmpeg ffmpeg]. rewrite Hd, Hp.
  by apply input_duration_loop_skip_lines.
Qed.

Lemma input_duration_skips_unmarked_lines_witness :
  let p := {| stdout := "";
              subprocess.stderr :=
                "ffmpeg version 6.0" ++ LF ++ "Input #0, mov:" ++ LF
                ++ "  Duration: 00:00:10.00, start: 0.000000" ++ LF;
              returncode := None |} in
  let self := set_ffmpeg (Some (Some p)) (__init__ false true) in
  skip_lines 2 (subprocess.stderr p)
  = Some ("  Duration: 00:00:10.00, start: 0.000000" ++ LF) /\
  input_duration (2 + 1) self
  = input_duration 1
      (set_ffmpeg
         (Some (Some (with_stderr
                        ("  Duration: 00:00:10.00, start: 0.000000" ++ LF) p)))
         self).
Proof.
  intros p self. split; [reflexivity|].
  apply (input_duration_skips_unmarked_lines 2 1 self p); reflexivity.
Defined.

Lemma split_length (sep : ascii) (s : string) :
  length (split sep s) = S (count_char sep s).
Proof.
  induction s as [|c s IH]; simpl; [done|].
  destruct (Ascii.eqb c sep); simpl; [by rewrite IH|].
  destruct (split sep s) as [|h l]; simpl in *; [done|]. by rewrite IH.
Qed.

(** X3. A line on which the pattern matches always ends the wait: the
    accessor either returns a value, which it caches, or raises
    [ValueError], and in both cases has consumed exactly that line.
    When the matched text does not hold exactly one period it is
    [ValueError], with no duration cached. *)
Theorem input_duration_at_marker
    (fuel : nat) (self : t) (p : Popen) (raw rest g : string) :
  _input_duration self = None ->
  ffmpeg self = Some (Some p) ->
  readline (subprocess.stderr p) = (raw, rest) ->
  duration_re_search (decode_ascii_ignore raw) = Some g ->
  let self1 := set_ffmpeg (Some (Some (with_stderr rest p))) self in
  ((exists d, input_duration (S fuel) self
              = Ret d (set__input_duration (Some d) self1)) \/
   input_duration (S fuel) self = Raise ValueError self1) /\
  (count_char "." g <> 1%nat ->
   input_duration (S fuel) self = Raise ValueError self1).
Proof.
  intros Hd Hp Hline Hg self1.
  unfold input_duration, mbind, M_bind, get. rewrite Hd, Hp.
  cbn [input_duration_loop]. unfold mbind, M_bind, get, modify, raise.
  rewrite Hp. cbn [readable negb]. rewrite Hline, Hg. fold self1.
  pose proof (split_length "." g) as Hlen.
  destruct (split "." g) as [|time [|partial [|x1 l1]]].
  - split; [by right|done].
  - split; [by right|done].
  - split; [|simpl in Hlen; intros; lia].
    unfold float_, float_of, raise, mret, M_ret.
    destruct (float_of_str ("0." ++ partial)); [|by right].
    destruct (split ":" time) as [|hh [|mm [|ss [|x2 l2]]]]; try by right.
    destruct (float_of_str hh); [|by right].
    destruct (float_of_str mm); [|by right].
    destruct (float_of_str ss); [|by right].
    left. by eexists.
  - split; [by right|done].
Qed.

Lemma input_duration_at_marker_witness :
  let p := {| stdout := "";
              subprocess.stderr := "  Duration: 600, start: 0.0" ++ LF;
              returncode := None |} in
  let self := set_ffmpeg (Some (Some p)) (__init__ false true) in
  count_char "." "600" <> 1%nat /\
  input_duration 1 self
  = Raise ValueError (set_ffmpeg (Some (Some (with_stderr "" p))) self).
Proof.
  intros p self. split; [discriminate|].
  apply (input_duration_at_marker 0 self p
           ("  Duration: 600, start: 0.0" ++ LF) "" "600"
           eq_refl eq_refl eq_refl eq_refl).
  discriminate.
Defined.

(** ** More on [process_info] and [run] *)

(** X4. A positive block on an input whose duration resolves to zero
    raises [ZeroDivisionError]: nothing is stored, no callback is
    called. *)
Theorem process_info_zero_duration
    (fuel : nat) (info : gmap string value) (self self1 : t)
    (s : string) (n : Z) (d : float) :
  info !! "out_time_ms" = Some (VStr s) ->
  int_literal s = Some n -> 0 < n ->
  input_duration fuel self = Ret d self1 -> is_zero d = true ->
  process_info fuel info self = Raise ZeroDivisionError self1 /\
  calls self1 = calls self.
Proof.
  intros Hv Hn Hpos Hd Hz.
  destruct (float_of_int_literal s n Hn) as (x & Hx & Hsign & _).
  assert (fltb zero x = true) as Hx0.
  { rewrite Hsign. by apply Z.ltb_lt. }
  pose proof (input_duration_quiet fuel self) as Hq. rewrite Hd in Hq.
  split; [|by destruct Hq].
  unfold process_info, float_, float_of, truediv, mbind, M_bind, mret, M_ret.
  by rewrite Hv, Hx, Hx0, Hd, Hz.
Qed.

Lemma process_info_zero_duration_witness :
  let p := {| stdout := "";
              subprocess.stderr := "  Duration: 00:00:00.00, start: 0.0" ++ LF;
              returncode := None |} in
  let self := started p in
  let self1 := set__input_duration (Some zero)
                 (set_ffmpeg (Some (Some (with_stderr "" p))) self) in
  process_info 1 (block "500000" "continue") self
  = Raise ZeroDivisionError self1 /\
  calls self1 = calls self.
Proof.
  intros p self self1.
  apply (process_info_zero_duration 1 (block "500000" "continue") self self1
           "500000" 500000 zero); try reflexivity.
Defined.

(** X12. When the first read of the progress channel is blank (also at
    once at end of file), [run] makes no call, records what [poll]
    answers and the whole diagnostic stream, and releases the handle. *)
Theorem run_blank_first_line
    (proc : Popen) (fuel : nat) (self : t) (line rest : string) :
  readline (stdout proc) = (line, rest) ->
  strip line = "" ->
  exists self',
    run proc (S fuel) self = Ret tt self' /\
    calls self' = calls self /\
    exitcode self' = Some (poll proc) /\
    stderr self' = Some (subprocess.stderr proc) /\
    ffmpeg self' = Some None /\
    _input_duration self' = _input_duration self.
Proof.
  intros Hline Hblank. rewrite run_unfold.
  rewrite (run_loop_blank fuel ∅ (set_ffmpeg (Some (Some proc)) self) proc
             line rest eq_refl Hline Hblank).
  eexists. split; [reflexivity|]. by repeat split.
Qed.

Lemma run_blank_first_line_witness :
  exists self',
    run (sample_handle "" (Some 1)) 1 (__init__ true true) = Ret tt self' /\
    calls self' = [] /\
    exitcode self' = Some (Some 1) /\
    stderr self' = Some sample_stderr /\
    ffmpeg self' = Some None /\
    _input_duration self' = None.
Proof.
  exact (run_blank_first_line (sample_handle "" (Some 1)) 0
           (__init__ true true) "" "" eq_refl eq_refl).
Defined.

(** ** More on [FFMPEGError] *)

Lemma decode_ascii_is_ascii (s : string) :
  all is_ascii (decode_ascii_ignore s) = true.
Proof.
  induction s as [|c s IH]; simpl; [done|].
  destruct (code c <? 128)%N eqn:Hc; [|done].
  simpl. unfold is_ascii at 1. by rewrite Hc, IH.
Qed.

Lemma decode_ascii_length (s : string) :
  (String.length (decode_ascii_ignore s) <= String.length s)%nat.
Proof.
  induction s as [|c s IH]; simpl; [done|].
  destruct (code c <? 128)%N; simpl; lia.
Qed.

(** X8. The string form of an [FFMPEGError] is pure ASCII, is never
    longer than the diagnostic buffer, and decoding it again changes
    nothing. *)
Theorem FFMPEGError_str_ascii (e : FFMPEGError.t) :
  all is_ascii (FFMPEGError.__str__ e) = true /\
  (String.length (FFMPEGError.__str__ e)
   <= String.length (FFMPEGError.stderr e))%nat /\
  decode_ascii_ignore (FFMPEGError.__str__ e) = FFMPEGError.__str__ e.
Proof.
  unfold FFMPEGError.__str__. split; [apply decode_ascii_is_ascii|].
  split; [apply decode_ascii_length|].
  apply decode_ascii_id, decode_ascii_is_ascii.
Qed.

(** ** The call log *)

Lemma process_info_calls (fuel : nat) (info : gmap string value) (self : t) :
  is_Some (info !! "progress") ->
  match process_info fuel info self with
  | Ret _ self' | Raise _ self' =>
      calls self' = calls self \/
      exists done info',
        info' !! "done" = Some (VFloat done) /\
        is_Some (info' !! "progress") /\
        is_Some (info' !! "out_time_ms") /\
        calls self'
        = (calls self
           ++ block_events (progress_f self) (info_f self) done info')%list
  | OutOfFuel => True
  end.
Proof.
  intros Hprog. unfold process_info.
  destruct (info !! "out_time_ms") as [v|] eqn:Hv; [|by left].
  unfold float_, truediv, mbind, M_bind, mret, M_ret, raise.
  destruct (float_of v) as [x|]; [|by left].
  destruct (fltb zero x); [|by left].
  pose proof (input_duration_evolves fuel self) as He.
  pose proof (input_duration_quiet fuel self) as Hq.
  destruct (input_duration fuel self) as [d self1|e self1|]; [| |done].
  - destruct He as [He _], Hq as [Hc _].
    destruct (is_zero d); [by left|].
    set (done := fdiv _ d). set (info' := <["done" := _]> info).
    destruct (indicate_progress_evolves done info' self1)
      as (self' & -> & _ & _ & _ & Hcalls).
    right. exists done, info'. split; [by apply lookup_insert_eq|].
    split; [by unfold info'; rewrite lookup_insert_ne|].
    split; [by unfold info'; rewrite lookup_insert_ne, Hv|].
    rewrite Hcalls, Hc. unfold block_events.
    by rewrite (ev_progress_f _ _ He), (ev_info_f _ _ He).
  - left. by destruct Hq.
Qed.

Lemma run_loop_block_calls (fuel : nat) (info : gmap string value) (self : t)
    (p : Popen) :
  ffmpeg self = Some (Some p) ->
  block_calls (progress_f self) (info_f self) (calls self) ->
  match run_loop fuel info self with
  | Ret _ self' | Raise _ self' =>
      block_calls (progress_f self) (info_f self) (calls self')
  | OutOfFuel => True
  end.
Proof.
  revert info self p.
  induction fuel as [|fuel IH]; intros info self p Hp Hlog; [done|].
  rewrite run_loop_S, Hp.
  destruct (readline (stdout p)) as [line rest]. cbv zeta.
  set (self1 := set_ffmpeg (Some (Some (with_stdout rest p))) self).
  destruct (strip line) as [|c l]; [done|].
  destruct (split1 "=" (decode_ascii_ignore (String c l)))
    as [|key [|val [|x1 l1]]]; try done.
  destruct (String.eqb key "progress") eqn:Hk.
  - apply String.eqb_eq in Hk. subst key.
    assert (is_Some (<["progress":=VStr val]> info !! "progress")) as Hsome
      by (by rewrite lookup_insert_eq).
    pose proof (process_info_calls fuel (<["progress":=VStr val]> info) self1
                  Hsome) as Hc.
    pose proof (process_info_evolves fuel (<["progress":=VStr val]> info) self1)
      as He.
    assert (forall self2, evolves self1 self2 ->
              (calls self2 = calls self1 \/
               exists done info',
                 info' !! "done" = Some (VFloat done) /\
                 is_Some (info' !! "progress") /\
                 is_Some (info' !! "out_time_ms") /\
                 calls self2
                 = (calls self1 ++ block_events (progress_f self1)
                                     (info_f self1) done info')%list) ->
              block_calls (progress_f self) (info_f self) (calls self2))
      as Hstep.
    { intros self2 _ [->|(ratio & info' & H1 & H2 & H3 & ->)]; [done|].
      by constructor. }
    destruct (process_info fuel _ self1) as [i self2|e self2|]; [| |done].
    + destruct He as (He & _ & _).
      destruct (ev_handle _ _ He (with_stdout rest p) eq_refl)
        as (p2 & Hp2 & _).
      pose proof (IH ∅ self2 p2 Hp2) as IH2.
      rewrite (ev_progress_f _ _ He), (ev_info_f _ _ He) in IH2.
      apply IH2. by apply Hstep.
    + destruct He as [He _]. by apply (Hstep self2 He).
  - by apply (IH _ self1 (with_stdout rest p)).
Qed.

(** What one call of [process_info] adds to the log, [dur] being the
    duration cached when it returns or at any time after. *)
Lemma process_info_group (fuel : nat) (info : gmap string value) (self : t) :
  match process_info fuel info self with
  | Ret _ self' =>
      forall dur,
        (forall d, _input_duration self' = Some d -> dur = Some d) ->
        calls self'
        = (calls self
           ++ block_group (progress_f self) (info_f self) dur info)%list
  | Raise _ self' => calls self' = calls self
  | OutOfFuel => True
  end.
Proof.
  unfold process_info, block_group.
  destruct (info !! "out_time_ms") as [v|] eqn:Hv; [|done].
  unfold float_, truediv, mbind, M_bind, mret, M_ret, raise.
  destruct (float_of v) as [x|]; [|done].
  destruct (fltb zero x); [|by intros; rewrite app_nil_r].
  pose proof (input_duration_evolves fuel self) as He.
  pose proof (input_duration_quiet fuel self) as Hq.
  destruct (input_duration fuel self) as [d self1|e self1|]; [| |done].
  - destruct He as [He Hd], Hq as [Hc _].
    destruct (is_zero d); [done|].
    set (ratio := fdiv _ d). set (info' := <["done" := _]> info).
    destruct (indicate_progress_evolves ratio info' self1)
      as (self' & -> & _ & Hd' & _ & Hcalls).
    intros dur Hdur. rewrite (Hdur d) by (by rewrite Hd').
    rewrite Hcalls, Hc. unfold block_events.
    by rewrite (ev_progress_f _ _ He), (ev_info_f _ _ He).
  - by destruct Hq.
Qed.

(** The log of the drain loop, block by block. *)
Lemma run_loop_groups (fuel : nat) (info : gmap string value) (self : t)
    (p : Popen) :
  ffmpeg self = Some (Some p) ->
  let expected dur :=
    flat_map (block_group (progress_f self) (info_f self) dur) in
  match run_loop fuel info self with
  | Ret _ self' =>
      forall dur,
        (forall d, _input_duration self' = Some d -> dur = Some d) ->
        calls self'
        = (calls self
           ++ expected dur (decode_blocks info (lines (stdout p))))%list
  | Raise _ self' =>
      forall dur,
        (forall d, _input_duration self' = Some d -> dur = Some d) ->
        exists k,
          calls self'
          = (calls self
             ++ expected dur
                  (take k (decode_blocks info (lines (stdout p)))))%list
  | OutOfFuel => True
  end.
Proof.
  revert info self p.
  induction fuel as [|fuel IH]; intros info self p Hp expected; [done|].
  rewrite run_loop_S, Hp.
  destruct (readline (stdout p)) as [line rest] eqn:Hline. cbv zeta.
  set (self1 := set_ffmpeg (Some (Some (with_stdout rest p))) self).
  destruct (strip line) as [|c l] eqn:Hs.
  { intros dur _. simpl.
    destruct (stdout p) as [|c0 s0] eqn:Hout; [by rewrite app_nil_r|].
    rewrite (readline_lines _ line rest) by done.
    cbn [decode_blocks]. rewrite Hs. by rewrite app_nil_r. }
  assert (lines (stdout p) = line :: lines rest) as ->.
  { apply readline_lines; [|done]. apply (readline_empty _ line rest); [done|].
    by rewrite Hs. }
  cbn [decode_blocks]. rewrite Hs.
  destruct (split1 "=" (decode_ascii_ignore (String c l)))
    as [|key [|val [|x1 l1]]];
    try (intros dur _; exists O; by rewrite app_nil_r).
  cbv zeta. destruct (String.eqb key "progress").
  - pose proof (process_info_group fuel (<[key:=VStr val]> info) self1) as Hg.
    pose proof (process_info_evolves fuel (<[key:=VStr val]> info) self1)
      as He.
    destruct (process_info fuel _ self1) as [i self2|e self2|]; [| |done].
    + destruct He as (He & _ & Hout).
      destruct (Hout (with_stdout rest p) eq_refl) as (p2 & Hp2 & Ho2).
      simpl in Ho2.
      pose proof (IH ∅ self2 p2 Hp2) as IH2. cbv zeta in IH2.
      pose proof (run_loop_evolves fuel ∅ self2 p2 Hp2) as He2.
      rewrite Ho2, (ev_progress_f _ _ He), (ev_info_f _ _ He) in IH2.
      change (progress_f self1) with (progress_f self) in IH2, Hg.
      change (info_f self1) with (info_f self) in IH2, Hg.
      change (calls self1) with (calls self) in Hg.
      destruct (run_loop fuel ∅ self2) as [[] self3|e self3|]; [| |done].
      * destruct He2 as [He2 _]. intros dur Hdur.
        rewrite (IH2 dur Hdur), (Hg dur).
        -- unfold expected. cbn [flat_map]. by rewrite <- app_assoc.
        -- intros d Hd. apply Hdur. by apply (ev_duration _ _ He2).
      * intros dur Hdur. destruct (IH2 dur Hdur) as [k Hk].
        exists (S k). rewrite Hk, (Hg dur).
        -- unfold expected. cbn [take flat_map]. by rewrite <- app_assoc.
        -- intros d Hd. apply Hdur. by apply (ev_duration _ _ He2).
    + intros dur _. exists O. cbn [take]. unfold expected. cbn [flat_map].
      rewrite app_nil_r. by rewrite Hg.
  - apply (IH (<[key:=VStr val]> info) self1 (with_stdout rest p) eq_refl).
Qed.

(** X6. The call log of a run, read off the progress stream. For a run
    that returns it is, in stream order, one group for each completed
    block whose [out_time_ms] is a number above zero, [progress_f] with
    the ratio of that block then [info_f] with its dictionary and the
    ratio under ["done"], each when supplied, every ratio taken over the
    one duration the run has resolved; the other blocks add nothing.
    For a run that raises it is that for the first [k] blocks. *)
Theorem run_calls_per_block (proc : Popen) (fuel : nat) (pf inf : bool) :
  let blocks := decode_blocks ∅ (lines (stdout proc)) in
  match run proc fuel (__init__ pf inf) with
  | Ret _ self' =>
      calls self'
      = flat_map (block_group pf inf (_input_duration self')) blocks
  | Raise _ self' =>
      exists k,
        calls self'
        = flat_map (block_group pf inf (_input_duration self'))
            (take k blocks)
  | OutOfFuel => True
  end.
Proof.
  intros blocks. rewrite run_unfold.
  pose proof (run_loop_groups fuel ∅
                (set_ffmpeg (Some (Some proc)) (__init__ pf inf)) proc
                eq_refl) as H.
  cbv zeta in H. cbn [progress_f info_f calls set_ffmpeg __init__ app] in H.
  destruct (run_loop fuel ∅ _) as [[] self2|e self2|]; [| |done].
  - destruct (ffmpeg self2) as [[p|]|]; simpl.
    + by apply H.
    + exists (length blocks). rewrite firstn_all. by apply H.
    + exists (length blocks). rewrite firstn_all. by apply H.
  - by apply H.
Qed.

(** ** Termination *)

Lemma lines_cons_le (c : ascii) (s : string) :
  (length (lines s) <= length (lines (String c s)))%nat.
Proof.
  simpl. destruct (Ascii.eqb c "010"); simpl; [lia|].
  destruct (lines s); simpl; lia.
Qed.

Lemma suffix_lines_le (r s : string) :
  suffix_of r s -> (length (lines r) <= length (lines s))%nat.
Proof.
  intros [c ->]. induction c as [|x c IH]; [done|].
  etrans; [exact IH|]. apply lines_cons_le.
Qed.

(** With a marker among the lines to come, the loop of the accessor
    ends within as many turns as there are lines. *)
Lemma input_duration_loop_terminates (fuel : nat) (self : t) (p : Popen) :
  ffmpeg self = Some (Some p) ->
  has_marker (subprocess.stderr p) = true ->
  (length (lines (subprocess.stderr p)) <= fuel)%nat ->
  input_duration_loop fuel self <> OutOfFuel.
Proof.
  revert self p. induction fuel as [|fuel IH]; intros self p Hp Hm Hlen.
  { unfold has_marker in Hm.
    destruct (lines (subprocess.stderr p)); simpl in *; [done|lia]. }
  destruct (readline (subprocess.stderr p)) as [line rest] eqn:Hline.
  assert (subprocess.stderr p <> "") as Hne.
  { intros H0. unfold has_marker in Hm. by rewrite H0 in Hm. }
  unfold has_marker in Hm. rewrite (readline_lines _ _ _ Hne Hline) in Hm, Hlen.
  cbn [existsb length] in Hm, Hlen.
  destruct (duration_re_search (decode_ascii_ignore line)) as [g|] eqn:Hs.
  - cbn [input_duration_loop]. unfold mbind, M_bind, get, modify, raise.
    rewrite Hp. cbn [readable negb]. rewrite Hline, Hs.
    destruct (split "." g) as [|time [|partial [|x1 l1]]]; try done.
    unfold float_, float_of, raise, mret, M_ret.
    destruct (float_of_str ("0." ++ partial)); [|done].
    destruct (split ":" time) as [|hh [|mm [|ss [|x2 l2]]]]; try done.
    destruct (float_of_str hh); [|done].
    destruct (float_of_str mm); [|done].
    by destruct (float_of_str ss).
  - rewrite (input_duration_loop_skip fuel self p line rest Hp Hline Hs).
    apply (IH _ (with_stderr rest p)); [done|done|simpl; lia].
Qed.

Lemma process_info_terminates (fuel : nat) (info : gmap string value)
    (self : t) (p : Popen) :
  ffmpeg self = Some (Some p) ->
  (_input_duration self = None -> has_marker (subprocess.stderr p) = true) ->
  (length (lines (subprocess.stderr p)) <= fuel)%nat ->
  process_info fuel info self <> OutOfFuel.
Proof.
  intros Hp Hm Hlen. unfold process_info.
  destruct (info !! "out_time_ms") as [v|]; [|done].
  unfold float_, truediv, mbind, M_bind, mret, M_ret, raise.
  destruct (float_of v) as [x|]; [|done].
  destruct (fltb zero x); [|done].
  assert (input_duration fuel self <> OutOfFuel) as Hd.
  { unfold input_duration, mbind, M_bind, get.
    destruct (_input_duration self); [done|]. rewrite Hp.
    by apply (input_duration_loop_terminates fuel self p); auto. }
  destruct (input_duration fuel self) as [d self1|e self1|]; [|done|done].
  destruct (is_zero d); [done|].
  set (ratio := fdiv _ d). set (info' := <["done" := _]> info).
  by destruct (indicate_progress_evolves ratio info' self1) as (self' & -> & _).
Qed.

Lemma run_loop_terminates (fuel : nat) (info : gmap string value) (self : t)
    (p : Popen) :
  ffmpeg self = Some (Some p) ->
  (_input_duration self = None -> has_marker (subprocess.stderr p) = true) ->
  (length (lines (stdout p)) + length (lines (subprocess.stderr p)) < fuel)%nat ->
  run_loop fuel info self <> OutOfFuel.
Proof.
  revert info self p.
  induction fuel as [|fuel IH]; intros info self p Hp Hm Hlen; [lia|].
  rewrite run_loop_S, Hp.
  destruct (readline (stdout p)) as [line rest] eqn:Hline. cbv zeta.
  set (self1 := set_ffmpeg (Some (Some (with_stdout rest p))) self).
  destruct (strip line) as [|c l] eqn:Hs; [done|].
  assert (stdout p <> "") as Hne
    by (apply (readline_empty _ _ _ Hline); by rewrite Hs).
  rewrite (readline_lines _ _ _ Hne Hline) in Hlen. cbn [length] in Hlen.
  destruct (split1 "=" (decode_ascii_ignore (String c l)))
    as [|key [|val [|x1 l1]]]; try done.
  destruct (String.eqb key "progress").
  - pose proof (process_info_terminates fuel (<[key:=VStr val]> info) self1
                  (with_stdout rest p) eq_refl Hm) as Hterm.
    pose proof (process_info_evolves fuel (<[key:=VStr val]> info) self1) as He.
    destruct (process_info fuel _ self1) as [i self2|e self2|]; [|done|].
    + destruct He as (He & Hu & Ho).
      destruct (Ho (with_stdout rest p) eq_refl) as (p2 & Hp2 & Hout).
      destruct (ev_handle _ _ He (with_stdout rest p) eq_refl)
        as (p2' & Hp2' & _ & _ & Hsuf).
      rewrite Hp2 in Hp2'. injection Hp2' as <-.
      apply suffix_lines_le in Hsuf. simpl in Hsuf, Hout.
      apply (IH ∅ self2 p2 Hp2).
      * intros Hnone. rewrite (Hu Hnone (with_stdout rest p) p2 eq_refl Hp2).
        apply Hm. destruct (_input_duration self) as [d|] eqn:Hd; [|done].
        by rewrite (ev_duration _ _ He d Hd) in Hnone.
      * rewrite Hout. lia.
    + exfalso. apply Hterm; [simpl; lia|done].
  - apply (IH _ self1 (with_stdout rest p)); [done|done|simpl; lia].
Qed.

(** X7. Loop turns on complete streams. For a subprocess whose two
    streams are complete and at hand for the reader, as [Popen] has
    them, so that no read waits for the writer: when some line of the
    diagnostic stream matches the duration pattern, neither the drain
    loop nor the loop of [input_duration] turns for ever. With one turn
    per line of the two streams, and one more, [run] returns or raises.
    Nothing is said here of a subprocess that is still writing, which
    may stall on a pipe that [run] is not reading. *)
Theorem run_terminates_with_marker (proc : Popen) (fuel : nat) (self : t) :
  has_marker (subprocess.stderr proc) = true ->
  (length (lines (stdout proc)) + length (lines (subprocess.stderr proc))
   < fuel)%nat ->
  (exists self', run proc fuel self = Ret tt self') \/
  (exists e self', run proc fuel self = Raise e self').
Proof.
  intros Hm Hlen. rewrite run_unfold.
  pose proof (run_loop_terminates fuel ∅
                (set_ffmpeg (Some (Some proc)) self) proc eq_refl
                (fun _ => Hm) Hlen) as Hterm.
  destruct (run_loop fuel ∅ _) as [[] self2|e self2|]; [| |done].
  - destruct (ffmpeg self2) as [[p|]|]; eauto.
  - eauto.
Qed.

Lemma run_terminates_with_marker_witness :
  let proc := sample_handle
                ("frame=3" ++ LF ++ "out_time_ms=500000" ++ LF
                 ++ "progress=continue" ++ LF ++ "out_time_ms=10000000" ++ LF
                 ++ "progress=end" ++ LF) (Some 0) in
  has_marker (subprocess.stderr proc) = true /\
  ((exists self', run proc 9 (__init__ true true) = Ret tt self') \/
   (exists e self', run proc 9 (__init__ true true) = Raise e self')).
Proof.
  intros proc. split; [reflexivity|].
  apply (run_terminates_with_marker proc 9 (__init__ true true));
    [reflexivity|vm_compute; lia].
Defined.

(** ** Decoding a block *)

Lemma readline_line (x rest : string) :
  all (is_not "010") x = true ->
  readline (x ++ LF ++ rest) = (x ++ LF, rest).
Proof.
  change (LF ++ rest) with (String "010" rest).
  change LF with (String "010" "").
  induction x as [|c x IH]; simpl; [done|].
  intros [Hc Hx]%andb_true_iff. apply negb_true_iff in Hc.
  by rewrite Hc, (IH Hx).
Qed.

Lemma rstrip_all (p : ascii -> bool) (w : string) :
  all p w = true -> rstrip p w = "".
Proof.
  induction w as [|c w IH]; simpl; [done|].
  intros [Hc Hw]%andb_true_iff. by rewrite (IH Hw), Hc.
Qed.

Lemma rstrip_app_space (p : ascii -> bool) (v w : string) :
  all p w = true -> rstrip p (v ++ w) = rstrip p v.
Proof.
  intros Hw. induction v as [|c v IH]; simpl; [by apply rstrip_all|].
  by rewrite IH.
Qed.

(** What one field line does to the loop. *)
Lemma wire_line_decodes (key val rest : string) :
  wire_ok key val = true ->
  readline (wire_line key val ++ rest) = (wire_line key val, rest) /\
  strip (wire_line key val) = key ++ "=" ++ val /\
  split1 "=" (decode_ascii_ignore (key ++ "=" ++ val)) = [key; val].
Proof.
  unfold wire_ok, wire_line.
  intros H. apply andb_true_iff in H as [H Hstrip].
  apply andb_true_iff in H as [H Hsep].
  apply andb_true_iff in H as [Hascii Hlf].
  apply String.eqb_eq in Hstrip.
  split; [|split].
  - pose proof (readline_line (key ++ "=" ++ val) rest Hlf) as H.
    by rewrite !app_assoc' in *.
  - unfold strip in *.
    replace (key ++ "=" ++ val ++ LF) with ((key ++ "=" ++ val) ++ LF)
      by (by rewrite !app_assoc').
    by rewrite rstrip_app_space.
  - rewrite decode_ascii_id by done.
    exact (split1_cons "=" key val Hsep).
Qed.

Lemma wire_line_not_blank (key val : string) : key ++ "=" ++ val <> "".
Proof. by destruct key. Qed.

Lemma run_loop_wire_line (fuel : nat) (info : gmap string value) (self : t)
    (p : Popen) (key val rest : string) :
  ffmpeg self = Some (Some p) ->
  stdout p = wire_line key val ++ rest ->
  wire_ok key val = true ->
  run_loop (S fuel) info self
  = let self1 := set_ffmpeg (Some (Some (with_stdout rest p))) self in
    let info1 := <[key := VStr val]> info in
    if String.eqb key "progress"
    then (process_info fuel info1 ;; run_loop fuel ∅) self1
    else run_loop fuel info1 self1.
Proof.
  intros Hp Hout Hok.
  destruct (wire_line_decodes key val rest Hok) as (Hline & Hstrip & Hsplit).
  apply (run_loop_field fuel info self p (wire_line key val) rest key val);
    rewrite ?Hout, ?Hstrip; auto using wire_line_not_blank.
Qed.

(** X5. A block written as [key=value] lines and closed by a
    [progress=...] line is decoded to exactly those fields: the
    dictionary handed to [process_info] is the one accumulated so far
    with each field stored in turn (a repeated key keeps its last
    value) and the [progress] field; only the block's lines have been
    read; and the next block starts from an empty dictionary. *)
Theorem run_loop_decodes_block
    (kvs : list (string * string)) (v rest : string) (fuel : nat)
    (info : gmap string value) (self : t) (p : Popen) :
  ffmpeg self = Some (Some p) ->
  stdout p = wire_fields kvs ++ wire_line "progress" v ++ rest ->
  fields_ok kvs = true ->
  wire_ok "progress" v = true ->
  run_loop (length kvs + S fuel) info self
  = (process_info fuel (<["progress" := VStr v]> (store_fields info kvs)) ;;
     run_loop fuel ∅)
      (set_ffmpeg (Some (Some (with_stdout rest p))) self).
Proof.
  revert info self p.
  induction kvs as [|[k x] kvs IH]; intros info self p Hp Hout Hok Hv.
  - change (stdout p = wire_line "progress" v ++ rest) in Hout.
    cbn [length Nat.add].
    by rewrite (run_loop_wire_line fuel info self p "progress" v rest).
  - cbn [fields_ok forallb fst snd] in Hok.
    apply andb_true_iff in Hok as [[Hkx Hk]%andb_true_iff Hok].
    apply negb_true_iff in Hk.
    cbn [wire_fields] in Hout. rewrite app_assoc' in Hout.
    cbn [length Nat.add].
    rewrite (run_loop_wire_line (length kvs + S fuel) info self p k x _
               Hp Hout Hkx).
    cbv zeta. rewrite Hk.
    by rewrite (IH (<[k:=VStr x]> info)
                  (set_ffmpeg
                     (Some (Some (with_stdout
                                    (wire_fields kvs
                                     ++ wire_line "progress" v ++ rest) p)))
                     self)
                  (with_stdout (wire_fields kvs
                                ++ wire_line "progress" v ++ rest) p)
                  eq_refl eq_refl Hok Hv).
Qed.

Lemma run_loop_decodes_block_witness :
  let kvs := [("frame", "12"); ("out_time_ms", "0"); ("frame", "13");
              ("speed", "1.5x=fast")] in
  let p := sample_handle
             (wire_fields kvs ++ wire_line "progress" "continue"
              ++ "frame=14" ++ LF) None in
  store_fields ∅ kvs
  = <["speed" := VStr "1.5x=fast"]>
      (<["frame" := VStr "13"]> (<["out_time_ms" := VStr "0"]> ∅)) /\
  run_loop (4 + 1) ∅ (started p)
  = (process_info 0 (<["progress" := VStr "continue"]> (store_fields ∅ kvs)) ;;
     run_loop 0 ∅)
      (started (sample_handle ("frame=14" ++ LF) None)).
Proof.
  intros kvs p. split.
  - vm_compute. reflexivity.
  - exact (run_loop_decodes_block kvs "continue" ("frame=14" ++ LF) 0 ∅
             (started p) p eq_refl eq_refl eq_refl eq_refl).
Defined.

(** ** The sign of the ratio *)

Module SignFacts.

Import PyFloatFacts.

Lemma shr_fexp_nonneg (m e : Z) (l : location) :
  0 <= m -> 0 <= shr_m (fst (shr_fexp prec emax m e l)).
Proof.
  intros Hm. unfold shr_fexp, shr.
  assert (shr_m (shr_record_of_loc m l) = m) as Hrec.
  { destruct l as [|[]]; reflexivity. }
  destruct (fexp prec emax (Zdigits2 m + e) - e) as [|n|n]; simpl;
    rewrite ?Hrec; try done.
  rewrite iter_shr_1_m by (rewrite Hrec; lia). rewrite Hrec.
  by apply Z.shiftr_nonneg.
Qed.

Lemma round_nearest_even_nonneg (m : Z) (l : location) :
  0 <= m -> 0 <= round_nearest_even m l.
Proof.
  intros Hm. destruct l as [|[]]; simpl; try lia.
  destruct (Z.even m); lia.
Qed.

Lemma binary_round_aux_nonneg (m e : Z) (l : location) :
  0 <= m -> nonneg (binary_round_aux prec emax false m e l) = true.
Proof.
  intros Hm. unfold binary_round_aux.
  pose proof (shr_fexp_nonneg m e l Hm) as H1.
  destruct (shr_fexp prec emax m e l) as [mrs' e']. simpl in H1.
  pose proof (round_nearest_even_nonneg _ (loc_of_shr_record mrs') H1) as H2.
  pose proof (shr_fexp_nonneg _ e' loc_Exact H2) as H3.
  destruct (shr_fexp prec emax _ e' loc_Exact) as [mrs'' e'']. simpl in H3.
  destruct (shr_m mrs'') as [|q|q]; [done| |lia].
  by destruct (e'' <=? emax - prec).
Qed.

Lemma binary_round_nonneg (p : positive) (e : Z) :
  nonneg (binary_round prec emax false p e) = true.
Proof.
  unfold binary_round. destruct (shl_align p e _) as [mz ez].
  by apply binary_round_aux_nonneg.
Qed.

Lemma of_ratio_nonneg (p q : positive) : nonneg (of_ratio false p q) = true.
Proof.
  unfold of_ratio, SFdiv_core_binary.
  set (e' := Z.min _ _). set (m' := match 0 - 0 - e' with
                                     | 0 => Z.pos p
                                     | Z.pos _ => Z.shiftl (Z.pos p) (0 - 0 - e')
                                     | Z.neg _ => 0
                                     end).
  assert (0 <= m') as Hm'.
  { unfold m'. destruct (0 - 0 - e'); try lia. by apply Z.shiftl_nonneg. }
  pose proof (Z_div_mod m' (Z.pos q) ltac:(lia)) as Hdiv.
  destruct (Z.div_eucl m' (Z.pos q)) as [k r].
  apply binary_round_aux_nonneg. nia.
Qed.

Lemma of_decimal_nonneg (m : N) (e : Z) : nonneg (of_decimal false m e) = true.
Proof.
  unfold of_decimal. destruct m as [|p]; [done|].
  destruct (0 <=? e); [apply binary_round_nonneg|apply of_ratio_nonneg].
Qed.

Lemma of_Z_finite_pos (p : positive) :
  nonneg (of_Z (Z.pos p)) = true.
Proof. apply binary_round_nonneg. Qed.

(** Sums and products of such numbers with a positive constant. *)
Lemma fadd_nonneg (x y : float) :
  nonneg x = true -> nonneg y = true -> nonneg (fadd x y) = true.
Proof.
  destruct x as [[]|[]| |[] mx ex], y as [[]|[]| |[] my ey]; try done.
  intros _ _. unfold fadd, SFadd. cbn [cond_Zopp].
  set (a := fst (shl_align mx ex _)). set (b := fst (shl_align my ey _)).
  change (Z.pos a + Z.pos b) with (Z.pos (a + b)).
  apply binary_round_nonneg.
Qed.

Lemma fmul_nonneg (x : float) (my : positive) (ey : Z) :
  nonneg x = true -> nonneg (fmul x (S754_finite false my ey)) = true.
Proof.
  destruct x as [[]|[]| |[] mx ex]; try done.
  intros _. unfold fmul, SFmul. cbn [xorb].
  by apply binary_round_aux_nonneg.
Qed.

(** A quotient of a positive and a non-negative float is not negative;
    it is NaN at most. *)
Lemma fdiv_not_negative (x y : float) :
  nonneg x = true -> nonneg y = true ->
  fltb (fdiv x y) zero = false.
Proof.
  destruct x as [[]|[]| |[] mx ex], y as [[]|[]| |[] my ey]; try done.
  intros _ _. unfold fdiv, SFdiv. cbn [xorb].
  pose proof (of_ratio_nonneg mx my) as _.
  destruct (SFdiv_core_binary prec emax (Z.pos mx) ex (Z.pos my) ey)
    as [[mz ez] lz] eqn:Hcore.
  assert (0 <= mz) as Hmz.
  { revert Hcore. unfold SFdiv_core_binary.
    set (e' := Z.min _ _). set (m' := match ex - ey - e' with
                                       | 0 => Z.pos mx
                                       | Z.pos _ => Z.shiftl (Z.pos mx) (ex - ey - e')
                                       | Z.neg _ => 0
                                       end).
    assert (0 <= m') as Hm'.
    { unfold m'. destruct (ex - ey - e'); try lia. by apply Z.shiftl_nonneg. }
    pose proof (Z_div_mod m' (Z.pos my) ltac:(lia)) as Hdiv.
    destruct (Z.div_eucl m' (Z.pos my)) as [k r].
    intros [= <- _ _]. nia. }
  pose proof (binary_round_aux_nonneg mz ez lz Hmz) as H.
  by destruct (binary_round_aux prec emax false mz ez lz) as [[]|[]| |[] ? ?].
Qed.

Lemma fdiv_nonneg_finite (x : float) (my : positive) (ey : Z) :
  nonneg x = true -> nonneg (fdiv x (S754_finite false my ey)) = true.
Proof.
  destruct x as [[]|[]| |[] mx ex]; try done.
  intros _. unfold fdiv, SFdiv. cbn [xorb].
  destruct (SFdiv_core_binary prec emax (Z.pos mx) ex (Z.pos my) ey)
    as [[mz ez] lz] eqn:Hcore.
  apply binary_round_aux_nonneg.
  revert Hcore. unfold SFdiv_core_binary.
  set (e' := Z.min _ _). set (m' := match ex - ey - e' with
                                     | 0 => Z.pos mx
                                     | Z.pos _ => Z.shiftl (Z.pos mx) (ex - ey - e')
                                     | Z.neg _ => 0
                                     end).
  assert (0 <= m') as Hm'.
  { unfold m'. destruct (ex - ey - e'); try lia. by apply Z.shiftl_nonneg. }
  pose proof (Z_div_mod m' (Z.pos my) ltac:(lia)) as Hdiv.
  destruct (Z.div_eucl m' (Z.pos my)) as [k r].
  intros [= <- _ _]. nia.
Qed.

Lemma positive_nonneg (x : float) : fltb zero x = true -> nonneg x = true.
Proof. by destruct x as [[]|[]| |[] mx ex]. Qed.

(** Reading the pieces of a matched duration. *)

Lemma duration_char_not (c d : ascii) :
  is_duration_char d = false -> is_duration_char c = true ->
  Ascii.eqb c d = false.
Proof.
  intros Hd Hc. destruct (Ascii.eqb_spec c d) as [->|]; [|done].
  by rewrite Hd in Hc.
Qed.

Lemma duration_char_not_space (c : ascii) :
  is_duration_char c = true -> is_str_space c = false.
Proof.
  unfold is_duration_char. intros H.
  apply orb_true_iff in H as [H|H]; [apply orb_true_iff in H as [H|H]|].
  - by apply is_digit_not_space.
  - by apply Ascii.eqb_eq in H as ->.
  - by apply Ascii.eqb_eq in H as ->.
Qed.

Lemma duration_char_lower (c : ascii) :
  is_duration_char c = true -> lower c = c.
Proof.
  unfold is_duration_char. intros H.
  apply orb_true_iff in H as [H|H]; [apply orb_true_iff in H as [H|H]|].
  - unfold lower, is_digit in *. apply andb_true_iff in H as [H1 H2].
    apply N.leb_le in H1. apply N.leb_le in H2.
    destruct (65 <=? code c)%N eqn:H3; [|done].
    apply N.leb_le in H3. lia.
  - by apply Ascii.eqb_eq in H as ->.
  - by apply Ascii.eqb_eq in H as ->.
Qed.

(** A decimal literal without a minus sign is read as a float that is
    not negative. *)
Lemma parse_decimal_sign (s : string) (x : float) :
  parse_decimal s = Some x ->
  exists m e, x = of_decimal (sign s).1 m e.
Proof.
  unfold parse_decimal. destruct (sign s) as [neg s1].
  destruct (digits 0 0 s1) as [[ip ni] s2].
  destruct (match s2 with
            | String c r =>
                if Ascii.eqb c "." then digits ip 0 r else (ip, 0%nat, s2)
            | EmptyString => (ip, 0%nat, s2)
            end) as [[m nf] s3].
  destruct (ni + nf)%nat; [done|].
  destruct (match s3 with
            | String c r =>
                if Ascii.eqb (lower c) "e" then
                  let '(eneg, r1) := sign r in
                  let '(ev, ne, r2) := digits 0 0 r1 in
                  match ne with
                  | O => (0, s3)
                  | S _ => (if eneg then - Z.of_N ev else Z.of_N ev, r2)
                  end
                else (0, s3)
            | EmptyString => (0, s3)
            end) as [e s4].
  destruct s4; [|done]. intros [= <-]. simpl. eauto.
Qed.

Lemma float_of_duration_chars (s : string) (x : float) :
  all is_duration_char s = true ->
  float_of_str s = Some x ->
  nonneg x = true.
Proof.
  intros Hs. unfold float_of_str.
  rewrite remove_underscores_id; [|done|]; cycle 1.
  { revert Hs. apply all_impl. intros c Hc. unfold is_not.
    by rewrite (duration_char_not c "_"). }
  rewrite rstrip_id; cycle 1.
  { revert Hs. apply all_impl. intros c Hc.
    by rewrite (duration_char_not_space c). }
  rewrite lstrip_id; cycle 1.
  { destruct s as [|c s]; [done|]. simpl in *.
    apply andb_true_iff in Hs as [Hc _]. by apply duration_char_not_space. }
  assert (sign s = (false, s)) as Hsign.
  { destruct s as [|c s]; [done|]. simpl in Hs.
    apply andb_true_iff in Hs as [Hc _]. unfold sign.
    by rewrite (duration_char_not c "-"), (duration_char_not c "+"). }
  destruct (parse_decimal s) as [y|] eqn:Hp.
  - intros [= <-]. destruct (parse_decimal_sign s y Hp) as (m & e & ->).
    rewrite Hsign. apply of_decimal_nonneg.
  - unfold parse_inf_or_nan. rewrite Hsign.
    destruct s as [|c s]; [done|]. simpl in Hs.
    apply andb_true_iff in Hs as [Hc _].
    cbn [lowercase]. rewrite (duration_char_lower c Hc).
    cbn [String.eqb].
    by rewrite (duration_char_not c "i"), (duration_char_not c "n").
Qed.

Lemma span_group (p : ascii -> bool) (s a b : string) :
  span p s = (a, b) -> all p a = true.
Proof.
  revert a b. induction s as [|c s IH]; intros a b; simpl.
  - by intros [= <- <-].
  - destruct (p c) eqn:Hc; [|by intros [= <- <-]].
    destruct (span p s) as [a' b']. intros [= <- <-].
    simpl. by rewrite Hc, (IH a' b').
Qed.

(** What the pattern captures is made of digits, colons and periods. *)
Lemma duration_re_search_group (s g : string) :
  duration_re_search s = Some g -> all is_duration_char g = true.
Proof.
  assert (forall t, duration_re_match t = Some g ->
                    all is_duration_char g = true) as Hm.
  { intros t. unfold duration_re_match.
    destruct (strip_prefix "Duration: " t) as [r|]; [|done].
    destruct (span is_duration_char r) as [a b] eqn:Hspan.
    apply span_group in Hspan.
    destruct a as [|c a]; [done|]. destruct b as [|x b]; [done|].
    destruct (Ascii.eqb x ","); [|done]. by intros [= <-]. }
  induction s as [|c s IH]; cbn [duration_re_search].
  - destruct (duration_re_match "") eqn:H; [|done].
    intros [= <-]. by apply (Hm "").
  - destruct (duration_re_match (String c s)) eqn:H; [|done].
    intros [= <-]. by apply (Hm (String c s)).
Qed.

Lemma split_all (p : ascii -> bool) (sep : ascii) (s : string) :
  all p s = true -> Forall (fun x => all p x = true) (split sep s).
Proof.
  induction s as [|c s IH]; simpl; [by repeat constructor|].
  intros [Hc Hs]%andb_true_iff. specialize (IH Hs).
  destruct (Ascii.eqb c sep); [by constructor|].
  destruct (split sep s) as [|h l]; [by repeat constructor; simpl; rewrite Hc|].
  inversion IH as [|? ? Hh Hl]; subst. constructor; [|done].
  simpl. by rewrite Hc, Hh.
Qed.

(** The duration that the accessor resolves is not negative. *)
Lemma input_duration_loop_nonneg (fuel : nat) (self : t) (p : Popen) :
  ffmpeg self = Some (Some p) ->
  match input_duration_loop fuel self with
  | Ret d _ => nonneg d = true
  | _ => True
  end.
Proof.
  revert self p. induction fuel as [|fuel IH]; intros self p Hp; [done|].
  cbn [input_duration_loop]. unfold mbind, M_bind, get, modify, raise.
  rewrite Hp. cbn [readable negb].
  destruct (readline (subprocess.stderr p)) as [line rest].
  destruct (duration_re_search (decode_ascii_ignore line)) as [g|] eqn:Hg.
  - apply duration_re_search_group in Hg.
    pose proof (split_all _ "." g Hg) as Hparts.
    destruct (split "." g) as [|time [|partial [|x1 l1]]]; try done.
    apply Forall_cons in Hparts as [Htime Hparts].
    apply Forall_cons in Hparts as [Hpartial _].
    unfold float_, float_of, raise, mret, M_ret.
    destruct (float_of_str ("0." ++ partial)) as [fp|] eqn:Hfp; [|done].
    apply float_of_duration_chars in Hfp; [|by simpl; rewrite Hpartial].
    pose proof (split_all _ ":" time Htime) as Hhms.
    destruct (split ":" time) as [|hh [|mm [|ss [|x2 l2]]]]; try done.
    apply Forall_cons in Hhms as [Hhh Hhms].
    apply Forall_cons in Hhms as [Hmm Hhms].
    apply Forall_cons in Hhms as [Hss _].
    destruct (float_of_str hh) as [fh|] eqn:Hfh; [|done].
    destruct (float_of_str mm) as [fm|] eqn:Hfm; [|done].
    destruct (float_of_str ss) as [fs|] eqn:Hfs; [|done].
    apply float_of_duration_chars in Hfh, Hfm, Hfs; try done.
    repeat apply fadd_nonneg; try done.
    + change (of_Z 3600) with (S754_finite false 7916483719987200 (-41)).
      by apply fmul_nonneg.
    + change (of_Z 60) with (S754_finite false 8444249301319680 (-47)).
      by apply fmul_nonneg.
  - by apply (IH _ (with_stderr rest p)).
Qed.

End SignFacts.

(** An invariant of [process_info] that the reads of the drain loop do
    not disturb is an invariant of the loop. *)
Lemma run_loop_invariant (I : t -> Prop) :
  (forall self q, I self -> I (set_ffmpeg q self)) ->
  (forall fuel info self, I self ->
     match process_info fuel info self with
     | Ret _ self' | Raise _ self' => I self'
     | OutOfFuel => True
     end) ->
  forall fuel info self, I self ->
    match run_loop fuel info self with
    | Ret _ self' | Raise _ self' => I self'
    | OutOfFuel => True
    end.
Proof.
  intros Hset Hproc.
  induction fuel as [|fuel IH]; intros info self HI; [done|].
  rewrite run_loop_S.
  destruct (ffmpeg self) as [[p|]|]; [|done|done].
  destruct (readline (stdout p)) as [line rest]. cbv zeta.
  set (self1 := set_ffmpeg (Some (Some (with_stdout rest p))) self).
  assert (I self1) as HI1 by (by apply Hset).
  destruct (strip line) as [|c l]; [done|].
  destruct (split1 "=" (decode_ascii_ignore (String c l)))
    as [|key [|val [|x1 l1]]]; try done.
  destruct (String.eqb key "progress"); [|by apply IH].
  specialize (Hproc fuel (<[key:=VStr val]> info) self1 HI1).
  destruct (process_info fuel _ self1) as [i self2|e self2|]; [|done|done].
  by apply IH.
Qed.

Lemma input_duration_sign (fuel : nat) (self : t) :
  sign_invariant self ->
  match input_duration fuel self with
  | Ret d self1 => nonneg d = true /\ sign_invariant self1
  | Raise _ self1 => sign_invariant self1
  | OutOfFuel => True
  end.
Proof.
  intros [Hd Hcalls].
  unfold input_duration, mbind, M_bind, get, raise, mret, M_ret.
  destruct (_input_duration self) as [d|] eqn:Hcached.
  { split; [by apply Hd|]. split; [|done]. intros d'. rewrite Hcached. auto. }
  destruct (ffmpeg self) as [[p|]|] eqn:Hp;
    try (split; [|done]; intros d'; by rewrite Hcached).
  pose proof (input_duration_loop_frame fuel self p Hp) as Hframe.
  pose proof (SignFacts.input_duration_loop_nonneg fuel self p Hp) as Hsign.
  destruct (input_duration_loop fuel self) as [d self1|e self1|]; [| |done].
  - destruct Hframe as (r & _ & ->). split; [done|]. split; [|done].
    by intros d' [= <-].
  - destruct Hframe as (_ & r & _ & ->). split; [|done].
    intros d'. simpl. by rewrite Hcached.
Qed.

Lemma process_info_sign (fuel : nat) (info : gmap string value) (self : t) :
  sign_invariant self ->
  match process_info fuel info self with
  | Ret _ self' | Raise _ self' => sign_invariant self'
  | OutOfFuel => True
  end.
Proof.
  intros HI. unfold process_info.
  destruct (info !! "out_time_ms") as [v|]; [|done].
  unfold float_, truediv, mbind, M_bind, mret, M_ret, raise.
  destruct (float_of v) as [x|]; [|done].
  destruct (fltb zero x) eqn:Hx; [|done].
  apply SignFacts.positive_nonneg in Hx.
  pose proof (input_duration_sign fuel self HI) as Hd.
  destruct (input_duration fuel self) as [d self1|e self1|]; [|done|done].
  destruct Hd as [Hd [Hdur Hcalls]].
  destruct (is_zero d); [done|].
  assert (fltb (fdiv (fdiv x (of_Z 1000000)) d) zero = false) as Hratio.
  { apply SignFacts.fdiv_not_negative; [|done].
    change (of_Z 1000000) with (S754_finite false 8589934592000000 (-33)).
    by apply SignFacts.fdiv_nonneg_finite. }
  set (ratio := fdiv _ d) in *. set (info' := <["done" := _]> info).
  destruct (indicate_progress_evolves ratio info' self1)
    as (self' & -> & _ & Hsame & _ & Hlog).
  split.
  - intros d'. rewrite Hsame. apply Hdur.
  - rewrite Hlog. apply Forall_app. split; [done|].
    apply Forall_app. split.
    + destruct (progress_f self1); by repeat constructor.
    + destruct (info_f self1); [|done]. repeat constructor.
      intros d'. unfold info'. rewrite lookup_insert_eq. by intros [= <-].
Qed.

(** X9. No call of a run carries a negative ratio: for every argument
    [done] of [progress_f] and every float under ["done"] handed to
    [info_f], [done < 0] is false; and the input duration, once
    resolved, is zero, positive or infinite, never negative or NaN. *)
Theorem run_ratio_not_negative (proc : Popen) (fuel : nat) (pf inf : bool) :
  match run proc fuel (__init__ pf inf) with
  | Ret _ self' | Raise _ self' =>
      (forall done, In (Progress done) (calls self') ->
                    fltb done zero = false) /\
      (forall info done, In (Info info) (calls self') ->
                         info !! "done" = Some (VFloat done) ->
                         fltb done zero = false) /\
      (forall d, _input_duration self' = Some d -> nonneg d = true)
  | OutOfFuel => True
  end.
Proof.
  assert (forall self, sign_invariant self ->
            (forall x, In (Progress x) (calls self) -> fltb x zero = false) /\
            (forall info x, In (Info info) (calls self) ->
                            info !! "done" = Some (VFloat x) ->
                            fltb x zero = false) /\
            (forall d, _input_duration self = Some d -> nonneg d = true))
    as Hout.
  { intros self [Hd Hcalls]. rewrite Forall_forall in Hcalls.
    split; [|split; [|done]].
    - intros x Hin. exact (Hcalls _ (proj2 (list_elem_of_In _ _) Hin)).
    - intros info x Hin.
      exact (Hcalls _ (proj2 (list_elem_of_In _ _) Hin) x). }
  assert (sign_invariant (set_ffmpeg (Some (Some proc)) (__init__ pf inf)))
    as Hinit by (by split; [|constructor]).
  rewrite run_unfold.
  pose proof (run_loop_invariant sign_invariant (fun self q H => H)
                process_info_sign fuel ∅ _ Hinit) as H.
  destruct (run_loop fuel ∅ _) as [[] self2|e self2|]; [| |done].
  - destruct (ffmpeg self2) as [[p|]|]; by apply Hout.
  - by apply Hout.
Qed.

(** ** The front end's printer *)

Lemma queued_app (l1 l2 : list event) :
  main.queued (l1 ++ l2) = (main.queued l1 ++ main.queued l2)%list.
Proof. apply flat_map_app. Qed.

Lemma queued_block_events (pf inf : bool) (ratio : float)
    (info : gmap string value) :
  main.queued (block_events pf inf ratio info) = if inf then [info] else [].
Proof. by destruct pf, inf. Qed.

Lemma block_calls_printable (pf inf : bool) (l : list event) :
  block_calls pf inf l -> Forall printable (main.queued l).
Proof.
  induction 1 as [|l ratio info Hl IH Hd Hp Ho]; [constructor|].
  rewrite queued_app, queued_block_events. apply Forall_app. split; [done|].
  destruct inf; [|constructor]. repeat constructor; eauto.
Qed.

Lemma run_block_calls (proc : Popen) (fuel : nat) (pf inf : bool) :
  match run proc fuel (__init__ pf inf) with
  | Ret _ self' | Raise _ self' => block_calls pf inf (calls self')
  | OutOfFuel => True
  end.
Proof.
  rewrite run_unfold.
  pose proof (run_loop_block_calls fuel ∅
                (set_ffmpeg (Some (Some proc)) (__init__ pf inf)) proc
                eq_refl (block_calls_nil pf inf)) as H.
  cbn [progress_f info_f set_ffmpeg __init__] in H.
  destruct (run_loop fuel ∅ _) as [[] self2|e self2|]; [| |done].
  - by destruct (ffmpeg self2) as [[p|]|].
  - done.
Qed.

Lemma print_info_printable (q : list (gmap string value)) :
  Forall printable q -> no_lookup_failure (main.print_info q).2.
Proof.
  induction 1 as [|info q [[ratio Hd] [v Hv]] Hq IH]; [done|].
  cbn [main.print_info]. rewrite Hd, Hv.
  destruct (main.is_end v); [done|]. cbn [main.times_100].
  destruct (fmul ratio (of_Z 100)) as [s|s| |s m e];
    cbn [main.int_of_float]; try done;
    by destruct (main.print_info q).
Qed.

(** X10. Whatever a run hands to [info_f], [print_info] can take: fed
    with the dictionaries queued during a run, whether the run returned
    or raised, it raises neither [KeyError] on ["done"] or ["progress"]
    nor [TypeError] on the ratio. *)
Theorem print_info_accepts_run_infos
    (proc : Popen) (fuel : nat) (pf inf : bool) :
  match run proc fuel (__init__ pf inf) with
  | Ret _ self' | Raise _ self' =>
      no_lookup_failure (main.print_info (main.queued (calls self'))).2
  | OutOfFuel => True
  end.
Proof.
  pose proof (run_block_calls proc fuel pf inf) as H.
  destruct (run proc fuel (__init__ pf inf)) as [[] self'|e self'|];
    [| |done];
    by eapply print_info_printable, block_calls_printable.
Qed.

(** X11. [print_info] returns only at a dictionary whose ["progress"] is
    ["end"]: it has then printed one text for each dictionary before
    that one, none of which was an end, and has not looked at the
    following ones. On a queue without such a dictionary it does not
    return. *)
Theorem print_info_returns_at_end (q : list (gmap string value)) :
  ((main.print_info q).2 = main.Returned ->
   exists pre e post,
     q = (pre ++ e :: post)%list /\
     e !! "progress" = Some (VStr "end") /\
     is_Some (e !! "done") /\
     Forall (fun i => i !! "progress" <> Some (VStr "end")) pre /\
     length (main.print_info q).1 = length pre /\
     main.print_info q = main.print_info (pre ++ [e])) /\
  (Forall (fun i => i !! "progress" <> Some (VStr "end")) q ->
   (main.print_info q).2 <> main.Returned).
Proof.
  assert (forall v, main.is_end v = true <-> v = VStr "end") as Hend.
  { intros [s|x]; simpl; [|by split].
    rewrite String.eqb_eq. split; [by intros ->|by intros [= ->]]. }
  split.
  - induction q as [|info q IH]; [done|].
    cbn [main.print_info].
    destruct (info !! "done") as [amount|] eqn:Hd; [|done].
    destruct (info !! "progress") as [v|] eqn:Hv; [|done].
    destruct (main.is_end v) eqn:Hv'.
    + intros _. apply Hend in Hv' as ->.
      exists [], info, q. cbn [app main.print_info]. rewrite Hd, Hv.
      by repeat split; eauto.
    + destruct (main.times_100 amount) as [e|y] eqn:Ht; [done|].
      destruct (main.int_of_float y) as [e|n] eqn:Hi; [done|].
      destruct (main.print_info q) as [out st] eqn:Hq. cbn [snd fst].
      intros Hst.
      destruct (IH Hst) as (pre & e & post & -> & He & Hde & Hpre & Hlen & Heq).
      exists (info :: pre), e, post. split; [done|]. split; [done|].
      split; [done|]. split.
      { constructor; [|done]. rewrite Hv. intros [= ->].
        by rewrite (proj2 (Hend (VStr "end")) eq_refl) in Hv'. }
      split; [cbn [fst length] in *; by rewrite Hlen|].
      cbn [app main.print_info]. by rewrite Hd, Hv, Hv', Ht, Hi, <- Heq.
  - induction 1 as [|info q Hinfo Hq IH]; [done|].
    cbn [main.print_info].
    destruct (info !! "done") as [amount|]; [|done].
    destruct (info !! "progress") as [v|] eqn:Hv; [|done].
    destruct (main.is_end v) eqn:Hv'.
    { apply Hend in Hv' as ->. done. }
    destruct (main.times_100 amount) as [e|y]; [done|].
    destruct (main.int_of_float y) as [e|n]; [done|].
    by destruct (main.print_info q) as [out st].
Qed.

Lemma print_info_returns_at_end_witness :
  let q := [<["progress" := VStr "continue"]> {["done" := VFloat (of_Z 0)]};
            <["progress" := VStr "end"]> {["done" := VFloat (of_Z 1)]};
            <["progress" := VStr "continue"]> {["done" := VFloat (of_Z 1)]}] in
  main.print_info q = ([main.percent_text 0], main.Returned) /\
  exists pre e post,
    q = (pre ++ e :: post)%list /\
    e !! "progress" = Some (VStr "end") /\
    is_Some (e !! "done") /\
    Forall (fun i => i !! "progress" <> Some (VStr "end")) pre /\
    length (main.print_info q).1 = length pre /\
    main.print_info q = main.print_info (pre ++ [e]).
Proof.
  intros q. split; [reflexivity|].
  apply (proj1 (print_info_returns_at_end q)). reflexivity.
Defined.

(** X13. When ffmpeg ends without a line on the progress channel (a
    blank first read, as after a failed start), [run] returns with an
    empty queue, and [print_info] prints nothing and waits for ever. *)
Theorem print_info_blocks_without_progress
    (proc : Popen) (fuel : nat) (pf inf : bool) (line rest : string) :
  readline (stdout proc) = (line, rest) ->
  strip line = "" ->
  exists self',
    run proc (S fuel) (__init__ pf inf) = Ret tt self' /\
    main.print_info (main.queued (calls self')) = ([], main.Blocked).
Proof.
  intros Hline Hblank. rewrite run_unfold.
  rewrite (run_loop_blank fuel ∅
             (set_ffmpeg (Some (Some proc)) (__init__ pf inf)) proc
             line rest eq_refl Hline Hblank).
  eexists. split; reflexivity.
Qed.

Lemma print_info_blocks_without_progress_witness :
  exists self',
    run (sample_handle "" (Some 1)) 1 (__init__ false true) = Ret tt self' /\
    main.print_info (main.queued (calls self')) = ([], main.Blocked).
Proof.
  exact (print_info_blocks_without_progress (sample_handle "" (Some 1)) 0
           false true "" "" eq_refl eq_refl).
Defined.

(** ** A run that raises *)

(** X14. [run] has no clean-up: when it raises, [self.ffmpeg] is still
    the handle of the subprocess, with what was not yet read of its two
    pipes, and the calls made before the exception stay made. *)
Theorem run_raise_keeps_handle
    (proc : Popen) (fuel : nat) (self self' : t) (e : exn) :
  run proc fuel self = Raise e self' ->
  exists p new,
    ffmpeg self' = Some (Some p) /\
    returncode p = returncode proc /\
    suffix_of (stdout p) (stdout proc) /\
    suffix_of (subprocess.stderr p) (subprocess.stderr proc) /\
    calls self' = (calls self ++ new)%list.
Proof.
  rewrite run_unfold.
  pose proof (run_loop_evolves fuel ∅ (set_ffmpeg (Some (Some proc)) self)
                proc eq_refl) as H.
  destruct (run_loop fuel ∅ _) as [[] self2|e2 self2|]; [| |done].
  - destruct H as [He _].
    destruct (ev_handle _ _ He proc eq_refl) as (p & Hp & _).
    by rewrite Hp.
  - intros [= -> <-].
    destruct (ev_handle _ _ H proc eq_refl) as (p & Hp & Hrc & Ho & He).
    destruct (ev_calls _ _ H) as [new Hnew].
    by exists p, new.
Qed.

Lemma run_raise_keeps_handle_witness :
  let proc := sample_handle
                ("out_time_ms=500000" ++ LF ++ "progress=continue" ++ LF
                 ++ "frame 12 fps 25" ++ LF ++ "progress=end" ++ LF)
                (Some 0) in
  exists self' p new,
    run proc 5 (__init__ true false) = Raise ValueError self' /\
    ffmpeg self' = Some (Some p) /\
    returncode p = returncode proc /\
    suffix_of (stdout p) (stdout proc) /\
    suffix_of (subprocess.stderr p) (subprocess.stderr proc) /\
    calls self' = (calls (__init__ true false) ++ new)%list.
Proof.
  intros proc.
  assert (exists self', run proc 5 (__init__ true false)
                        = Raise ValueError self') as [self' Hrun]
    by (eexists; vm_compute; reflexivity).
  destruct (run_raise_keeps_handle proc 5 (__init__ true false) self'
              ValueError Hrun) as (p & new & H).
  by exists self', p, new.
Defined.
